(** * FIM.py: file-integrity monitor and backup rotation

    A shallow embedding of [FIM.py]: the text ledger [baseline.txt], the
    per-category change handlers, the file classifier, the polling loop
    [monitor_files] and the backup pruning [delete_old_backups], with the
    properties of the design document stated and settled against them. *)

From Stdlib Require Import List String Ascii ZArith Lia Bool Arith Permutation Sorted DecimalString.
Import ListNotations.
Open Scope string_scope.
Open Scope list_scope.

(** ** Python strings

    A [str] is modelled as a Rocq [string]; characters are the code points
    below 256. *)

Definition LF : ascii := "010"%char.
Definition CR : ascii := "013"%char.
Definition PIPE : ascii := "|"%char.

(** [str.isspace] on one character (code points below 256). *)
Definition is_space (c : ascii) : bool :=
  let n := nat_of_ascii c in
  (((9 <=? n) && (n <=? 13)) || ((28 <=? n) && (n <=? 32))
   || (n =? 133) || (n =? 160))%nat.

(** [s.lstrip()], [s.rstrip()] and [s.strip()]. *)
Fixpoint lstrip (s : string) : string :=
  match s with
  | String c s' => if is_space c then lstrip s' else s
  | EmptyString => EmptyString
  end.

Fixpoint rstrip (s : string) : string :=
  match s with
  | String c s' =>
      match rstrip s' with
      | EmptyString => if is_space c then EmptyString else String c EmptyString
      | r => String c r
      end
  | EmptyString => EmptyString
  end.

Definition strip (s : string) : string := rstrip (lstrip s).

(** [s.split(sep)] for a one-character separator: never the empty list. *)
Fixpoint split (sep : ascii) (s : string) : list string :=
  match s with
  | EmptyString => [EmptyString]
  | String c s' =>
      if Ascii.eqb c sep then EmptyString :: split sep s'
      else match split sep s' with
           | h :: t => String c h :: t
           | [] => [String c EmptyString]
           end
  end.

(** [s.startswith(p)] and [s.endswith(p)]. *)
Definition startswith (s p : string) : bool := String.prefix p s.

Fixpoint endswith (s p : string) : bool :=
  if String.eqb s p then true
  else match s with
       | String _ s' => endswith s' p
       | EmptyString => false
       end.

(** Iterating a file opened in text mode ([for line in f]): the lines keep
    their terminator, and universal newlines turn "\r\n" and "\r" into
    "\n". *)
Fixpoint iter_lines (s : string) : list string :=
  match s with
  | EmptyString => []
  | String c s' =>
      if Ascii.eqb c LF then String LF EmptyString :: iter_lines s'
      else if Ascii.eqb c CR then
        match s' with
        | String c' s'' =>
            if Ascii.eqb c' LF then String LF EmptyString :: iter_lines s''
            else String LF EmptyString :: iter_lines s'
        | EmptyString => [String LF EmptyString]
        end
      else match iter_lines s' with
           | l :: ls => String c l :: ls
           | [] => [String c EmptyString]
           end
  end.

(** ** Python dictionaries

    A [dict] keeps its keys in insertion order, and the ledger is written
    in that order: an association list with distinct keys.  Assigning to a
    present key keeps its place, assigning to a new key appends. *)

Definition dict (V : Type) : Type := list (string * V).

Section Dict.
Context {V : Type}.

Fixpoint dict_get (k : string) (d : dict V) : option V :=
  match d with
  | [] => None
  | (k', v) :: d' => if String.eqb k k' then Some v else dict_get k d'
  end.

Definition dict_mem (k : string) (d : dict V) : bool :=
  match dict_get k d with Some _ => true | None => false end.

Fixpoint dict_set (k : string) (v : V) (d : dict V) : dict V :=
  match d with
  | [] => [(k, v)]
  | (k', v') :: d' =>
      if String.eqb k k' then (k', v) :: d' else (k', v') :: dict_set k v d'
  end.

Fixpoint dict_del (k : string) (d : dict V) : dict V :=
  match d with
  | [] => []
  | (k', v') :: d' =>
      if String.eqb k k' then d' else (k', v') :: dict_del k d'
  end.

Definition dict_keys (d : dict V) : list string := map fst d.
End Dict.

(** ** The ledger [baseline.txt]

    One line [path|hash|event_id] per record. *)

Record info : Type := Info { hash : string; event_id : string }.

(** The loop every loader runs over the lines of the file:
    [parts = line.strip().split("|")], and the record is taken when
    [len(parts) >= 3], from [parts[0]], [parts[1]] and [parts[2]]. *)
Definition parse_line (line : string) : option (string * info) :=
  match split PIPE (strip line) with
  | path :: file_hash :: eid :: _ => Some (path, Info file_hash eid)
  | _ => None
  end.

Definition load_step (d : dict info) (line : string) : dict info :=
  match parse_line line with
  | Some (path, r) => dict_set path r d
  | None => d
  end.

Definition load_lines (ls : list string) : dict info :=
  fold_left load_step ls [].

Definition load_text (text : string) : dict info :=
  load_lines (iter_lines text).

(** [parts] for a line of the ledger: [line.strip().split("|")]. *)
Definition fields (line : string) : list string := split PIPE (strip line).

(** [f.write(f"{path}|{info['hash']}|{info['event_id']}\n")]. *)
Definition ledger_line (p : string) (r : info) : string :=
  (p ++ String PIPE (hash r ++ String PIPE (event_id r ++ String LF EmptyString)))%string.

Fixpoint save_text (d : dict info) : string :=
  match d with
  | [] => EmptyString
  | (p, r) :: d' => (ledger_line p r ++ save_text d')%string
  end.

(** ** hashlib: SHA-256 and SHA-512 (FIPS 180-4)

    [hashlib.sha256(data).hexdigest()] and [hashlib.sha512(data).hexdigest()]
    on words of [w] bits held in [Z], additions wrapping modulo [2^w]. *)

Local Open Scope Z_scope.

Record sha2_params : Type := Sha2Params {
  wbits : Z;                       (* word size: 32 or 64 *)
  rounds : nat;                    (* 64 or 80 *)
  Kconst : list Z;
  Hinit : list Z;
  bigsig0 : Z * Z * Z;             (* rotations of Sigma0 *)
  bigsig1 : Z * Z * Z;             (* rotations of Sigma1 *)
  smallsig0 : Z * Z * Z;           (* two rotations and a shift *)
  smallsig1 : Z * Z * Z
}.

Section Sha2.
Variable P : sha2_params.
Let w := wbits P.

Definition wrap (x : Z) : Z := x mod 2 ^ w.
Definition rotr (n x : Z) : Z :=
  Z.lor (Z.shiftr x n) (wrap (Z.shiftl x (w - n))).
Definition wnot (x : Z) : Z := Z.lxor x (2 ^ w - 1).

Definition Ch (x y z : Z) : Z := Z.lxor (Z.land x y) (Z.land (wnot x) z).
Definition Maj (x y z : Z) : Z :=
  Z.lxor (Z.lxor (Z.land x y) (Z.land x z)) (Z.land y z).
Definition Sigma (r : Z * Z * Z) (x : Z) : Z :=
  let '(a, b, c) := r in Z.lxor (Z.lxor (rotr a x) (rotr b x)) (rotr c x).
Definition sigma (r : Z * Z * Z) (x : Z) : Z :=
  let '(a, b, c) := r in Z.lxor (Z.lxor (rotr a x) (rotr b x)) (Z.shiftr x c).

(** Big-endian bytes of [x], [n] of them. *)
Fixpoint be_bytes (n : nat) (x : Z) : list Z :=
  match n with
  | O => []
  | S n' => be_bytes n' (x / 256) ++ [x mod 256]
  end.

(** Padding: 0x80, zeros, then the bit length on [w/4] bytes, up to a
    multiple of the block size [2w] bytes. *)
Definition pad (msg : list Z) : list Z :=
  let len := Z.of_nat (List.length msg) in
  let B := 2 * w in
  let L := w / 4 in
  let k := (B - (len + 1 + L) mod B) mod B in
  msg ++ [128] ++ repeat 0 (Z.to_nat k) ++ be_bytes (Z.to_nat L) (8 * len).

Definition be_word (bs : list Z) : Z :=
  fold_left (fun acc b => acc * 256 + b) bs 0.

(** Cut a list into chunks of [n] elements ([fuel] bounds their number). *)
Fixpoint chunks {A : Type} (fuel n : nat) (l : list A) : list (list A) :=
  match fuel with
  | O => []
  | S fuel' =>
      match l with
      | [] => []
      | _ => firstn n l :: chunks fuel' n (skipn n l)
      end
  end.

Definition at_ (l : list Z) (i : nat) : Z := nth i l 0.

(** Message schedule: [W] grows from 16 words to [rounds] words. *)
Fixpoint extend (n : nat) (W : list Z) : list Z :=
  match n with
  | O => W
  | S n' =>
      let t := List.length W in
      let x := wrap (sigma (smallsig1 P) (at_ W (t - 2)) + at_ W (t - 7)
                     + sigma (smallsig0 P) (at_ W (t - 15)) + at_ W (t - 16)) in
      extend n' (W ++ [x])
  end.

Record hstate : Type := HState {
  ha : Z; hb : Z; hc : Z; hd : Z; he : Z; hf : Z; hg : Z; hh : Z
}.

Definition round (s : hstate) (kw : Z * Z) : hstate :=
  let '(k, wt) := kw in
  let T1 := wrap (hh s + Sigma (bigsig1 P) (he s) + Ch (he s) (hf s) (hg s)
                  + k + wt) in
  let T2 := wrap (Sigma (bigsig0 P) (ha s) + Maj (ha s) (hb s) (hc s)) in
  HState (wrap (T1 + T2)) (ha s) (hb s) (hc s)
         (wrap (hd s + T1)) (he s) (hf s) (hg s).

Definition compress (s : hstate) (block : list Z) : hstate :=
  let W := extend (rounds P - 16) block in
  let s' := fold_left round (combine (Kconst P) W) s in
  HState (wrap (ha s + ha s')) (wrap (hb s + hb s')) (wrap (hc s + hc s'))
         (wrap (hd s + hd s')) (wrap (he s + he s')) (wrap (hf s + hf s'))
         (wrap (hg s + hg s')) (wrap (hh s + hh s')).

Definition init_state : hstate :=
  let H := Hinit P in
  HState (at_ H 0) (at_ H 1) (at_ H 2) (at_ H 3)
         (at_ H 4) (at_ H 5) (at_ H 6) (at_ H 7).

Definition digest (data : list Byte.byte) : hstate :=
  let msg := map (fun b => Z.of_N (Byte.to_N b)) data in
  let padded := pad msg in
  let words := map be_word (chunks (List.length padded) (Z.to_nat (w / 8)) padded) in
  fold_left compress (chunks (List.length words) 16 words) init_state.

Definition hex_digit (x : Z) : ascii :=
  ascii_of_nat (Z.to_nat (if x <? 10 then 48 + x else 87 + x)).

Fixpoint hex_fixed (n : nat) (x : Z) : string :=
  match n with
  | O => EmptyString
  | S n' => (hex_fixed n' (x / 16) ++ String (hex_digit (x mod 16)) EmptyString)%string
  end.

Definition hexdigest (data : list Byte.byte) : string :=
  let s := digest data in
  let hx := hex_fixed (Z.to_nat (w / 4)) in
  (hx (ha s) ++ hx (hb s) ++ hx (hc s) ++ hx (hd s)
   ++ hx (he s) ++ hx (hf s) ++ hx (hg s) ++ hx (hh s))%string.
End Sha2.

(** The constants of FIPS 180-4: the first [w] bits of the fractional parts
    of the square roots (initial state) and cube roots (round constants) of
    the first primes. *)
Definition is_prime (n : Z) : bool :=
  forallb (fun d => negb (n mod Z.of_nat d =? 0)) (seq 2 (Z.to_nat n - 2)).

Definition first_primes (n : nat) : list Z :=
  firstn n (filter is_prime (map Z.of_nat (seq 2 420))).

(** The integer cube root of [n], found bit by bit from bit [k - 1] down. *)
Fixpoint cube_root_bits (k : nat) (n acc : Z) : Z :=
  match k with
  | O => acc
  | S k' =>
      let c := acc + 2 ^ Z.of_nat k' in
      if c * c * c <=? n then cube_root_bits k' n c else cube_root_bits k' n acc
  end.

Definition frac_sqrt (bits p : Z) : Z :=
  Z.sqrt (p * 2 ^ (2 * bits)) mod 2 ^ bits.

Definition frac_cbrt (bits p : Z) : Z :=
  cube_root_bits 80 (p * 2 ^ (3 * bits)) 0 mod 2 ^ bits.

Definition K256 : list Z := Eval vm_compute in map (frac_cbrt 32) (first_primes 64).
Definition H256 : list Z := Eval vm_compute in map (frac_sqrt 32) (first_primes 8).
Definition K512 : list Z := Eval vm_compute in map (frac_cbrt 64) (first_primes 80).
Definition H512 : list Z := Eval vm_compute in map (frac_sqrt 64) (first_primes 8).

Definition sha256_params : sha2_params :=
  Sha2Params 32 64 K256 H256 (2, 13, 22) (6, 11, 25) (7, 18, 3) (17, 19, 10).

Definition sha512_params : sha2_params :=
  Sha2Params 64 80 K512 H512 (28, 34, 39) (14, 18, 41) (1, 8, 7) (19, 61, 6).

Definition sha256_hexdigest : list Byte.byte -> string := hexdigest sha256_params.
Definition sha512_hexdigest : list Byte.byte -> string := hexdigest sha512_params.
Arguments sha256_hexdigest : simpl never.
Arguments sha512_hexdigest : simpl never.

Local Close Scope Z_scope.

Definition bytes_of (s : string) : list Byte.byte := list_byte_of_string s.

(** ** Exceptions and output *)

Inductive exn : Type :=
| PermissionError
| FileNotFoundError
| IsADirectoryError
| NotADirectoryError
| KeyError.

(** What the program writes: [logger.info(f"{code} File at path: {path},
    Action: {action}")] (the Word handler puts the event id before the
    path), the other logger calls, and [print]. *)
Inductive output : Type :=
| LogInfo (code : nat) (eid : option string) (path : string) (action : string)
| LogWarning (eid : string) (path : string)
| LogError (filename : string) (e : exn)
| LogPlain (text : string)
| Print (text : string).

Definition out_code (o : output) : option nat :=
  match o with LogInfo c _ _ _ => Some c | _ => None end.

Definition out_path (o : output) : option string :=
  match o with LogInfo _ _ p _ => Some p | _ => None end.

(** Result of a block of statements: what it wrote, the state it left, and
    the exception that ended it, if one did. *)
Definition result (S : Type) : Type := (list output * S * option exn)%type.

(** [for x in l: body(x)], left by the first exception. *)
Fixpoint for_each {A S : Type} (body : A -> S -> result S) (l : list A) (st : S)
  : result S :=
  match l with
  | [] => ([], st, None)
  | x :: l' =>
      match body x st with
      | (o, st', Some e) => (o, st', Some e)
      | (o, st', None) =>
          let '(o2, st2, r) := for_each body l' st' in (o ++ o2, st2, r)
      end
  end.

(** ** The file system

    A snapshot of the directories the program can see.  A file is readable,
    held open exclusively by another process, or a name whose target is gone
    (a dangling link, or a file removed since the directory was listed). *)

Inductive file_state : Type :=
| Readable (data : list Byte.byte)
| Locked
| Dangling.

Local Set Warnings "-register-all".
Inductive tree : Type :=
| Dir (name : string) (files : list (string * file_state)) (subdirs : list tree).

Definition dir_name (t : tree) : string := match t with Dir n _ _ => n end.

(** The directories the program can see; the name of a top directory is its
    whole path. *)
Definition filesystem : Type := list tree.

Definition SEP : ascii := "/"%char.

(** [os.path.join(a, b)] (posixpath). *)
Definition path_join (a b : string) : string :=
  if startswith b (String SEP EmptyString) then b
  else if String.eqb a EmptyString || endswith a (String SEP EmptyString)
       then (a ++ b)%string
       else (a ++ String SEP b)%string.

(** [os.walk(top)] top-down from the directory [t] at path [top], with the
    loop body's pruning [dirs[:] = [d for d in dirs if d not in
    excluded_dirs]] applied before descending; each item is
    [(root, files)]. *)
Fixpoint walk (excluded : list string) (top : string) (t : tree)
  : list (string * list string) :=
  match t with
  | Dir _ files subdirs =>
      (top, map fst files)
      :: flat_map (fun sub : tree =>
                     if existsb (String.eqb (dir_name sub)) excluded then []
                     else walk excluded (path_join top (dir_name sub)) sub)
                  subdirs
  end.

Fixpoint find_top (fs : filesystem) (top : string) : option tree :=
  match fs with
  | [] => None
  | t :: fs' => if String.eqb top (dir_name t) then Some t else find_top fs' top
  end.

(** [os.walk] of a path that is no directory yields nothing. *)
Definition os_walk (excluded : list string) (fs : filesystem) (top : string)
  : list (string * list string) :=
  match find_top fs top with
  | Some t => walk excluded top t
  | None => []
  end.

(** Every file and every directory of a tree, by full path. *)
Fixpoint tree_files (top : string) (t : tree) : list (string * file_state) :=
  match t with
  | Dir _ files subdirs =>
      map (fun nf : string * file_state => (path_join top (fst nf), snd nf)) files
      ++ flat_map (fun sub : tree =>
                     tree_files (path_join top (dir_name sub)) sub) subdirs
  end.

Fixpoint tree_dirs (top : string) (t : tree) : list string :=
  match t with
  | Dir _ files subdirs =>
      top :: flat_map (fun sub : tree =>
                         tree_dirs (path_join top (dir_name sub)) sub) subdirs
  end.

Definition fs_files (fs : filesystem) : list (string * file_state) :=
  flat_map (fun t : tree => tree_files (dir_name t) t) fs.

Definition fs_dirs (fs : filesystem) : list string :=
  flat_map (fun t : tree => tree_dirs (dir_name t) t) fs.

Definition is_dir (fs : filesystem) (p : string) : bool :=
  existsb (String.eqb p) (fs_dirs fs).

(** [open(path, "rb")] followed by [read()]. *)
Definition open_rb (fs : filesystem) (p : string) : exn + list Byte.byte :=
  match dict_get p (fs_files fs) with
  | Some (Readable data) => inr data
  | Some Locked => inl PermissionError
  | Some Dangling => inl FileNotFoundError
  | None => if is_dir fs p then inl IsADirectoryError else inl FileNotFoundError
  end.

(** [os.path.exists(path)]. *)
Definition path_exists (fs : filesystem) (p : string) : bool :=
  match dict_get p (fs_files fs) with
  | Some Dangling => false
  | Some _ => true
  | None => is_dir fs p
  end.

(** ** Fingerprints *)

Definition calculate_file_hash (fs : filesystem) (filepath : string)
  : exn + string :=
  match open_rb fs filepath with
  | inr data => inr (sha512_hexdigest data)
  | inl e => inl e
  end.

Definition calculate_file_checksum (fs : filesystem) (filepath : string)
  : exn + string :=
  match open_rb fs filepath with
  | inr data => inr (sha256_hexdigest data)
  | inl e => inl e
  end.

(** ** The file classifier *)

Definition check_file_type (filename : string) : option string :=
  if endswith filename ".xlsx" then Some "excel"
  else if endswith filename ".jpg" || endswith filename ".jpeg"
          || endswith filename ".png" || endswith filename ".gif"
       then Some "image"
  else if endswith filename ".docx" then Some "word"
  else if endswith filename ".pdf" then Some "pdf"
  else if endswith filename ".pptx" then Some "pptx"
  else None.

(** ** The change handlers

    Each handler reads [baseline.txt] (absent: [None]) into its own
    dictionary, fingerprints the file, logs the comparison, stores the new
    record and writes the whole ledger back.  Its [try] catches every
    exception and logs it.  It returns what it logged and the ledger it
    left. *)

(** The loading loop of the handlers whose loop assigns [event_id =
    parts[2]]: the assignment is to the handler's own parameter, so the
    loop leaves [event_id] at the third field of the last accepted line. *)
Definition load_step_eid (acc : dict info * string) (line : string)
  : dict info * string :=
  match parse_line line with
  | Some (path, r) => (dict_set path r (fst acc), event_id r)
  | None => acc
  end.

Definition load_eid (text event_id : string) : dict info * string :=
  fold_left load_step_eid (iter_lines text) ([], event_id).

Definition compare_log (filename current_hash : string) (baseline_data : dict info)
  (new_action changed_action same_action : string) : output :=
  match dict_get filename baseline_data with
  | None => LogInfo 101 None filename new_action
  | Some r =>
      if negb (String.eqb current_hash (hash r))
      then LogInfo 103 None filename changed_action
      else LogInfo 100 None filename same_action
  end.

(** The body shared by [process_file_changes], [process_image_changes],
    [process_excel_changes], [process_pdf_changes] and
    [process_text_changes], which differ in the fingerprint function and in
    the wording of the three log lines. *)
Definition process_changes
  (fingerprint : filesystem -> string -> exn + string)
  (new_action changed_action same_action : string)
  (fs : filesystem) (filename event_id : string) (ledger : option string)
  : list output * option string :=
  match ledger with
  | None => ([LogError filename FileNotFoundError], ledger)
  | Some text =>
      let '(baseline_data, event_id) := load_eid text event_id in
      match fingerprint fs filename with
      | inl e => ([LogError filename e], ledger)
      | inr current_hash =>
          let msg := compare_log filename current_hash baseline_data
                       new_action changed_action same_action in
          let baseline_data :=
            dict_set filename (Info current_hash event_id) baseline_data in
          ([msg], Some (save_text baseline_data))
      end
  end.

Definition process_file_changes :=
  process_changes calculate_file_hash
    "New file detected." "File changed." "No change in file.".

Definition process_image_changes :=
  process_changes calculate_file_hash
    "New image detected." "Image changed." "No change in image.".

(** The Excel handler keeps its fingerprint under the key ["checksum"]; the
    ledger line has it in the same second field. *)
Definition process_excel_changes :=
  process_changes calculate_file_checksum
    "New Excel file detected." "Excel file has modified."
    "No change in Excel file.".

Definition process_pdf_changes :=
  process_changes calculate_file_hash
    "New PDF document detected." "PDF document changed."
    "No change in PDF document.".

Definition process_text_changes :=
  process_changes calculate_file_hash
    "New text file detected." "Text file changed." "No change in text file.".

(** The Word handler loads into [file_event_id] and keeps its parameter. *)
Definition process_word_changes
  (fs : filesystem) (filename event_id : string) (ledger : option string)
  : list output * option string :=
  if startswith filename "~$" then ([], ledger)
  else
    match ledger with
    | None => ([LogError filename FileNotFoundError], ledger)
    | Some text =>
        let baseline_data := load_text text in
        if negb (path_exists fs filename) then
          if dict_mem filename baseline_data
          then ([LogInfo 102 (Some event_id) filename
                   "Word document has been deleted."], ledger)
          else ([LogWarning event_id filename], ledger)
        else
          match calculate_file_hash fs filename with
          | inl e => ([LogError filename e], ledger)
          | inr current_hash =>
              let msg :=
                match dict_get filename baseline_data with
                | None =>
                    if negb (startswith filename "~$")
                    then [LogInfo 101 (Some event_id) filename
                            "New Word document detected."]
                    else []
                | Some r =>
                    if negb (String.eqb current_hash (hash r))
                    then [LogInfo 103 None filename "Word document changed."]
                    else [LogInfo 100 (Some event_id) filename
                            "No change in Word document."]
                end in
              let baseline_data :=
                dict_set filename (Info current_hash event_id) baseline_data in
              (msg, Some (save_text baseline_data))
          end
    end.

(** [process_file]: the handlers catch their own exceptions, so the [try]
    around the dispatch has nothing left to catch. *)
Definition process_file
  (fs : filesystem) (filename event_id : string) (ledger : option string)
  : list output * option string :=
  match check_file_type filename with
  | Some file_type =>
      if String.eqb file_type "excel"
      then process_excel_changes fs filename event_id ledger
      else if String.eqb file_type "image"
      then process_image_changes fs filename event_id ledger
      else if String.eqb file_type "word"
      then process_word_changes fs filename event_id ledger
      else if String.eqb file_type "pdf"
      then process_pdf_changes fs filename event_id ledger
      else if String.eqb file_type "txt"
      then process_text_changes fs filename event_id ledger
      else ([LogInfo 103 None filename "File has been changed."], ledger)
  | None => ([LogInfo 103 None filename "File has been changed."], ledger)
  end.

(** ** The monitoring loop [monitor_files] *)

(** A record of [file_info_dict]: the loop keeps the path inside the record
    too. *)
Record minfo : Type := MInfo {
  m_hash : string; m_event_id : string; m_path : string
}.

(** What the loop works on: its dictionary, the ledger file on disk
    ([None] when there is none) and the number of identifiers drawn so far
    from [uuid.uuid4()]. *)
Record mstate : Type := MState {
  file_info_dict : dict minfo;
  baseline_txt : option string;
  uuid_drawn : nat
}.

Definition excluded_dirs : list string := ["image files"].

(** The loading [try]: a ledger that cannot be opened is reported with
    [print] and the loop starts from an empty dictionary.  The ledger is
    given as the text the file is read as ([Some text]) or as absent
    ([None]); bytes that the text codec refuses make no text and are not
    among the ledgers described here. *)
Definition mload_step (d : dict minfo) (line : string) : dict minfo :=
  match parse_line line with
  | Some (path, r) => dict_set path (MInfo (hash r) (event_id r) path) d
  | None => d
  end.

Definition monitor_load (ledger : option string) : list output * dict minfo :=
  match ledger with
  | Some text => ([], fold_left mload_step (iter_lines text) [])
  | None =>
      ([Print "Error loading baseline: [Errno 2] No such file or directory: 'baseline.txt'"],
       [])
  end.

Section Monitor.
(** The snapshot a cycle runs against, and the identifiers [uuid.uuid4()]
    returns, in the order they are drawn. *)
Variable fs : filesystem.
Variable uuid4 : nat -> string.

(** The body of [for f in files], for the path [full_path]. *)
Definition visit_file (full_path : string) (st : mstate) : result mstate :=
  match open_rb fs full_path with
  | inl PermissionError =>
      ([Print (String LF (full_path ++ " is in use, skipping..."))%string],
       st, None)
  | inl e => ([], st, Some e)
  | inr _ =>
      let d := file_info_dict st in
      match dict_get full_path d with
      | None =>
          let event_id := uuid4 (uuid_drawn st) in
          match calculate_file_hash fs full_path with
          | inl e =>
              ([], MState d (baseline_txt st) (S (uuid_drawn st)), Some e)
          | inr file_hash =>
              ([LogInfo 101 None full_path "New file detected."],
               MState (dict_set full_path (MInfo file_hash event_id full_path) d)
                      (baseline_txt st) (S (uuid_drawn st)),
               None)
          end
      | Some r =>
          match calculate_file_hash fs full_path with
          | inl e => ([], st, Some e)
          | inr current_hash =>
              if negb (String.eqb current_hash (m_hash r)) then
                let event_id := uuid4 (uuid_drawn st) in
                let d' := dict_set full_path
                            (MInfo current_hash event_id (m_path r)) d in
                let '(outs, ledger') :=
                  process_file fs full_path event_id (baseline_txt st) in
                (outs, MState d' ledger' (S (uuid_drawn st)), None)
              else if negb (String.eqb full_path (m_path r)) then
                let moved :=
                  LogInfo 104 None (m_path r)
                    ("File has been renamed to " ++ full_path)%string in
                match dict_get (m_path r) d with
                | None => ([moved], st, Some KeyError)
                | Some old =>
                    let d1 := dict_del (m_path r) d in
                    let d2 := dict_set full_path
                                (MInfo (m_hash old) (m_event_id old) full_path) d1 in
                    ([moved], MState d2 (baseline_txt st) (uuid_drawn st), None)
                end
              else ([], st, None)
          end
      end
  end.

(** [for path in list(file_info_dict.keys())]: the deletion pass. *)
Definition delete_step (acc : list output * dict minfo) (path : string)
  : list output * dict minfo :=
  if negb (path_exists fs path)
  then (fst acc ++ [LogInfo 102 None path "File has been deleted"],
        dict_del path (snd acc))
  else acc.

Definition deletion_pass (st : mstate) : result mstate :=
  let '(outs, d) :=
    fold_left delete_step (dict_keys (file_info_dict st))
              ([], file_info_dict st) in
  (outs, MState d (baseline_txt st) (uuid_drawn st), None).

(** The body of [for root, dirs, files in os.walk(target_folder)]: the
    files of the directory, then the deletion pass. *)
Definition walk_step (item : string * list string) (st : mstate)
  : result mstate :=
  let '(root, files) := item in
  match for_each (fun f => visit_file (path_join root f)) files st with
  | (o, st', Some e) => (o, st', Some e)
  | (o, st', None) =>
      let '(o2, st2, r) := deletion_pass st' in (o ++ o2, st2, r)
  end.

(** One turn of [while True], after the [time.sleep(5)]. *)
Definition cycle (target_folders : list string) (st : mstate) : result mstate :=
  for_each (fun target_folder =>
              for_each walk_step (os_walk excluded_dirs fs target_folder))
           target_folders st.
End Monitor.

(** [monitor_files] observed for [n] turns of its loop, turn [i] running
    against the snapshot [fs_at i].  An exception leaves the loop and ends
    the thread. *)
Fixpoint monitor_loop (fs_at : nat -> filesystem) (uuid4 : nat -> string)
  (target_folders : list string) (i n : nat) (st : mstate) : result mstate :=
  match n with
  | O => ([], st, None)
  | S n' =>
      match cycle (fs_at i) uuid4 target_folders st with
      | (o, st', Some e) => (o, st', Some e)
      | (o, st', None) =>
          let '(o2, st2, r) :=
            monitor_loop fs_at uuid4 target_folders (S i) n' st' in
          (o ++ o2, st2, r)
      end
  end.

Definition monitor_files (fs_at : nat -> filesystem) (uuid4 : nat -> string)
  (target_folders : list string) (ledger : option string) (n : nat)
  : result mstate :=
  let '(o, d) := monitor_load ledger in
  let '(o2, st, r) :=
    monitor_loop fs_at uuid4 target_folders 0 n (MState d ledger 0) in
  (o ++ o2, st, r).

(** ** Backup pruning [delete_old_backups] *)

(** An entry of the backup location: its name, its creation time and
    whether it is a directory. *)
Record entry : Type := Entry {
  e_name : string; e_ctime : Z; e_is_dir : bool
}.

(** [glob.glob(os.path.join(backup_location, "*"))]: the entries whose
    names do not start with a dot, in the order the directory lists them. *)
Definition glob_star (listing : list entry) : list entry :=
  filter (fun e => negb (startswith (e_name e) ".")) listing.

(** [backups.sort(key=os.path.getctime)]: a stable sort. *)
Fixpoint insert_by_ctime (x : entry) (l : list entry) : list entry :=
  match l with
  | [] => [x]
  | y :: l' =>
      if (e_ctime x <=? e_ctime y)%Z then x :: l
      else y :: insert_by_ctime x l'
  end.

Fixpoint sort_by_ctime (l : list entry) : list entry :=
  match l with
  | [] => []
  | x :: l' => insert_by_ctime x (sort_by_ctime l')
  end.

(** [shutil.rmtree(path)] on the entry named [n]. *)
Definition remove_entry (n : string) (listing : list entry) : list entry :=
  filter (fun e => negb (String.eqb (e_name e) n)) listing.

Definition delete_old_backups (backup_location : string) (listing : list entry)
  : result (list entry) :=
  let backups := sort_by_ctime (glob_star listing) in
  if (2 <? List.length backups)%nat then
    match backups with
    | oldest_backup :: _ =>
        if e_is_dir oldest_backup then
          ([LogPlain ("Deleted old backup: "
                      ++ path_join backup_location (e_name oldest_backup))%string],
           remove_entry (e_name oldest_backup) listing, None)
        else ([], listing, Some NotADirectoryError)
    | [] => ([], listing, None)
    end
  else ([], listing, None).

(** The suffixes [check_file_type] knows. *)
Definition known_suffixes : list string :=
  [".xlsx"; ".jpg"; ".jpeg"; ".png"; ".gif"; ".docx"; ".pdf"; ".pptx"].

(** [str.upper] on the letters a-z. *)
Definition upper_char (c : ascii) : ascii :=
  let n := nat_of_ascii c in
  if ((97 <=? n) && (n <=? 122))%nat then ascii_of_nat (n - 32) else c.

Fixpoint upper (s : string) : string :=
  match s with
  | EmptyString => EmptyString
  | String c s' => String (upper_char c) (upper s')
  end.

(** [delete_old_backups] called [n] times in a row. *)
Fixpoint prune_times (n : nat) (backup_location : string) (listing : list entry)
  : list entry :=
  match n with
  | O => listing
  | S n' =>
      prune_times n' backup_location
        (snd (fst (delete_old_backups backup_location listing)))
  end.

(** ** Ledger fields that survive a save and a load

    A line is cut at line breaks, stripped and split at ["|"]: a field
    comes back as it was written when it holds none of these characters,
    the path does not begin and the event id does not end with white
    space. *)

Definition nl : string := String LF EmptyString.

Fixpoint has_char (c : ascii) (s : string) : bool :=
  match s with
  | EmptyString => false
  | String x s' => Ascii.eqb x c || has_char c s'
  end.

Definition field_ok (s : string) : bool :=
  negb (has_char PIPE s) && negb (has_char LF s) && negb (has_char CR s).

Definition record_ok (kv : string * info) : bool :=
  let '(p, r) := kv in
  field_ok p && field_ok (hash r) && field_ok (event_id r)
  && String.eqb (lstrip p) p && String.eqb (rstrip (event_id r)) (event_id r).

Definition ledger_ok (R : dict info) : bool := forallb record_ok R.

(** ** Sample inputs *)

(** Two readable files in one directory. *)
Definition fs_two_files : filesystem :=
  [Dir "/t" [("a.txt", Readable (bytes_of "hello"));
             ("b.png", Readable (bytes_of "world"))] []].

(** A spreadsheet. *)
Definition fs_sheet : filesystem :=
  [Dir "/t" [("s.xlsx", Readable (bytes_of "cells"))] []].

(** Five archives, listed in no particular order. *)
Definition five_archives : list entry :=
  [Entry "b3" 3 true; Entry "b1" 1 true; Entry "b5" 5 true;
   Entry "b2" 2 true; Entry "b4" 4 true].

(** The handlers that fingerprint with [calculate_file_hash]. *)
Definition sha512_handlers
  : list (filesystem -> string -> string -> option string
          -> list output * option string) :=
  [process_file_changes; process_image_changes; process_word_changes;
   process_pdf_changes; process_text_changes].

(** The order [backups.sort(key=os.path.getctime)] sorts by. *)
Definition ctime_le (a b : entry) : Prop := (e_ctime a <= e_ctime b)%Z.

(** ** Vocabulary for the monitoring loop *)

(** Every record of [file_info_dict] holds its own key as its path. *)
Definition keyed (d : dict minfo) : Prop :=
  forall k r, In (k, r) d -> m_path r = k.

(** The paths a cycle's discovery visits, in order. *)
Definition visited_paths (fs : filesystem) (target_folders : list string)
  : list string :=
  flat_map (fun target_folder =>
              flat_map (fun item : string * list string =>
                          map (path_join (fst item)) (snd item))
                       (os_walk excluded_dirs fs target_folder))
           target_folders.

(** The line the deletion pass logs. *)
Definition deleted_msg (path : string) : output :=
  LogInfo 102 None path "File has been deleted".

(** The file a log line is about. *)
Definition out_about (o : output) : option string :=
  match o with
  | LogInfo _ _ p _ => Some p
  | LogWarning _ p => Some p
  | LogError p _ => Some p
  | LogPlain _ => None
  | Print _ => None
  end.

(** Identifiers standing for the values of [uuid.uuid4()]. *)
Definition uuid_sample (n : nat) : string :=
  ("uuid-" ++ NilEmpty.string_of_uint (Nat.to_uint n))%string.

(** A handler run on an existing file logs about that file only, and no
    deletion. *)
Definition about_file (filename : string) (o : output) : Prop :=
  out_about o = Some filename /\ out_code o <> Some 102.

(** The dictionary holds the fingerprint [h] for the path [p]. *)
Definition recorded (p h : string) (st : mstate) : Prop :=
  exists rec, dict_get p (file_info_dict st) = Some rec /\ m_hash rec = h.

(** The line [o] is not about the path [p]. *)
Definition silent_on (p : string) (o : output) : Prop := out_about o <> Some p.






(** A directory with a locked file, a subdirectory and an excluded
    directory, and a dictionary that tracks a file that is gone and a file
    of the excluded directory. *)
Definition fs_walk : filesystem :=
  [Dir "/t" [("a.txt", Readable (bytes_of "hello")); ("l.txt", Locked)]
     [Dir "sub" [("n.txt", Readable (bytes_of "x"))] [];
      Dir "image files" [("x.png", Readable (bytes_of "p"))] []]].

Definition st_walk : mstate :=
  MState [("/t/gone.txt", MInfo "00" "e0" "/t/gone.txt");
          ("/t/image files/x.png", MInfo "01" "e1" "/t/image files/x.png")]
         (Some EmptyString) 0.

(** A directory listing a name whose file is gone, between two readable
    files. *)
Definition fs_dangling : filesystem :=
  [Dir "/t" [("a.txt", Readable (bytes_of "hello"));
             ("gone.txt", Dangling);
             ("z.txt", Readable (bytes_of "world"))] []].

(** ** The handlers together *)

(** The six change handlers. *)
Definition all_handlers
  : list (filesystem -> string -> string -> option string
          -> list output * option string) :=
  sha512_handlers ++ [process_excel_changes].

(** The five handlers built on the shared body, whose loading loop assigns
    to [event_id]. *)
Definition shared_body_handlers
  : list (filesystem -> string -> string -> option string
          -> list output * option string) :=
  [process_file_changes; process_image_changes; process_excel_changes;
   process_pdf_changes; process_text_changes].

(** The last character of a string. *)
Fixpoint last_char (s : string) : option ascii :=
  match s with
  | EmptyString => None
  | String c EmptyString => Some c
  | String _ s' => last_char s'
  end.

(** A dictionary as Python keeps it: one record per key, and here each
    record holding its key as its path. *)
Definition valid_dict (d : dict minfo) : Prop :=
  NoDup (dict_keys d) /\ keyed d.

(** What a handler run on an existing file may log: a line with code 100,
    101 or 103, or an error. *)
Definition handler_line (o : output) : Prop :=
  out_code o = None \/ out_code o = Some 100
  \/ out_code o = Some 101 \/ out_code o = Some 103.

(** A log line that reports the deletion of [p]. *)
Definition is_deletion_of (p : string) (o : output) : bool :=
  match o with
  | LogInfo c _ q _ => (c =? 102)%nat && String.eqb q p
  | _ => false
  end.

(** A record of the loop without its path. *)
Definition to_info (kv : string * minfo) : string * info :=
  (fst kv, Info (m_hash (snd kv)) (m_event_id (snd kv))).

(** Every key of the dictionary exists on disk. *)
Definition keys_exist (fs : filesystem) (st : mstate) : Prop :=
  forall k, In k (dict_keys (file_info_dict st)) -> path_exists fs k = true.

(** How many of the lines report the deletion of [p], and how many records
    a dictionary holds for [p] (none or one). *)
Definition deletions_of (p : string) (o : list output) : nat :=
  List.length (filter (is_deletion_of p) o).

Definition tracked (p : string) (st : mstate) : nat :=
  if dict_mem p (file_info_dict st) then 1 else 0.

(** ** Fields a handler writes *)

(** A path and an event id that come back from the ledger as written. *)
Definition path_ok (p : string) : bool :=
  field_ok p && String.eqb (lstrip p) p.

Definition eid_ok (e : string) : bool :=
  field_ok e && String.eqb (rstrip e) e.

(** The value the loading loop of the shared handler body leaves in
    [event_id]: the event id of the last record, or the value it had. *)
Definition last_eid (R : dict info) (e : string) : string :=
  fold_left (fun _ kv => event_id (snd kv)) R e.

(** ** Collecting a baseline: [collect_baseline] *)

(** The text of the ledger, empty when there is no file. *)
Definition ledger_text (ledger : option string) : string :=
  match ledger with Some text => text | None => EmptyString end.

(** The names [collect_baseline] passes over. *)
Definition skipped_name (f : string) : bool :=
  startswith f "$" || startswith f "~$".

(** The body of [for f in files]: the dictionary of the target folder and
    the number of identifiers drawn. *)
Definition collect_file (fs : filesystem) (uuid4 : nat -> string)
  (root f : string) (st : dict info * nat) : result (dict info * nat) :=
  let full_path := path_join root f in
  if skipped_name f then ([], st, None)
  else
    match calculate_file_hash fs full_path with
    | inl e => ([], st, Some e)
    | inr file_hash =>
        let event_id := uuid4 (snd st) in
        ([], (dict_set full_path (Info file_hash event_id) (fst st), S (snd st)),
         None)
    end.

(** One target folder: walk it (nothing is excluded here), then append the
    dictionary to [baseline.txt], which [open(..., "a")] creates when it is
    not there.  An exception leaves before the file is opened. *)
Definition collect_target (fs : filesystem) (uuid4 : nat -> string)
  (target_folder : string) (st : option string * nat)
  : result (option string * nat) :=
  match for_each (fun item : string * list string =>
                    for_each (collect_file fs uuid4 (fst item)) (snd item))
                 (os_walk [] fs target_folder) ([], snd st) with
  | (o, (_, n), Some e) => (o, (fst st, n), Some e)
  | (o, (file_info_dict, n), None) =>
      (o, (Some (ledger_text (fst st) ++ save_text file_info_dict)%string, n),
       None)
  end.

(** [erase_existing_baseline()], then the target folders in turn. *)
Definition collect_baseline (fs : filesystem) (uuid4 : nat -> string)
  (target_folders : list string) (ledger : option string)
  : result (option string * nat) :=
  for_each (collect_target fs uuid4) target_folders (None, 0).

(** The files a baseline is collected from. *)
Definition baseline_paths (fs : filesystem) (target_folders : list string)
  : list string :=
  flat_map (fun target_folder =>
              flat_map (fun item : string * list string =>
                          map (path_join (fst item))
                              (filter (fun f => negb (skipped_name f)) (snd item)))
                       (os_walk [] fs target_folder))
           target_folders.

(** The records of a dictionary read in order, a later record replacing an
    earlier one of the same path. *)
Definition set_all (R acc : dict info) : dict info :=
  fold_left (fun a kv => dict_set (fst kv) (snd kv) a) R acc.

(** Every record has the fingerprint of the file at its path. *)
Definition fingerprints_of (fs : filesystem) (R : dict info) : Prop :=
  forall k r, In (k, r) R ->
    exists data, open_rb fs k = inr data /\ hash r = sha512_hexdigest data.

(** A string without white space, separator or line break. *)
Fixpoint plain (s : string) : bool :=
  match s with
  | EmptyString => true
  | String c s' =>
      negb (is_space c) && negb (Ascii.eqb c PIPE) && negb (Ascii.eqb c LF)
      && negb (Ascii.eqb c CR) && plain s'
  end.

(** A directory with a file that [collect_baseline] passes over and a
    file in a directory that [monitor_files] excludes. *)
Definition fs_office : filesystem :=
  [Dir "/t" [("a.txt", Readable (bytes_of "hello"));
             ("~$a.docx", Locked)]
     [Dir "image files" [("x.png", Readable (bytes_of "p"))] []]].

(** ** Backups: [backup_and_manage] *)

(** [os.path.basename(p)]: what follows the last separator. *)
Definition basename (p : string) : string := last (split SEP p) EmptyString.

Definition readable (s : file_state) : bool :=
  match s with Readable _ => true | _ => false end.

(** [shutil.copytree(src, dst)] on the directory [t], the copy being named
    [name]: every file that can be read and every subdirectory is copied;
    the files that cannot be read are left out and make the copy fail at
    its end ([shutil.Error]), which the flag tells. *)
Fixpoint copy_tree (name : string) (t : tree) : tree * bool :=
  match t with
  | Dir _ files subdirs =>
      let copies := map (fun sub => copy_tree (dir_name sub) sub) subdirs in
      (Dir name (filter (fun nf => readable (snd nf)) files) (map fst copies),
       forallb (fun nf => readable (snd nf)) files && forallb snd copies)
  end.

(** Every file of the tree can be read. *)
Fixpoint all_readable (t : tree) : bool :=
  match t with
  | Dir _ files subdirs =>
      forallb (fun nf => readable (snd nf)) files && forallb all_readable subdirs
  end.

(** An archive: its entry in the backup location and the folders copied
    into it. *)
Record archive : Type := Archive { a_entry : entry; a_folders : list tree }.

Definition store_listing (s : list archive) : list entry := map a_entry s.

(** What ends the copying, and what the backup writes. *)
Inductive backup_exn : Type :=
| OsError (e : exn)
| FileExistsError
| ShutilError.

Inductive backup_output : Type :=
| Plain (o : output)
| LogException (e : backup_exn).

(** The destination [os.path.join(backup_folder, folder_name)] exists: the
    name is empty or a dot name (the archive itself, or its parent), or a
    folder of that name has been copied. *)
Definition dst_exists (folder_name : string) (copied : list tree) : bool :=
  String.eqb folder_name "" || String.eqb folder_name "."
  || String.eqb folder_name ".."
  || existsb (fun t => String.eqb (dir_name t) folder_name) copied.

(** [for folder in target_folders: shutil.copytree(folder, destination)]:
    the source is listed first, then the destination is made. *)
Fixpoint copy_targets (fs : filesystem) (target_folders : list string)
  (copied : list tree) : list tree * option backup_exn :=
  match target_folders with
  | [] => (copied, None)
  | folder :: rest =>
      let folder_name := basename folder in
      match find_top fs folder with
      | None => (copied, Some (OsError FileNotFoundError))
      | Some t =>
          if dst_exists folder_name copied then (copied, Some FileExistsError)
          else
            let '(t', ok) := copy_tree folder_name t in
            if ok then copy_targets fs rest (copied ++ [t'])
            else (copied ++ [t'], Some ShutilError)
      end
  end.

(** [delete_old_backups(backup_location)] on the archives. *)
Definition prune_store (backup_location : string) (s : list archive)
  : list backup_output * list archive :=
  let '(o, listing, r) := delete_old_backups backup_location (store_listing s) in
  (map Plain o
   ++ match r with Some e => [LogException (OsError e)] | None => [] end,
   filter (fun a => existsb (String.eqb (e_name (a_entry a))) (map e_name listing))
          s).

(** [backup_and_manage], run when the clock gives the name [timestamp] and
    the time [now]: nothing if the archive exists; else the archive is
    made and the target folders are copied into it; when all copies
    succeed the old backups are pruned.  [FileExistsError] is passed over,
    any other exception is logged; the archive stays as it is. *)
Definition backup_and_manage (fs : filesystem) (timestamp : string) (now : Z)
  (target_folders : list string) (backup_location : string)
  (s : list archive) : list backup_output * list archive :=
  let backup_folder := path_join backup_location timestamp in
  if existsb (fun a => String.eqb (e_name (a_entry a)) timestamp) s
  then ([], s)
  else
    let made := Entry timestamp now true in
    match copy_targets fs target_folders [] with
    | (copied, Some FileExistsError) => ([], s ++ [Archive made copied])
    | (copied, Some e) => ([LogException e], s ++ [Archive made copied])
    | (copied, None) =>
        let '(o, s') := prune_store backup_location (s ++ [Archive made copied]) in
        ([Plain (Print "Backup completed successfully.");
          Plain (LogPlain ("Backup created at: " ++ backup_folder))] ++ o,
         s')
    end.

(** Archives as the program makes them: directories with distinct names
    that do not start with a dot. *)
Definition store_ok (s : list archive) : Prop :=
  NoDup (map e_name (store_listing s))
  /\ forall a, In a s ->
       e_is_dir (a_entry a) = true /\ startswith (e_name (a_entry a)) "." = false.

(** The copy of a directory all of whose files can be read. *)
Definition renamed (name : string) (t : tree) : tree :=
  match t with Dir _ files subdirs => Dir name files subdirs end.

(** The completion message. *)
Definition completed (o : backup_output) : Prop :=
  o = Plain (Print "Backup completed successfully.").

(** The copy expected of a target folder that can be read in full. *)
Definition copy_of (fs : filesystem) (folder : string) : tree :=
  match find_top fs folder with
  | Some t => renamed (basename folder) t
  | None => Dir (basename folder) [] []
  end.

(** A target folder that is a directory all of whose files can be read. *)
Definition good_target (fs : filesystem) (folder : string) : Prop :=
  exists t, find_top fs folder = Some t /\ all_readable t = true.

(** A base name under which a folder can be copied into a new archive. *)
Definition proper_name (folder_name : string) : bool :=
  negb (String.eqb folder_name "" || String.eqb folder_name "."
        || String.eqb folder_name "..").

(** The archive a run makes. *)
Definition new_archive (timestamp : string) (now : Z) (copied : list tree)
  : archive :=
  Archive (Entry timestamp now true) copied.

(** * Properties *)

Example split_4 : split PIPE "a|b|c|d" = ["a"; "b"; "c"; "d"].
Proof. reflexivity. Qed.
Example split_empty : split PIPE "" = [""].
Proof. reflexivity. Qed.
Example strip_both : strip "  x | y " = "x | y".
Proof. reflexivity. Qed.
Example iter_lines_universal :
  iter_lines (String "a" (String CR (String "b" (String CR (String LF
    (String "c" (String LF (String LF (String "d" EmptyString)))))))))
  = [String "a" (String LF ""); String "b" (String LF "");
     String "c" (String LF ""); String LF ""; "d"].
Proof. reflexivity. Qed.

Example sha256_abc :
  sha256_hexdigest (bytes_of "abc")
  = "ba7816bf8f01cfea414140de5dae2223b00361a396177a9cb410ff61f20015ad".
Proof. vm_compute. reflexivity. Qed.

Example sha512_abc :
  sha512_hexdigest (bytes_of "abc")
  = "ddaf35a193617abacc417349ae20413112e6fa4e89a97ea20a9eeee64b55d39a2192992a274fc1a836ba3c23a3feebbd454d4423643ce80e2a9ac94fa54ca49f".
Proof. vm_compute. reflexivity. Qed.

Example sha512_constants :
  nth 0 (Kconst sha512_params) 0%Z = 0x428a2f98d728ae22%Z
  /\ nth 79 (Kconst sha512_params) 0%Z = 0x6c44198c4a475817%Z
  /\ nth 7 (Hinit sha512_params) 0%Z = 0x5be0cd19137e2179%Z
  /\ nth 63 (Kconst sha256_params) 0%Z = 0xc67178f2%Z.
Proof. repeat split; reflexivity. Qed.

(** ** Strings *)

Lemma length_append (a b : string) :
  String.length (a ++ b)%string = String.length a + String.length b.
Proof. induction a as [|c a IH]; simpl; [reflexivity | now rewrite IH]. Qed.

Lemma append_assoc (a b c : string) :
  ((a ++ b) ++ c)%string = (a ++ (b ++ c))%string.
Proof. induction a as [|x a IH]; simpl; [reflexivity | now rewrite IH]. Qed.

Lemma append_empty_r (s : string) : (s ++ EmptyString)%string = s.
Proof. induction s as [|c s IH]; simpl; [reflexivity | now rewrite IH]. Qed.

Lemma endswith_cons (c : ascii) (s p : string) :
  endswith (String c s) p
  = if String.eqb (String c s) p then true else endswith s p.
Proof. reflexivity. Qed.

(** Whether [p] ends a path is decided by any tail of the path that is at
    least as long as [p]. *)
Lemma endswith_append (a s p : string) :
  String.length p <= String.length s ->
  endswith (a ++ s) p = endswith s p.
Proof.
  intros Hlen. induction a as [|c a IH]; [reflexivity|].
  change (String c a ++ s)%string with (String c (a ++ s)).
  rewrite endswith_cons.
  destruct (String.eqb_spec (String c (a ++ s)) p) as [E|_]; [|exact IH].
  apply (f_equal String.length) in E. simpl in E.
  rewrite length_append in E. lia.
Qed.

Lemma endswith_empty (p : string) :
  endswith EmptyString p = true -> p = EmptyString.
Proof.
  simpl. destruct p; [reflexivity | discriminate].
Qed.

Lemma endswith_last_char (s p : string) :
  endswith s p = true -> p <> EmptyString -> last_char s = last_char p.
Proof.
  intros H Hp. induction s as [|c s IH].
  - apply endswith_empty in H. contradiction.
  - rewrite endswith_cons in H.
    destruct (String.eqb_spec (String c s) p) as [->|_]; [reflexivity|].
    specialize (IH H). destruct s as [|c' s'].
    + apply endswith_empty in H. contradiction.
    + exact IH.
Qed.

Lemma last_char_append (a s : string) :
  s <> EmptyString -> last_char (a ++ s) = last_char s.
Proof.
  intros Hs. induction a as [|c a IH]; [reflexivity|].
  change (String c a ++ s)%string with (String c (a ++ s)).
  cbn [last_char]. rewrite IH.
  destruct (a ++ s)%string eqn:E; [|reflexivity].
  destruct a; [simpl in E; contradiction | discriminate E].
Qed.

(** A path [a ++ s] does not end in [p] when the two end in different
    characters. *)
Lemma endswith_other_char (a s p : string) :
  s <> EmptyString -> p <> EmptyString -> last_char s <> last_char p ->
  endswith (a ++ s) p = false.
Proof.
  intros Hs Hp Hne. destruct (endswith (a ++ s) p) eqn:E; [|reflexivity].
  apply endswith_last_char in E; [|exact Hp].
  rewrite last_char_append in E by exact Hs. contradiction.
Qed.

(** Each test of the classifier on a path with a given ending is settled
    by the ending alone (when it is as long as the suffix tested) or by
    the last character. *)
Ltac settle_endswith :=
  repeat match goal with
  | |- context [endswith (?a ++ ?s) ?suf] =>
      first
        [ rewrite (endswith_append a s suf) by (simpl; lia)
        | rewrite (endswith_other_char a s suf)
            by (try discriminate; simpl; congruence) ]
  end.

Ltac classify_suffix :=
  unfold check_file_type; settle_endswith;
  repeat match goal with
  | |- context [endswith (?a ++ ?s) ?suf] => destruct (endswith (a ++ s) suf)
  end;
  reflexivity.

(** ** The classifier *)

Lemma check_file_type_none (filename : string) :
  check_file_type filename = None
  <-> forallb (fun suf => negb (endswith filename suf)) known_suffixes = true.
Proof.
  unfold check_file_type, known_suffixes. simpl.
  destruct (endswith filename ".xlsx"), (endswith filename ".jpg"),
    (endswith filename ".jpeg"), (endswith filename ".png"),
    (endswith filename ".gif"), (endswith filename ".docx"),
    (endswith filename ".pdf"), (endswith filename ".pptx");
    simpl; split; intros H; try reflexivity; discriminate H.
Qed.

(** C8, as the code has it: the category of a path is decided by its last
    five characters, compared as they are against the eight known suffixes
    (no case folding): a path ending in [.xlsx] is "excel", in [.jpg],
    [.jpeg], [.png] or [.gif] "image", in [.docx] "word", in [.pdf] "pdf",
    in [.pptx] "pptx"; a path ending in one of the eight written in upper
    case gets no category, and so does exactly every path that ends in
    none of them ([None], the "other" of the design). *)
Theorem check_file_type_by_suffix (p q s : string) :
  (5 <= String.length s ->
   check_file_type (p ++ s) = check_file_type (q ++ s))
  /\ check_file_type (p ++ ".xlsx") = Some "excel"
  /\ (In s [".jpg"; ".jpeg"; ".png"; ".gif"] ->
      check_file_type (p ++ s) = Some "image")
  /\ check_file_type (p ++ ".docx") = Some "word"
  /\ check_file_type (p ++ ".pdf") = Some "pdf"
  /\ check_file_type (p ++ ".pptx") = Some "pptx"
  /\ (In s known_suffixes -> check_file_type (p ++ upper s) = None)
  /\ (check_file_type s = None
      <-> forallb (fun suf => negb (endswith s suf)) known_suffixes = true).
Proof.
  split; [|repeat split].
  - intros Hlen. unfold check_file_type.
    rewrite !(endswith_append p), !(endswith_append q) by (simpl; lia).
    reflexivity.
  - classify_suffix.
  - intros Hs. simpl in Hs.
    destruct Hs as [<-|[<-|[<-|[<-|[]]]]]; classify_suffix.
  - classify_suffix.
  - classify_suffix.
  - classify_suffix.
  - intros Hs. simpl in Hs.
    destruct Hs as [<-|[<-|[<-|[<-|[<-|[<-|[<-|[<-|[]]]]]]]]];
      classify_suffix.
  - apply check_file_type_none.
  - apply check_file_type_none.
Qed.

Lemma check_file_type_by_suffix_witness :
  check_file_type ("/a/" ++ "x.pdf") = check_file_type ("/b/c/" ++ "x.pdf")
  /\ check_file_type ("/a/photo" ++ ".jpeg") = Some "image"
  /\ check_file_type ("/a/photo" ++ upper ".jpeg") = None
  /\ check_file_type "notes.txt" = None.
Proof.
  split; [|split; [|split]].
  - apply (proj1 (check_file_type_by_suffix "/a/" "/b/c/" "x.pdf")).
    simpl. lia.
  - apply (check_file_type_by_suffix "/a/photo" "" ".jpeg").
    simpl. tauto.
  - apply (check_file_type_by_suffix "/a/photo" "" ".jpeg").
    simpl. tauto.
  - apply (check_file_type_by_suffix "" "" "notes.txt").
    reflexivity.
Defined.

(** C8 as stated fails: upper-casing the suffix changes the category. *)
Lemma check_file_type_case_sensitive :
  check_file_type ("report" ++ ".xlsx") = Some "excel"
  /\ check_file_type ("report" ++ upper ".xlsx") = None
  /\ check_file_type ("report" ++ ".xlsx")
     <> check_file_type ("report" ++ upper ".xlsx").
Proof. repeat split; try reflexivity. discriminate. Qed.

(** ** Dictionaries *)

Section DictFacts.
Context {V : Type}.
Implicit Types (d : dict V) (k : string) (v : V).

Lemma dict_get_set_eq k v d : dict_get k (dict_set k v d) = Some v.
Proof.
  induction d as [|[k' v'] d IH]; simpl.
  - now rewrite String.eqb_refl.
  - destruct (String.eqb_spec k k') as [->|Hne]; simpl.
    + now rewrite String.eqb_refl.
    + destruct (String.eqb_spec k k'); [contradiction | exact IH].
Qed.

Lemma dict_get_set_ne k k' v d :
  k' <> k -> dict_get k' (dict_set k v d) = dict_get k' d.
Proof.
  intros Hne. induction d as [|[k0 v0] d IH]; simpl.
  - destruct (String.eqb_spec k' k); [contradiction | reflexivity].
  - destruct (String.eqb_spec k k0) as [->|Hk]; simpl.
    + destruct (String.eqb_spec k' k0); [contradiction | reflexivity].
    + destruct (String.eqb_spec k' k0); [reflexivity | exact IH].
Qed.

Lemma dict_get_In k v d : dict_get k d = Some v -> In (k, v) d.
Proof.
  induction d as [|[k' v'] d IH]; simpl; [discriminate|].
  destruct (String.eqb_spec k k') as [->|_]; intros H.
  - injection H as ->. now left.
  - right. now apply IH.
Qed.

Lemma dict_get_None k d : dict_get k d = None <-> ~ In k (dict_keys d).
Proof.
  induction d as [|[k' v'] d IH]; simpl; [tauto|].
  destruct (String.eqb_spec k k') as [->|Hne].
  - split; [discriminate | intros H; exfalso; apply H; now left].
  - rewrite IH. split; intros H; [intros [E|E]; [congruence | tauto] | tauto].
Qed.

Lemma In_dict_set k v k' v' d :
  In (k', v') (dict_set k v d) -> (k' = k /\ v' = v) \/ In (k', v') d.
Proof.
  induction d as [|[k0 v0] d IH]; simpl.
  - intros [E|[]]. injection E as <- <-. now left.
  - destruct (String.eqb_spec k k0) as [->|Hne]; simpl.
    + intros [E|H]; [injection E as <- <-; now left | right; now right].
    + intros [E|H]; [right; now left|].
      destruct (IH H) as [?|?]; [now left | right; now right].
Qed.

Lemma In_dict_del k k' v' d : In (k', v') (dict_del k d) -> In (k', v') d.
Proof.
  induction d as [|[k0 v0] d IH]; simpl; [tauto|].
  destruct (String.eqb_spec k k0) as [->|Hne]; simpl.
  - intros H; now right.
  - intros [E|H]; [now left | right; now apply IH].
Qed.

Lemma dict_set_fresh k v d :
  ~ In k (dict_keys d) -> dict_set k v d = d ++ [(k, v)].
Proof.
  induction d as [|[k0 v0] d IH]; simpl; [reflexivity|].
  intros H. destruct (String.eqb_spec k k0) as [->|Hne]; [tauto|].
  rewrite IH; [reflexivity | tauto].
Qed.

Lemma dict_mem_set k k' v d :
  dict_mem k' (dict_set k v d) = String.eqb k' k || dict_mem k' d.
Proof.
  unfold dict_mem. destruct (String.eqb_spec k' k) as [->|Hne]; simpl.
  - now rewrite dict_get_set_eq.
  - now rewrite dict_get_set_ne.
Qed.

(** Keeping the records whose key satisfies [f]. *)
Lemma dict_get_filter (f : string -> bool) k d :
  dict_get k (filter (fun kv => f (fst kv)) d)
  = if f k then dict_get k d else None.
Proof.
  induction d as [|[k0 v0] d IH]; simpl; [now destruct (f k)|].
  destruct (f k0) eqn:Ef; simpl.
  - destruct (String.eqb_spec k k0) as [->|Hne]; [now rewrite Ef | exact IH].
  - destruct (String.eqb_spec k k0) as [->|Hne]; [|exact IH].
    rewrite IH, Ef. reflexivity.
Qed.
End DictFacts.

(** ** Loading the ledger *)

Lemma parse_line_fields (line path : string) (r : info) :
  parse_line line = Some (path, r)
  <-> exists rest, split PIPE (strip line) = path :: hash r :: event_id r :: rest.
Proof.
  unfold parse_line.
  destruct (split PIPE (strip line)) as [|f0 [|f1 [|f2 rest]]];
    try (split; [discriminate | intros [? H]; discriminate H]).
  destruct r as [h e]; simpl. split.
  - intros H. injection H as -> -> ->. now exists rest.
  - intros [rest' H]. injection H as -> -> -> _. reflexivity.
Qed.

Lemma parse_line_some (line : string) :
  (exists path r, parse_line line = Some (path, r)
                  /\ nth 0 (split PIPE (strip line)) EmptyString = path)
  <-> 3 <= List.length (split PIPE (strip line)).
Proof.
  unfold parse_line.
  destruct (split PIPE (strip line)) as [|f0 [|f1 [|f2 rest]]]; simpl.
  1-3: split; [intros (? & ? & H & _); discriminate H | lia].
  split; [lia | intros _; now exists f0, (Info f1 f2)].
Qed.

Lemma mload_mem (ls : list string) (d : dict minfo) (p : string) :
  dict_mem p (fold_left mload_step ls d) = true
  <-> dict_mem p d = true
      \/ exists line, In line ls
           /\ 3 <= List.length (split PIPE (strip line))
           /\ nth 0 (split PIPE (strip line)) EmptyString = p.
Proof.
  revert d. induction ls as [|l ls IH]; intros d; simpl.
  - split; [now left | intros [H|(? & [] & _)]; exact H].
  - rewrite IH. unfold mload_step at 1.
    destruct (parse_line l) as [[path r]|] eqn:E.
    + assert (Hl : 3 <= List.length (split PIPE (strip l))
                   /\ nth 0 (split PIPE (strip l)) EmptyString = path).
      { apply parse_line_fields in E. destruct E as [rest ->]. simpl.
        split; [lia | reflexivity]. }
      rewrite dict_mem_set. split.
      * intros [H|(line & Hin & H)].
        -- apply orb_true_iff in H. destruct H as [H|H]; [|now left].
           apply String.eqb_eq in H. subst p. right. exists l.
           split; [now left | exact Hl].
        -- right. exists line. split; [now right | exact H].
      * intros [H|(line & [<-|Hin] & H3 & H0)].
        -- left. rewrite H. apply orb_true_r.
        -- left. destruct Hl as [_ Hl]. rewrite Hl in H0. subst p.
           now rewrite String.eqb_refl.
        -- right. now exists line.
    + assert (Hl : ~ 3 <= List.length (split PIPE (strip l))).
      { intros H. apply parse_line_some in H.
        destruct H as (? & ? & H & _). congruence. }
      split.
      * intros [H|(line & Hin & H)]; [now left|].
        right. exists line. split; [now right | exact H].
      * intros [H|(line & [<-|Hin] & H3 & H0)]; [now left | contradiction |].
        right. now exists line.
Qed.

(** What a line of the ledger gives the record of a path: the line's
    fields, when the path is the first of three or more. *)
Lemma mload_step_get (d : dict minfo) (l p : string) :
  dict_get p (mload_step d l)
  = match fields l with
    | f0 :: f1 :: f2 :: _ =>
        if String.eqb p f0 then Some (MInfo f1 f2 f0) else dict_get p d
    | _ => dict_get p d
    end.
Proof.
  unfold mload_step, parse_line, fields.
  destruct (split PIPE (strip l)) as [|f0 [|f1 [|f2 rest]]]; try reflexivity.
  simpl. destruct (String.eqb_spec p f0) as [->|Hne].
  - apply dict_get_set_eq.
  - apply dict_get_set_ne. exact Hne.
Qed.

Lemma app_last_inv {A : Type} (ls before after : list A) (l line : A) :
  ls ++ [l] = before ++ line :: after ->
  (after = [] /\ before = ls /\ line = l)
  \/ exists after', after = after' ++ [l] /\ ls = before ++ line :: after'.
Proof.
  induction after as [|a after' _] using rev_ind; intros H.
  - left. apply app_inj_tail in H. destruct H as [-> ->]. auto.
  - right. exists after'.
    change (before ++ line :: after' ++ [a])
      with (before ++ (line :: after') ++ [a]) in H.
    rewrite app_assoc in H. apply app_inj_tail in H.
    destruct H as [-> ->]. auto.
Qed.

(** The record loaded for a path is the one of the last line that has the
    path as the first of three or more fields. *)
Lemma mload_get (ls : list string) (p : string) (r : minfo) :
  dict_get p (fold_left mload_step ls []) = Some r
  <-> exists before line after rest,
        ls = before ++ line :: after
        /\ fields line = p :: m_hash r :: m_event_id r :: rest
        /\ m_path r = p
        /\ forall l f1 f2 rest',
             In l after -> fields l <> p :: f1 :: f2 :: rest'.
Proof.
  induction ls as [|l ls IH] using rev_ind.
  - simpl. split; [discriminate|].
    intros (before & line & after & rest & H & _).
    destruct before; discriminate H.
  - rewrite fold_left_app. cbn [fold_left]. rewrite mload_step_get.
    assert (Hskip :
      (forall f1 f2 rest', fields l <> p :: f1 :: f2 :: rest') ->
      (dict_get p (fold_left mload_step ls []) = Some r
       <-> exists before line after rest,
             ls ++ [l] = before ++ line :: after
             /\ fields line = p :: m_hash r :: m_event_id r :: rest
             /\ m_path r = p
             /\ forall l0 f1 f2 rest',
                  In l0 after -> fields l0 <> p :: f1 :: f2 :: rest')).
    { intros Hl. rewrite IH. split.
      - intros (b & line & a & rest & -> & Hf & Hp & Hlater).
        exists b, line, (a ++ [l]), rest.
        split; [now rewrite <- app_assoc|].
        split; [exact Hf|]. split; [exact Hp|].
        intros l0 f1 f2 rest' Hin. apply in_app_or in Hin.
        destruct Hin as [Hin|[<-|[]]]; [now apply Hlater | apply Hl].
      - intros (b & line & a & rest & H & Hf & Hp & Hlater).
        apply app_last_inv in H.
        destruct H as [(-> & -> & ->)|(a' & -> & ->)].
        + exfalso. exact (Hl _ _ _ Hf).
        + exists b, line, a', rest.
          split; [reflexivity|]. split; [exact Hf|]. split; [exact Hp|].
          intros l0 f1 f2 rest' Hin. apply Hlater.
          apply in_or_app. now left. }
    destruct (fields l) as [|f0 [|f1 [|f2 rest0]]] eqn:El;
      try (apply Hskip; intros; discriminate).
    destruct (String.eqb_spec p f0) as [->|Hne].
    + split.
      * intros H. injection H as <-. exists ls, l, [], rest0.
        split; [reflexivity|]. split; [exact El|].
        split; [reflexivity|]. intros l0 g1 g2 rest' [].
      * intros (b & line & a & rest & H & Hf & Hp & Hlater).
        apply app_last_inv in H.
        destruct H as [(-> & -> & ->)|(a' & -> & ->)].
        -- rewrite El in Hf. injection Hf as E1 E2 _.
           destruct r as [h e q]. simpl in *. now subst.
        -- exfalso. apply (Hlater l f1 f2 rest0); [|exact El].
           apply in_or_app. right. now left.
    + apply Hskip. intros g1 g2 rest' E. injection E as E _. congruence.
Qed.

(** C6, as the code has it: of a ledger read as text, no line makes the
    load fail or print anything, and there is no [CorruptLedger] error.  A
    line that splits into fewer than three fields is passed over without a
    warning; a line of three fields or more is accepted, its first three
    fields giving path, hash and event id and the fields after the third
    being ignored.  So a path is loaded exactly when some line has it as
    the first of three or more fields, and its record holds the second and
    third fields of the last such line. *)
Theorem monitor_load_by_line (text p : string) :
  fst (monitor_load (Some text)) = []
  /\ (dict_mem p (snd (monitor_load (Some text))) = true
      <-> exists line, In line (iter_lines text)
            /\ 3 <= List.length (split PIPE (strip line))
            /\ nth 0 (split PIPE (strip line)) EmptyString = p)
  /\ (forall r,
        dict_get p (snd (monitor_load (Some text))) = Some r
        <-> exists before line after rest,
              iter_lines text = before ++ line :: after
              /\ fields line = p :: m_hash r :: m_event_id r :: rest
              /\ m_path r = p
              /\ forall l f1 f2 rest',
                   In l after -> fields l <> p :: f1 :: f2 :: rest').
Proof.
  split; [reflexivity|]. split.
  - simpl. rewrite mload_mem. unfold dict_mem. simpl.
    split; [intros [H|H]; [discriminate | exact H] | intros H; now right].
  - intros r. simpl. apply mload_get.
Qed.

Lemma monitor_load_by_line_witness :
  dict_get "a" (snd (monitor_load
                       (Some ("a|b|c|d" ++ nl ++ "x|y" ++ nl
                              ++ "a|h|e" ++ nl)%string)))
  = Some (MInfo "h" "e" "a").
Proof.
  apply (proj2 (proj2 (monitor_load_by_line
                         ("a|b|c|d" ++ nl ++ "x|y" ++ nl ++ "a|h|e" ++ nl)
                         "a"))
               (MInfo "h" "e" "a")).
  exists [("a|b|c|d" ++ nl)%string; ("x|y" ++ nl)%string],
         ("a|h|e" ++ nl)%string, [], [].
  split; [reflexivity|]. split; [reflexivity|]. split; [reflexivity|].
  intros l f1 f2 rest' [].
Defined.

(** ** Writing the ledger and reading it back *)

Lemma has_char_append (c : ascii) (a b : string) :
  has_char c (a ++ b)%string = has_char c a || has_char c b.
Proof.
  induction a as [|x a IH]; simpl; [reflexivity|].
  now rewrite IH, orb_assoc.
Qed.

Lemma iter_lines_line (l rest : string) :
  has_char LF l = false -> has_char CR l = false ->
  iter_lines (l ++ String LF rest) = (l ++ nl)%string :: iter_lines rest.
Proof.
  induction l as [|c l IH]; intros HLF HCR.
  - reflexivity.
  - simpl in HLF, HCR. apply orb_false_iff in HLF, HCR.
    destruct HLF as [HLF1 HLF2], HCR as [HCR1 HCR2].
    change (iter_lines (String c (l ++ String LF rest))
            = String c (l ++ nl) :: iter_lines rest).
    cbn [iter_lines]. rewrite HLF1, HCR1, (IH HLF2 HCR2). reflexivity.
Qed.

Lemma length_lstrip (s : string) : String.length (lstrip s) <= String.length s.
Proof.
  induction s as [|c s IH]; simpl; [lia|].
  destruct (is_space c); simpl; lia.
Qed.

Lemma lstrip_fixed_head (c : ascii) (s : string) :
  lstrip (String c s) = String c s -> is_space c = false.
Proof.
  simpl. destruct (is_space c); [|reflexivity].
  intros H. pose proof (length_lstrip s) as Hl. rewrite H in Hl.
  simpl in Hl. lia.
Qed.

Lemma lstrip_before_pipe (p x : string) :
  lstrip p = p -> lstrip (p ++ String PIPE x) = (p ++ String PIPE x)%string.
Proof.
  destruct p as [|c p]; intros H; [reflexivity|].
  apply lstrip_fixed_head in H. simpl. now rewrite H.
Qed.

Lemma rstrip_cons_nonspace (c : ascii) (s : string) :
  is_space c = false -> rstrip (String c s) = String c (rstrip s).
Proof. intros H. simpl. rewrite H. now destruct (rstrip s). Qed.

Lemma rstrip_line_end (e : string) : rstrip (e ++ nl) = rstrip e.
Proof.
  induction e as [|c e IH]; [reflexivity|].
  change (rstrip (String c (e ++ nl)) = rstrip (String c e)).
  cbn [rstrip]. now rewrite IH.
Qed.

Lemma rstrip_append (a b : string) :
  rstrip b <> EmptyString -> rstrip (a ++ b) = (a ++ rstrip b)%string.
Proof.
  intros Hb. induction a as [|c a IH]; [reflexivity|].
  change (rstrip (String c (a ++ b)) = String c (a ++ rstrip b)).
  cbn [rstrip]. rewrite IH.
  destruct (a ++ rstrip b)%string eqn:E; [|reflexivity].
  destruct a; simpl in E; [contradiction | discriminate].
Qed.

Lemma split_field (f x : string) :
  has_char PIPE f = false ->
  split PIPE (f ++ String PIPE x) = f :: split PIPE x.
Proof.
  induction f as [|c f IH]; intros H.
  - reflexivity.
  - simpl in H. apply orb_false_iff in H. destruct H as [H1 H2].
    change (split PIPE (String c (f ++ String PIPE x)) = String c f :: split PIPE x).
    cbn [split]. now rewrite H1, (IH H2).
Qed.

Lemma split_last (f : string) :
  has_char PIPE f = false -> split PIPE f = [f].
Proof.
  induction f as [|c f IH]; intros H; [reflexivity|].
  simpl in H. apply orb_false_iff in H. destruct H as [H1 H2].
  cbn [split]. now rewrite H1, (IH H2).
Qed.

Lemma record_ok_inv (p : string) (r : info) :
  record_ok (p, r) = true ->
  field_ok p = true /\ field_ok (hash r) = true /\ field_ok (event_id r) = true
  /\ lstrip p = p /\ rstrip (event_id r) = event_id r.
Proof.
  unfold record_ok. rewrite !andb_true_iff, !String.eqb_eq. tauto.
Qed.

Lemma field_ok_inv (s : string) :
  field_ok s = true ->
  has_char PIPE s = false /\ has_char LF s = false /\ has_char CR s = false.
Proof.
  unfold field_ok. rewrite !andb_true_iff, !negb_true_iff. tauto.
Qed.

(** A written line is read back as the record it was written from. *)
Lemma parse_ledger_line (p : string) (r : info) :
  record_ok (p, r) = true -> parse_line (ledger_line p r) = Some (p, r).
Proof.
  intros H. apply record_ok_inv in H.
  destruct H as (Hp & Hh & He & Hl & Hr).
  apply field_ok_inv in Hp, Hh, He.
  destruct Hp as (Hp & _), Hh as (Hh & _), He as (He & _).
  unfold parse_line, strip, ledger_line.
  rewrite (lstrip_before_pipe _ _ Hl).
  assert (E : rstrip (String PIPE (hash r ++ String PIPE (event_id r ++ nl)))
              = String PIPE (hash r ++ String PIPE (event_id r))).
  { rewrite rstrip_cons_nonspace by reflexivity. f_equal.
    rewrite rstrip_append.
    - rewrite rstrip_cons_nonspace by reflexivity.
      now rewrite rstrip_line_end, Hr.
    - rewrite rstrip_cons_nonspace by reflexivity. discriminate. }
  fold nl. rewrite rstrip_append by (rewrite E; discriminate).
  rewrite E, (split_field _ _ Hp), (split_field _ _ Hh), (split_last _ He).
  now destruct r.
Qed.

Lemma ledger_line_body (p : string) (r : info) (rest : string) :
  (ledger_line p r ++ rest)%string
  = ((p ++ String PIPE (hash r ++ String PIPE (event_id r)))
       ++ String LF rest)%string.
Proof.
  unfold ledger_line. repeat (rewrite append_assoc; simpl). reflexivity.
Qed.

Lemma iter_lines_save_cons (p : string) (r : info) (d : dict info) :
  record_ok (p, r) = true ->
  iter_lines (save_text ((p, r) :: d))
  = ledger_line p r :: iter_lines (save_text d).
Proof.
  intros H. apply record_ok_inv in H.
  destruct H as (Hp & Hh & He & _).
  apply field_ok_inv in Hp, Hh, He.
  cbn [save_text]. rewrite ledger_line_body, iter_lines_line.
  - f_equal. unfold nl. rewrite <- ledger_line_body. apply append_empty_r.
  - rewrite has_char_append. simpl. rewrite has_char_append. simpl.
    destruct Hp as (_ & -> & _), Hh as (_ & -> & _), He as (_ & -> & _).
    reflexivity.
  - rewrite has_char_append. simpl. rewrite has_char_append. simpl.
    destruct Hp as (_ & _ & ->), Hh as (_ & _ & ->), He as (_ & _ & ->).
    reflexivity.
Qed.

Lemma load_saved (R acc : dict info) :
  NoDup (dict_keys acc ++ dict_keys R) -> ledger_ok R = true ->
  fold_left load_step (iter_lines (save_text R)) acc = acc ++ R.
Proof.
  revert acc. induction R as [|[p r] R IH]; intros acc Hnd Hok.
  - simpl. now rewrite app_nil_r.
  - simpl in Hok. apply andb_true_iff in Hok. destruct Hok as [Hr Hok].
    rewrite (iter_lines_save_cons _ _ _ Hr). cbn [fold_left].
    unfold load_step at 2. rewrite (parse_ledger_line _ _ Hr).
    assert (Hfresh : ~ In p (dict_keys acc)).
    { simpl in Hnd. apply NoDup_remove_2 in Hnd.
      intros Hin. apply Hnd. apply in_or_app. now left. }
    rewrite (dict_set_fresh _ _ _ Hfresh), IH.
    + now rewrite <- app_assoc.
    + unfold dict_keys in *. rewrite map_app, <- app_assoc. exact Hnd.
    + exact Hok.
Qed.

(** C5, as the code has it: a record set whose keys are distinct and whose
    fields hold no ["|"] and no line break, no path beginning and no event
    id ending with white space, is read back from the ledger written from
    it exactly, in the same order. *)
Theorem ledger_round_trip (R : dict info) :
  NoDup (dict_keys R) -> ledger_ok R = true ->
  load_text (save_text R) = R.
Proof.
  intros Hnd Hok. unfold load_text, load_lines.
  now rewrite load_saved.
Qed.

Lemma ledger_round_trip_witness :
  load_text (save_text [("/t/a b.txt", Info "0f" "id 1"); ("/t/c.pdf", Info "" "")])
  = [("/t/a b.txt", Info "0f" "id 1"); ("/t/c.pdf", Info "" "")].
Proof.
  apply ledger_round_trip.
  - repeat constructor; simpl; intuition discriminate.
  - reflexivity.
Defined.

(** C5 as stated fails: a path that holds the separator is cut at it. *)
Lemma ledger_round_trip_pipe :
  load_text (save_text [("/t/a|b.txt", Info "0f" "id1")])
  = [("/t/a", Info "b.txt" "0f")]
  /\ load_text (save_text [("/t/a|b.txt", Info "0f" "id1")])
     <> [("/t/a|b.txt", Info "0f" "id1")].
Proof. split; [reflexivity | discriminate]. Qed.

(** C6 as stated fails: a line of four fields is accepted, a line of two
    is dropped, and neither writes anything. *)
Lemma monitor_load_four_fields :
  List.length (split PIPE (strip ("a|b|c|d" ++ nl))) = 4
  /\ monitor_load (Some ("a|b|c|d" ++ nl ++ "x|y" ++ nl)%string)
     = ([], [("a", MInfo "b" "c" "a")]).
Proof. split; reflexivity. Qed.

(** ** The change handlers *)

Lemma load_eid_fst (ls : list string) (d : dict info) (e : string) :
  fst (fold_left load_step_eid ls (d, e)) = fold_left load_step ls d.
Proof.
  revert d e. induction ls as [|l ls IH]; intros d e; [reflexivity|].
  simpl. unfold load_step_eid at 2, load_step at 2.
  destruct (parse_line l) as [[path r]|]; simpl; apply IH.
Qed.

Lemma open_rb_exists (fs : filesystem) (p : string) (data : list Byte.byte) :
  open_rb fs p = inr data -> path_exists fs p = true.
Proof.
  unfold open_rb, path_exists.
  destruct (dict_get p (fs_files fs)) as [[| |]|];
    try discriminate; try reflexivity.
  destruct (is_dir fs p); discriminate.
Qed.

Lemma length_hex_fixed (n : nat) (x : Z) : String.length (hex_fixed n x) = n.
Proof.
  revert x. induction n as [|n IH]; intros x; [reflexivity|].
  simpl. rewrite length_append, IH. simpl. lia.
Qed.

Lemma length_hexdigest (P : sha2_params) (data : list Byte.byte) :
  String.length (hexdigest P data) = 8 * Z.to_nat (wbits P / 4).
Proof.
  unfold hexdigest. rewrite !length_append, !length_hex_fixed. lia.
Qed.

(** What a handler built on [process_changes] writes when the ledger and
    the file can be read. *)
Lemma process_changes_writes
  (fingerprint : filesystem -> string -> exn + string) (a1 a2 a3 : string)
  (fs : filesystem) (filename event_id text current : string) :
  fingerprint fs filename = inr current ->
  exists eid,
    snd (process_changes fingerprint a1 a2 a3 fs filename event_id (Some text))
    = Some (save_text (dict_set filename (Info current eid) (load_text text))).
Proof.
  intros Hf. unfold process_changes, load_eid.
  destruct (fold_left load_step_eid (iter_lines text) ([], event_id))
    as [baseline_data eid] eqn:E.
  assert (Hl : baseline_data = load_text text).
  { change baseline_data with (fst (baseline_data, eid)).
    rewrite <- E. apply load_eid_fst. }
  subst baseline_data. rewrite Hf. simpl. now exists eid.
Qed.

(** C7, as the code has it: the handlers for plain files, images, Word
    documents, PDFs and text files write the SHA-512 digest of the file's
    content (128 hex digits) into the ledger; the Excel handler writes the
    SHA-256 digest (64 hex digits). *)
Theorem handlers_fingerprint
  (fs : filesystem) (filename event_id text : string) (data : list Byte.byte) :
  open_rb fs filename = inr data ->
  startswith filename "~$" = false ->
  (forall handler, In handler sha512_handlers ->
     exists eid,
       snd (handler fs filename event_id (Some text))
       = Some (save_text (dict_set filename (Info (sha512_hexdigest data) eid)
                                   (load_text text))))
  /\ (exists eid,
        snd (process_excel_changes fs filename event_id (Some text))
        = Some (save_text (dict_set filename (Info (sha256_hexdigest data) eid)
                                    (load_text text))))
  /\ String.length (sha512_hexdigest data) = 128
  /\ String.length (sha256_hexdigest data) = 64.
Proof.
  intros Hopen Htmp.
  assert (H512 : calculate_file_hash fs filename = inr (sha512_hexdigest data))
    by (unfold calculate_file_hash; now rewrite Hopen).
  assert (H256 : calculate_file_checksum fs filename = inr (sha256_hexdigest data))
    by (unfold calculate_file_checksum; now rewrite Hopen).
  split; [|split; [|split]].
  - intros handler Hin. simpl in Hin.
    destruct Hin as [<-|[<-|[<-|[<-|[<-|[]]]]]];
      try (apply process_changes_writes; exact H512).
    unfold process_word_changes.
    rewrite Htmp, (open_rb_exists _ _ _ Hopen), H512. simpl.
    now exists event_id.
  - apply process_changes_writes. exact H256.
  - apply length_hexdigest.
  - apply length_hexdigest.
Qed.

Lemma handlers_fingerprint_witness :
  exists eid,
    snd (process_image_changes fs_two_files "/t/b.png" "e1" (Some ""))
    = Some (save_text [("/t/b.png", Info (sha512_hexdigest (bytes_of "world")) eid)]).
Proof.
  refine (proj1 (handlers_fingerprint fs_two_files "/t/b.png" "e1" ""
                   (bytes_of "world") _ _) process_image_changes _).
  - reflexivity.
  - reflexivity.
  - simpl. tauto.
Defined.

(** C7 as stated fails: the fingerprint the Excel handler stores is the
    SHA-256 digest, not the SHA-512 digest of the content. *)
Lemma process_excel_changes_sha256 :
  snd (process_excel_changes fs_sheet "/t/s.xlsx" "e1" (Some ""))
  = Some (save_text
            [("/t/s.xlsx", Info (sha256_hexdigest (bytes_of "cells")) "e1")])
  /\ sha256_hexdigest (bytes_of "cells") <> sha512_hexdigest (bytes_of "cells")
  /\ String.length (sha256_hexdigest (bytes_of "cells")) = 64.
Proof.
  split; [vm_compute; reflexivity|].
  split; [vm_compute; discriminate | vm_compute; reflexivity].
Qed.

Lemma load_eid_last (ls : list string) (l path : string) (r : info)
  (d : dict info) (e : string) :
  parse_line l = Some (path, r) ->
  snd (fold_left load_step_eid (ls ++ [l]) (d, e)) = event_id r.
Proof.
  intros Hl. rewrite fold_left_app. simpl. unfold load_step_eid at 1.
  now rewrite Hl.
Qed.

(** A handler built on [process_changes] stores, for the file it
    processes, the event id of the last line it loaded, whatever event id
    it was called with. *)
Lemma process_changes_last_event_id
  (fingerprint : filesystem -> string -> exn + string) (a1 a2 a3 : string)
  (fs : filesystem) (filename new_id text current : string)
  (ls : list string) (l path : string) (r : info) :
  iter_lines text = ls ++ [l] ->
  parse_line l = Some (path, r) ->
  fingerprint fs filename = inr current ->
  snd (process_changes fingerprint a1 a2 a3 fs filename new_id (Some text))
  = Some (save_text (dict_set filename (Info current (event_id r))
                              (load_text text))).
Proof.
  intros Hls Hl Hf. unfold process_changes, load_eid.
  destruct (fold_left load_step_eid (iter_lines text) ([], new_id))
    as [baseline_data eid] eqn:E.
  assert (Hd : baseline_data = load_text text).
  { change baseline_data with (fst (baseline_data, eid)).
    rewrite <- E. apply load_eid_fst. }
  assert (He : eid = event_id r).
  { change eid with (snd (baseline_data, eid)).
    rewrite <- E, Hls. now apply (load_eid_last ls l path). }
  subst. now rewrite Hf.
Qed.

(** C10: the event id the handlers store.  With one record in the ledger,
    [process_file_changes] and [process_image_changes] called with
    ["new-id"] store the event id of that record, ["old-id"], for the file
    they process: their loading loop assigns to [event_id]. *)
Theorem process_file_changes_event_id :
  snd (process_file_changes fs_two_files "/t/a.txt" "new-id"
         (Some ("/t/z.txt|00|old-id" ++ nl)%string))
  = Some (save_text
            [("/t/z.txt", Info "00" "old-id");
             ("/t/a.txt", Info (sha512_hexdigest (bytes_of "hello")) "old-id")])
  /\ snd (process_image_changes fs_two_files "/t/b.png" "new-id"
            (Some ("/t/z.txt|00|old-id" ++ nl)%string))
     = Some (save_text
               [("/t/z.txt", Info "00" "old-id");
                ("/t/b.png", Info (sha512_hexdigest (bytes_of "world")) "old-id")])
  /\ snd (process_word_changes fs_two_files "/t/a.txt" "new-id"
            (Some ("/t/z.txt|00|old-id" ++ nl)%string))
     = Some (save_text
               [("/t/z.txt", Info "00" "old-id");
                ("/t/a.txt", Info (sha512_hexdigest (bytes_of "hello")) "new-id")]).
Proof. repeat split; vm_compute; reflexivity. Qed.

(** ** Backup pruning *)

Lemma insert_by_ctime_perm (x : entry) (l : list entry) :
  Permutation (x :: l) (insert_by_ctime x l).
Proof.
  induction l as [|y l IH]; simpl; [apply Permutation_refl|].
  destruct (e_ctime x <=? e_ctime y)%Z; [apply Permutation_refl|].
  eapply perm_trans; [apply perm_swap | now apply perm_skip].
Qed.

Lemma sort_by_ctime_perm (l : list entry) : Permutation l (sort_by_ctime l).
Proof.
  induction l as [|x l IH]; simpl; [constructor|].
  eapply perm_trans; [apply perm_skip, IH | apply insert_by_ctime_perm].
Qed.

Lemma insert_by_ctime_sorted (x : entry) (l : list entry) :
  Sorted.StronglySorted ctime_le l ->
  Sorted.StronglySorted ctime_le (insert_by_ctime x l).
Proof.
  induction 1 as [|y l Hs IH Hall]; simpl.
  - repeat constructor.
  - destruct (Z.leb_spec (e_ctime x) (e_ctime y)) as [Hle|Hgt].
    + constructor; [now constructor|].
      constructor; [exact Hle|].
      apply Forall_forall. intros z Hz.
      rewrite Forall_forall in Hall. specialize (Hall z Hz).
      unfold ctime_le in *. lia.
    + constructor; [exact IH|].
      apply Forall_forall. intros z Hz.
      apply (Permutation_in _ (Permutation_sym (insert_by_ctime_perm x l))) in Hz.
      destruct Hz as [<-|Hz].
      * unfold ctime_le. lia.
      * rewrite Forall_forall in Hall. now apply Hall.
Qed.

Lemma sort_by_ctime_sorted (l : list entry) :
  Sorted.StronglySorted ctime_le (sort_by_ctime l).
Proof.
  induction l as [|x l IH]; simpl; [constructor|].
  now apply insert_by_ctime_sorted.
Qed.

(** The first entry after sorting is one of the entries, and none is
    older. *)
Lemma sort_by_ctime_head (l : list entry) (x : entry) (rest : list entry) :
  sort_by_ctime l = x :: rest ->
  In x l /\ forall y, In y l -> (e_ctime x <= e_ctime y)%Z.
Proof.
  intros E. pose proof (sort_by_ctime_perm l) as Hp.
  pose proof (sort_by_ctime_sorted l) as Hs. rewrite E in Hp, Hs.
  split.
  - apply (Permutation_in _ (Permutation_sym Hp)). now left.
  - intros y Hy. apply (Permutation_in _ Hp) in Hy.
    destruct Hy as [<-|Hy]; [lia|].
    inversion Hs as [|? ? _ Hall]; subst.
    rewrite Forall_forall in Hall. now apply Hall.
Qed.

Lemma same_name_same_entry (l : list entry) (a b : entry) :
  NoDup (map e_name l) -> In a l -> In b l -> e_name a = e_name b -> a = b.
Proof.
  induction l as [|x l IH]; simpl; intros Hnd Ha Hb E; [contradiction|].
  inversion Hnd as [|? ? Hnotin Hnd']; subst.
  destruct Ha as [<-|Ha], Hb as [<-|Hb].
  - reflexivity.
  - exfalso. apply Hnotin. rewrite E. now apply in_map.
  - exfalso. apply Hnotin. rewrite <- E. now apply in_map.
  - now apply IH.
Qed.

Lemma remove_entry_absent (n : string) (l : list entry) :
  ~ In n (map e_name l) -> remove_entry n l = l.
Proof.
  induction l as [|x l IH]; simpl; intros H; [reflexivity|].
  destruct (String.eqb_spec (e_name x) n) as [E|_]; simpl.
  - exfalso. apply H. now left.
  - rewrite IH; [reflexivity | tauto].
Qed.

Lemma length_remove_entry (l : list entry) (x : entry) :
  NoDup (map e_name l) -> In x l ->
  List.length (remove_entry (e_name x) l) = List.length l - 1.
Proof.
  induction l as [|y l IH]; simpl; intros Hnd Hin; [contradiction|].
  inversion Hnd as [|? ? Hnotin Hnd']; subst.
  destruct Hin as [->|Hin].
  - rewrite String.eqb_refl. simpl.
    rewrite remove_entry_absent by exact Hnotin. lia.
  - destruct (String.eqb_spec (e_name y) (e_name x)) as [E|_]; simpl.
    + exfalso. apply Hnotin. rewrite E. now apply in_map.
    + rewrite (IH Hnd' Hin). destruct l; [contradiction | simpl; lia].
Qed.

Lemma In_remove_entry (l : list entry) (x e : entry) :
  NoDup (map e_name l) -> In x l ->
  In e (remove_entry (e_name x) l) <-> In e l /\ e <> x.
Proof.
  intros Hnd Hx. unfold remove_entry. rewrite filter_In, negb_true_iff.
  split; intros [He Hne]; split; try exact He.
  - intros ->. now rewrite String.eqb_refl in Hne.
  - destruct (String.eqb_spec (e_name e) (e_name x)) as [E|_]; [|reflexivity].
    exfalso. apply Hne. now apply (same_name_same_entry l).
Qed.

(** With two entries or fewer there is nothing to delete. *)
Lemma delete_old_backups_few (loc : string) (listing : list entry) :
  List.length (glob_star listing) <= 2 ->
  delete_old_backups loc listing = ([], listing, None).
Proof.
  intros H. unfold delete_old_backups.
  rewrite <- (Permutation_length (sort_by_ctime_perm (glob_star listing))).
  destruct (Nat.ltb_spec 2 (List.length (glob_star listing))); [lia | reflexivity].
Qed.

(** C1: five archives with distinct creation times.  One call of
    [delete_old_backups] deletes [b1], the oldest, and nothing else: four
    archives are left, [b2] and [b3] among them, where the two newest,
    [b4] and [b5], alone should remain. *)
Theorem delete_old_backups_five_archives :
  delete_old_backups "/b" five_archives
  = ([LogPlain "Deleted old backup: /b/b1"],
     [Entry "b3" 3 true; Entry "b5" 5 true; Entry "b2" 2 true; Entry "b4" 4 true],
     None)
  /\ List.length (snd (fst (delete_old_backups "/b" five_archives))) <> 2.
Proof. split; [reflexivity | simpl; lia]. Qed.

(** Three calls bring five archives down to the two newest. *)
Example prune_times_five_archives :
  prune_times 3 "/b" five_archives = [Entry "b5" 5 true; Entry "b4" 4 true].
Proof. reflexivity. Qed.

(** ** Loops *)

Section ForEach.
Context {A S : Type} (body : A -> S -> result S).

Lemma for_each_cons (x : A) (l : list A) (st st' : S) (o : list output)
  (r : option exn) :
  for_each body (x :: l) st = (o, st', r) ->
  (exists e, body x st = (o, st', Some e) /\ r = Some e)
  \/ (exists o1 st1 o2,
        body x st = (o1, st1, None)
        /\ for_each body l st1 = (o2, st', r) /\ o = o1 ++ o2).
Proof.
  simpl. destruct (body x st) as [[o1 st1] [e|]].
  - intros H. injection H as <- <- <-. left. now exists e.
  - destruct (for_each body l st1) as [[o2 st2] r2] eqn:E2.
    intros H. injection H as <- <- <-. right. exists o1, st1, o2.
    repeat split. exact E2.
Qed.

(** An invariant of the body is an invariant of the loop, and what holds
    of every line the body writes holds of every line the loop writes. *)
Lemma for_each_inv (I : S -> Prop) (O : output -> Prop) (l : list A) :
  (forall x st o st' r,
     In x l -> I st -> body x st = (o, st', r) -> I st' /\ Forall O o) ->
  forall st o st' r,
    I st -> for_each body l st = (o, st', r) -> I st' /\ Forall O o.
Proof.
  induction l as [|x l IH]; intros Hbody st o st' r HI E.
  - simpl in E. injection E as <- <- <-. split; [exact HI | constructor].
  - apply for_each_cons in E.
    destruct E as [(e & E & ->)|(o1 & st1 & o2 & E1 & E2 & ->)].
    + apply (Hbody x st o st' (Some e)); [now left | exact HI | exact E].
    + destruct (Hbody x st o1 st1 None (or_introl eq_refl) HI E1) as [HI1 HO1].
      destruct (IH (fun y s a b c Hy => Hbody y s a b c (or_intror Hy))
                   st1 o2 st' r HI1 E2) as [HI2 HO2].
      split; [exact HI2 | apply Forall_app; now split].
Qed.

(** The same for a loop that runs to its end. *)
Lemma for_each_ok (I : S -> Prop) (l : list A) :
  (forall y st o st', In y l -> I st -> body y st = (o, st', None) -> I st') ->
  forall st o st', I st -> for_each body l st = (o, st', None) -> I st'.
Proof.
  induction l as [|y l IH]; intros HI st o st' Ist E.
  - simpl in E. now injection E as <- <-.
  - apply for_each_cons in E.
    destruct E as [(e & _ & Habs)|(o1 & st1 & o2 & E1 & E2 & ->)];
      [discriminate|].
    apply (IH (fun z s a b Hz => HI z s a b (or_intror Hz)) st1 o2 st');
      [|exact E2].
    apply (HI y st o1 st1); [now left | assumption..].
Qed.

(** What one turn of a loop that runs to its end establishes, and every
    turn keeps, holds at the end. *)
Lemma for_each_establish (I J : S -> Prop) (l : list A) (x : A) :
  (forall y st o st', In y l -> I st -> body y st = (o, st', None) -> I st') ->
  (forall y st o st',
     In y l -> I st -> J st -> body y st = (o, st', None) -> J st') ->
  (forall st o st', I st -> body x st = (o, st', None) -> J st') ->
  In x l ->
  forall st o st', I st -> for_each body l st = (o, st', None) -> J st'.
Proof.
  intros HI HJ Hx. induction l as [|y l IH]; intros Hin st o st' Ist E;
    [contradiction|].
  apply for_each_cons in E.
  destruct E as [(e & _ & Habs)|(o1 & st1 & o2 & E1 & E2 & ->)];
    [discriminate|].
  assert (Ist1 : I st1) by (apply (HI y st o1 st1); [now left|assumption..]).
  destruct Hin as [->|Hin].
  - assert (H : I st' /\ J st'); [|tauto].
    apply (for_each_ok (fun s => I s /\ J s) l) with (st := st1) (o := o2);
      [|split; [exact Ist1 | now apply (Hx st o1 st1)] | exact E2].
    intros z s a b Hz [Is Js] Ez. split.
    + apply (HI z s a b); [now right | assumption..].
    + apply (HJ z s a b); [now right | assumption..].
  - apply (IH (fun z s a b Hz => HI z s a b (or_intror Hz))
              (fun z s a b Hz => HJ z s a b (or_intror Hz)) Hin st1 o2 st');
      assumption.
Qed.
End ForEach.

(** ** What the handlers log *)

Lemma process_changes_about
  (fingerprint : filesystem -> string -> exn + string) (a1 a2 a3 : string)
  (fs : filesystem) (filename event_id : string) (ledger : option string) :
  Forall (about_file filename)
    (fst (process_changes fingerprint a1 a2 a3 fs filename event_id ledger)).
Proof.
  unfold process_changes. destruct ledger as [text|].
  - destruct (load_eid text event_id) as [baseline_data eid].
    destruct (fingerprint fs filename) as [e|current]; simpl.
    + repeat constructor. discriminate.
    + unfold compare_log.
      destruct (dict_get filename baseline_data) as [r|];
        [destruct (negb (String.eqb current (hash r)))|];
        repeat constructor; discriminate.
  - repeat constructor. discriminate.
Qed.

Lemma process_word_about
  (fs : filesystem) (filename event_id : string) (ledger : option string) :
  path_exists fs filename = true ->
  Forall (about_file filename)
    (fst (process_word_changes fs filename event_id ledger)).
Proof.
  intros Hex. unfold process_word_changes.
  destruct (startswith filename "~$") eqn:Htmp; [constructor|].
  destruct ledger as [text|]; [|repeat constructor; discriminate].
  rewrite Hex. simpl.
  destruct (calculate_file_hash fs filename) as [e|current]; simpl;
    [repeat constructor; discriminate|].
  destruct (dict_get filename (load_text text)) as [r|];
    [destruct (negb (String.eqb current (hash r)))|];
    repeat constructor; discriminate.
Qed.

Lemma process_file_about
  (fs : filesystem) (filename event_id : string) (ledger : option string) :
  path_exists fs filename = true ->
  Forall (about_file filename) (fst (process_file fs filename event_id ledger)).
Proof.
  intros Hex. unfold process_file.
  destruct (check_file_type filename) as [file_type|];
    [|repeat constructor; discriminate].
  destruct (String.eqb file_type "excel"); [apply process_changes_about|].
  destruct (String.eqb file_type "image"); [apply process_changes_about|].
  destruct (String.eqb file_type "word"); [now apply process_word_about|].
  destruct (String.eqb file_type "pdf"); [apply process_changes_about|].
  destruct (String.eqb file_type "txt"); [apply process_changes_about|].
  repeat constructor; discriminate.
Qed.

(** ** One file of the discovery *)

Lemma calculate_file_hash_readable (fs : filesystem) (p : string)
  (data : list Byte.byte) :
  open_rb fs p = inr data ->
  calculate_file_hash fs p = inr (sha512_hexdigest data).
Proof. intros H. unfold calculate_file_hash. now rewrite H. Qed.

(** The discovery logs no deletion. *)
Lemma visit_file_no_102 (fs : filesystem) (uuid4 : nat -> string) (p : string)
  (st st' : mstate) (o : list output) (r : option exn) :
  visit_file fs uuid4 p st = (o, st', r) ->
  Forall (fun x => out_code x <> Some 102) o.
Proof.
  unfold visit_file. destruct (open_rb fs p) as [e|data] eqn:Hopen.
  - destruct e; intros H; injection H as <- <- <-;
      repeat constructor; discriminate.
  - rewrite (calculate_file_hash_readable _ _ _ Hopen).
    destruct (dict_get p (file_info_dict st)) as [rec|].
    + destruct (negb (String.eqb (sha512_hexdigest data) (m_hash rec))).
      * destruct (process_file fs p (uuid4 (uuid_drawn st)) (baseline_txt st))
          as [outs ledger'] eqn:E.
        intros H. injection H as <- <- <-.
        pose proof (process_file_about fs p (uuid4 (uuid_drawn st))
                      (baseline_txt st) (open_rb_exists _ _ _ Hopen)) as Hab.
        rewrite E in Hab. simpl in Hab.
        eapply Forall_impl; [|exact Hab]. intros x [_ Hx]. exact Hx.
      * destruct (negb (String.eqb p (m_path rec))).
        -- destruct (dict_get (m_path rec) (file_info_dict st));
             intros H; injection H as <- <- <-;
             repeat constructor; discriminate.
        -- intros H. injection H as <- <- <-. constructor.
    + intros H. injection H as <- <- <-. repeat constructor. discriminate.
Qed.

(** The cases of [visit_file] on a dictionary whose records hold their own
    keys: the file cannot be read, is new, has changed, or is as
    recorded. *)
Lemma visit_file_spec (fs : filesystem) (uuid4 : nat -> string) (p : string)
  (st st' : mstate) (o : list output) (r : option exn) :
  keyed (file_info_dict st) ->
  visit_file fs uuid4 p st = (o, st', r) ->
  (exists e, open_rb fs p = inl e /\ st' = st
             /\ Forall (fun x => out_about x = None) o)
  \/ (exists data,
        open_rb fs p = inr data /\ r = None
        /\ ((dict_get p (file_info_dict st) = None
             /\ o = [LogInfo 101 None p "New file detected."]
             /\ st' = MState (dict_set p (MInfo (sha512_hexdigest data)
                                            (uuid4 (uuid_drawn st)) p)
                                       (file_info_dict st))
                             (baseline_txt st) (S (uuid_drawn st)))
            \/ (exists rec,
                  dict_get p (file_info_dict st) = Some rec
                  /\ m_hash rec <> sha512_hexdigest data
                  /\ o = fst (process_file fs p (uuid4 (uuid_drawn st))
                                (baseline_txt st))
                  /\ st' = MState (dict_set p (MInfo (sha512_hexdigest data)
                                                 (uuid4 (uuid_drawn st)) p)
                                            (file_info_dict st))
                                  (snd (process_file fs p (uuid4 (uuid_drawn st))
                                          (baseline_txt st)))
                                  (S (uuid_drawn st)))
            \/ (exists rec,
                  dict_get p (file_info_dict st) = Some rec
                  /\ m_hash rec = sha512_hexdigest data
                  /\ o = [] /\ st' = st))).
Proof.
  intros Hk. unfold visit_file.
  destruct (open_rb fs p) as [e|data] eqn:Hopen.
  - intros H. left. exists e.
    destruct e; injection H as <- <- <-; repeat split; repeat constructor.
  - rewrite (calculate_file_hash_readable _ _ _ Hopen).
    intros H. right. exists data. split; [reflexivity|].
    destruct (dict_get p (file_info_dict st)) as [rec|] eqn:Hget.
    + assert (Hpath : m_path rec = p) by (apply Hk; now apply dict_get_In).
      destruct (String.eqb_spec (sha512_hexdigest data) (m_hash rec)) as [Eh|Nh];
        simpl in H.
      * rewrite Hpath, String.eqb_refl in H. simpl in H.
        injection H as <- <- <-. split; [reflexivity|].
        right. right. exists rec. auto.
      * destruct (process_file fs p (uuid4 (uuid_drawn st)) (baseline_txt st))
          as [outs ledger'].
        injection H as <- <- <-. split; [reflexivity|].
        right. left. exists rec. rewrite Hpath. simpl. auto.
    + injection H as <- <- <-. split; [reflexivity|]. left. auto.
Qed.

(** ** The deletion pass *)

Lemma dict_del_app {V : Type} (k : string) (v : V) (pre suf : dict V) :
  ~ In k (dict_keys pre) ->
  dict_del k (pre ++ (k, v) :: suf) = pre ++ suf.
Proof.
  induction pre as [|[k0 v0] pre IH]; simpl; intros H.
  - now rewrite String.eqb_refl.
  - destruct (String.eqb_spec k k0) as [->|_]; [tauto|].
    rewrite IH; [reflexivity | tauto].
Qed.

Lemma delete_steps (fs : filesystem) (suf pre : dict minfo) (outs : list output) :
  (forall k, In k (dict_keys pre) -> path_exists fs k = true) ->
  fold_left (delete_step fs) (dict_keys suf) (outs, pre ++ suf)
  = (outs ++ map deleted_msg
             (filter (fun k => negb (path_exists fs k)) (dict_keys suf)),
     pre ++ filter (fun kv => path_exists fs (fst kv)) suf).
Proof.
  revert pre outs. induction suf as [|[k v] suf IH]; intros pre outs Hpre.
  - simpl. now rewrite !app_nil_r.
  - cbn [dict_keys map fold_left fst filter]. unfold delete_step at 2.
    destruct (path_exists fs k) eqn:Hex; cbn [negb fst snd].
    + replace (pre ++ (k, v) :: suf) with ((pre ++ [(k, v)]) ++ suf)
        by now rewrite <- app_assoc.
      fold (dict_keys suf). rewrite IH.
      * now rewrite <- app_assoc.
      * intros k0. unfold dict_keys. rewrite map_app, in_app_iff. simpl.
        intros [H|[<-|[]]]; [now apply Hpre | exact Hex].
    + rewrite dict_del_app.
      * fold (dict_keys suf). rewrite IH by exact Hpre.
        now rewrite <- app_assoc.
      * intros Hin. apply Hpre in Hin. congruence.
Qed.

(** The deletion pass logs a deletion for the keys whose path is gone, in
    the order of the dictionary, and keeps the other records. *)
Lemma deletion_pass_spec (fs : filesystem) (st : mstate) :
  deletion_pass fs st
  = (map deleted_msg
       (filter (fun k => negb (path_exists fs k)) (dict_keys (file_info_dict st))),
     MState (filter (fun kv => path_exists fs (fst kv)) (file_info_dict st))
            (baseline_txt st) (uuid_drawn st),
     None).
Proof.
  unfold deletion_pass.
  pose proof (delete_steps fs (file_info_dict st) [] []) as H.
  set (X := fold_left _ _ _).
  assert (HX : X = (map deleted_msg
                      (filter (fun k => negb (path_exists fs k))
                              (dict_keys (file_info_dict st))),
                    filter (fun kv => path_exists fs (fst kv)) (file_info_dict st)))
    by (subst X; apply H; intros k []).
  now rewrite HX.
Qed.

(** C2, as the code has it: the deletion pass runs after the files of each
    directory the walk yields, not once after the whole discovery.  The
    lines logged for the directory's files come first and none of them is a
    deletion; then a deletion (code 102) is logged, and the record removed,
    for exactly the paths of the dictionary that no longer exist on disk,
    visited or not. *)
Theorem walk_step_deletion (fs : filesystem) (uuid4 : nat -> string)
  (root : string) (files : list string) (st st' : mstate) (outs : list output) :
  walk_step fs uuid4 (root, files) st = (outs, st', None) ->
  exists o1 st1,
    for_each (fun f => visit_file fs uuid4 (path_join root f)) files st
    = (o1, st1, None)
    /\ Forall (fun x => out_code x <> Some 102) o1
    /\ outs = o1 ++ map deleted_msg
                      (filter (fun k => negb (path_exists fs k))
                              (dict_keys (file_info_dict st1)))
    /\ file_info_dict st'
       = filter (fun kv => path_exists fs (fst kv)) (file_info_dict st1)
    /\ baseline_txt st' = baseline_txt st1.
Proof.
  unfold walk_step.
  destruct (for_each (fun f => visit_file fs uuid4 (path_join root f)) files st)
    as [[o1 st1] [e|]] eqn:E; [discriminate|].
  rewrite deletion_pass_spec. intros H. injection H as <- <-.
  exists o1, st1. split; [reflexivity|]. split; [|auto].
  apply (for_each_inv (fun f => visit_file fs uuid4 (path_join root f))
           (fun _ => True) (fun x => out_code x <> Some 102) files)
    with (st := st) (st' := st1) (r := None); [|exact I|exact E].
  intros f s o s' r _ _ Hv. split; [exact I|].
  now apply visit_file_no_102 in Hv.
Qed.

(** ** Invariants of the monitoring loop *)

Lemma keyed_set (d : dict minfo) (k h e : string) :
  keyed d -> keyed (dict_set k (MInfo h e k) d).
Proof.
  intros Hk k' r Hin. apply In_dict_set in Hin.
  destruct Hin as [[-> ->]|Hin]; [reflexivity | now apply Hk].
Qed.

Lemma keyed_filter (f : string * minfo -> bool) (d : dict minfo) :
  keyed d -> keyed (filter f d).
Proof. intros Hk k r Hin. apply filter_In in Hin. now apply Hk. Qed.

Lemma monitor_load_keyed (ledger : option string) :
  keyed (snd (monitor_load ledger)).
Proof.
  destruct ledger as [text|]; simpl; [|intros k r []].
  assert (H : forall ls d, keyed d -> keyed (fold_left mload_step ls d)).
  { induction ls as [|l ls IH]; intros d Hd; [exact Hd|].
    simpl. apply IH. unfold mload_step.
    destruct (parse_line l) as [[path r]|]; [now apply keyed_set | exact Hd]. }
  apply H. intros k r [].
Qed.

Lemma visit_file_keyed (fs : filesystem) (uuid4 : nat -> string) (q : string)
  (st st' : mstate) (o : list output) (r : option exn) :
  keyed (file_info_dict st) -> visit_file fs uuid4 q st = (o, st', r) ->
  keyed (file_info_dict st').
Proof.
  intros Hk Hv. apply visit_file_spec in Hv; [|exact Hk].
  destruct Hv as [(e & _ & -> & _)
                 |(data & _ & _ & [(_ & _ & ->)
                                  |[(rec & _ & _ & _ & ->)|(rec & _ & _ & _ & ->)]])];
    try exact Hk; simpl; now apply keyed_set.
Qed.

Lemma walk_step_keyed (fs : filesystem) (uuid4 : nat -> string)
  (item : string * list string) (st st' : mstate) (o : list output)
  (r : option exn) :
  keyed (file_info_dict st) -> walk_step fs uuid4 item st = (o, st', r) ->
  keyed (file_info_dict st').
Proof.
  intros Hk. unfold walk_step. destruct item as [root files].
  destruct (for_each (fun f => visit_file fs uuid4 (path_join root f)) files st)
    as [[o1 st1] r1] eqn:E.
  assert (Hk1 : keyed (file_info_dict st1)).
  { apply (for_each_inv (fun f => visit_file fs uuid4 (path_join root f))
             (fun s => keyed (file_info_dict s)) (fun _ => True) files)
      with (st := st) (o := o1) (r := r1); [|exact Hk|exact E].
    intros f s a s' b _ Hs Hv. split; [now apply (visit_file_keyed _ _ _ _ _ _ _ Hs Hv)|].
    apply Forall_forall. auto. }
  destruct r1 as [e|].
  - intros H. now injection H as <- <- <-.
  - rewrite deletion_pass_spec. intros H. injection H as <- <- <-.
    simpl. now apply keyed_filter.
Qed.

Lemma walk_keyed (fs : filesystem) (uuid4 : nat -> string)
  (items : list (string * list string)) (st st' : mstate) (o : list output)
  (r : option exn) :
  keyed (file_info_dict st) ->
  for_each (walk_step fs uuid4) items st = (o, st', r) ->
  keyed (file_info_dict st').
Proof.
  intros Hk E.
  apply (for_each_inv (walk_step fs uuid4)
           (fun s => keyed (file_info_dict s)) (fun _ => True) items)
    with (st := st) (o := o) (r := r); [|exact Hk|exact E].
  intros x s a s' b _ Hs Hw. split; [now apply (walk_step_keyed _ _ _ _ _ _ _ Hs Hw)|].
  apply Forall_forall. auto.
Qed.

Lemma cycle_keyed (fs : filesystem) (uuid4 : nat -> string)
  (targets : list string) (st st' : mstate) (o : list output) (r : option exn) :
  keyed (file_info_dict st) -> cycle fs uuid4 targets st = (o, st', r) ->
  keyed (file_info_dict st').
Proof.
  intros Hk E. unfold cycle in E.
  apply (for_each_inv _ (fun s => keyed (file_info_dict s)) (fun _ => True) targets)
    with (st := st) (o := o) (r := r) in E; [tauto | | exact Hk].
  intros x s a s' b _ Hs Hw. split; [now apply (walk_keyed _ _ _ _ _ _ _ Hs Hw)|].
  apply Forall_forall. auto.
Qed.

(** ** A file that stays as it is *)

Section Unchanged.
Variable fs : filesystem.
Variable uuid4 : nat -> string.
Variable p : string.
Variable data : list Byte.byte.
Hypothesis Hopen : open_rb fs p = inr data.

Let inv (st : mstate) : Prop :=
  keyed (file_info_dict st) /\ recorded p (sha512_hexdigest data) st.

Lemma visit_file_quiet (q : string) (st st' : mstate) (o : list output)
  (r : option exn) :
  inv st -> visit_file fs uuid4 q st = (o, st', r) ->
  inv st' /\ Forall (silent_on p) o.
Proof.
  intros [Hk (rec & Hget & Hrec)] Hv.
  split; [split; [now apply (visit_file_keyed _ _ _ _ _ _ _ Hk Hv)|]|];
    apply visit_file_spec in Hv; try exact Hk;
    destruct Hv as [(e & _ & -> & Hout)
                   |(d' & Hq & _ & [(Hnone & -> & ->)
                                   |[(rec' & Hget' & Hne & -> & ->)
                                    |(rec' & _ & _ & -> & ->)]])].
  - now exists rec.
  - exists rec. simpl. rewrite dict_get_set_ne; [auto | congruence].
  - destruct (String.eqb_spec p q) as [<-|Hpq].
    + exfalso. apply Hne. congruence.
    + exists rec. simpl. now rewrite dict_get_set_ne.
  - now exists rec.
  - eapply Forall_impl; [|exact Hout]. intros x Hx. unfold silent_on. congruence.
  - repeat constructor. unfold silent_on. simpl. congruence.
  - destruct (String.eqb_spec p q) as [<-|Hpq].
    + exfalso. apply Hne. congruence.
    + eapply Forall_impl;
        [|apply process_file_about, (open_rb_exists _ _ _ Hq)].
      intros x [Hx _]. unfold silent_on. congruence.
  - constructor.
Qed.

Lemma deletion_pass_quiet (st st' : mstate) (o : list output) (r : option exn) :
  inv st -> deletion_pass fs st = (o, st', r) ->
  inv st' /\ Forall (silent_on p) o.
Proof.
  intros [Hk (rec & Hget & Hrec)]. rewrite deletion_pass_spec.
  intros H. injection H as <- <- <-.
  pose proof (open_rb_exists _ _ _ Hopen) as Hex. split; [split|].
  - simpl. now apply keyed_filter.
  - exists rec. simpl. now rewrite dict_get_filter, Hex.
  - apply Forall_forall. intros x Hx. apply in_map_iff in Hx.
    destruct Hx as (k & <- & Hk'). apply filter_In in Hk'.
    unfold silent_on. simpl. intros E. injection E as ->.
    rewrite Hex in Hk'. destruct Hk' as [_ Habs]. discriminate Habs.
Qed.

Lemma walk_step_quiet (item : string * list string) (st st' : mstate)
  (o : list output) (r : option exn) :
  inv st -> walk_step fs uuid4 item st = (o, st', r) ->
  inv st' /\ Forall (silent_on p) o.
Proof.
  intros Hi. unfold walk_step. destruct item as [root files].
  destruct (for_each (fun f => visit_file fs uuid4 (path_join root f)) files st)
    as [[o1 st1] r1] eqn:E.
  apply (for_each_inv _ inv (silent_on p) files) in E;
    [|intros f s a s' b _; apply visit_file_quiet|exact Hi].
  destruct E as [Hi1 Ho1]. destruct r1 as [e|].
  - intros H. now injection H as <- <- <-.
  - destruct (deletion_pass fs st1) as [[o2 st2] r2] eqn:E2.
    intros H. injection H as <- <- <-.
    destruct (deletion_pass_quiet _ _ _ _ Hi1 E2) as [Hi2 Ho2].
    split; [exact Hi2 | apply Forall_app; now split].
Qed.

Lemma walk_quiet (items : list (string * list string)) (st st' : mstate)
  (o : list output) (r : option exn) :
  inv st -> for_each (walk_step fs uuid4) items st = (o, st', r) ->
  inv st' /\ Forall (silent_on p) o.
Proof.
  intros Hi E.
  apply (for_each_inv _ inv (silent_on p) items) in E;
    [exact E | intros x s a s' b _; apply walk_step_quiet | exact Hi].
Qed.

(** A cycle that starts with the file's fingerprint on record keeps the
    record and logs nothing about the file. *)
Lemma cycle_quiet (targets : list string) (st st' : mstate)
  (o : list output) (r : option exn) :
  inv st -> cycle fs uuid4 targets st = (o, st', r) ->
  inv st' /\ Forall (silent_on p) o.
Proof.
  intros Hi E. unfold cycle in E.
  apply (for_each_inv _ inv (silent_on p) targets) in E;
    [exact E | intros x s a s' b _; apply walk_quiet | exact Hi].
Qed.

Lemma visit_file_records (st st' : mstate) (o : list output) :
  keyed (file_info_dict st) -> visit_file fs uuid4 p st = (o, st', None) ->
  recorded p (sha512_hexdigest data) st'.
Proof.
  intros Hk Hv. apply visit_file_spec in Hv; [|exact Hk].
  destruct Hv as [(e & He & _)
                 |(d' & Hq & _ & [(_ & _ & ->)
                                 |[(rec' & _ & _ & _ & ->)
                                  |(rec' & Hget' & Hh & _ & ->)]])];
    [congruence|..];
    assert (d' = data) by congruence; subst d'.
  - eexists. simpl. rewrite dict_get_set_eq. split; reflexivity.
  - eexists. simpl. rewrite dict_get_set_eq. split; reflexivity.
  - now exists rec'.
Qed.

Lemma walk_step_records (root : string) (files : list string) (f : string)
  (st st' : mstate) (o : list output) :
  In f files -> path_join root f = p ->
  keyed (file_info_dict st) ->
  walk_step fs uuid4 (root, files) st = (o, st', None) ->
  recorded p (sha512_hexdigest data) st'.
Proof.
  intros Hf Hp Hk. unfold walk_step.
  destruct (for_each (fun f => visit_file fs uuid4 (path_join root f)) files st)
    as [[o1 st1] [e|]] eqn:E; [discriminate|].
  destruct (deletion_pass fs st1) as [[o2 st2] r2] eqn:E2.
  intros H. injection H as <- <- ->.
  assert (Hi1 : inv st1).
  { split.
    - refine (proj1 (for_each_inv
                       (fun f0 => visit_file fs uuid4 (path_join root f0))
                       (fun s => keyed (file_info_dict s)) (fun _ => True)
                       files _ st o1 st1 None Hk E)).
      intros x s a s' b _ Hs Hv.
      split; [now apply (visit_file_keyed _ _ _ _ _ _ _ Hs Hv)|].
      apply Forall_forall. auto.
    - apply (for_each_establish
               (fun f0 => visit_file fs uuid4 (path_join root f0))
               (fun s => keyed (file_info_dict s))
               (recorded p (sha512_hexdigest data)) files f)
        with (st := st) (o := o1); try assumption.
      + intros y s a s' _ Hs Hv. now apply (visit_file_keyed _ _ _ _ _ _ _ Hs Hv).
      + intros y s a s' _ Hs Hr Hv.
        now apply (visit_file_quiet _ _ _ _ _ (conj Hs Hr) Hv).
      + intros s a s' Hs Hv. rewrite Hp in Hv.
        now apply (visit_file_records _ _ _ Hs Hv). }
  now apply (deletion_pass_quiet _ _ _ _ Hi1 E2).
Qed.

Lemma walk_records (items : list (string * list string)) (root f : string)
  (files : list string) (st st' : mstate) (o : list output) :
  In (root, files) items -> In f files -> path_join root f = p ->
  keyed (file_info_dict st) ->
  for_each (walk_step fs uuid4) items st = (o, st', None) ->
  recorded p (sha512_hexdigest data) st'.
Proof.
  intros Hitem Hf Hp Hk E.
  apply (for_each_establish (walk_step fs uuid4)
           (fun s => keyed (file_info_dict s))
           (recorded p (sha512_hexdigest data)) items (root, files))
    with (st := st) (o := o); try assumption.
  - intros y s a s' _ Hs Hw. now apply (walk_step_keyed _ _ _ _ _ _ _ Hs Hw).
  - intros y s a s' _ Hs Hr Hw.
    now apply (walk_step_quiet _ _ _ _ _ (conj Hs Hr) Hw).
  - intros s a s' Hs Hw. now apply (walk_step_records _ _ _ _ _ _ Hf Hp Hs Hw).
Qed.

(** A cycle that runs to its end and visits the file has its fingerprint
    on record afterwards. *)
Lemma cycle_records (targets : list string) (st st' : mstate) (o : list output) :
  In p (visited_paths fs targets) ->
  keyed (file_info_dict st) ->
  cycle fs uuid4 targets st = (o, st', None) ->
  recorded p (sha512_hexdigest data) st'.
Proof.
  intros Hin Hk E. unfold visited_paths in Hin.
  apply in_flat_map in Hin. destruct Hin as (target & Htarget & Hin).
  apply in_flat_map in Hin. destruct Hin as ([root files] & Hitem & Hin).
  apply in_map_iff in Hin. destruct Hin as (f & Hp & Hf). simpl in Hp, Hf.
  unfold cycle in E.
  apply (for_each_establish
           (fun target_folder =>
              for_each (walk_step fs uuid4)
                       (os_walk excluded_dirs fs target_folder))
           (fun s => keyed (file_info_dict s))
           (recorded p (sha512_hexdigest data)) targets target)
    with (st := st) (o := o); try assumption.
  - intros y s a s' _ Hs Hw. now apply (walk_keyed _ _ _ _ _ _ _ Hs Hw).
  - intros y s a s' _ Hs Hr Hw.
    now apply (walk_quiet _ _ _ _ _ (conj Hs Hr) Hw).
  - intros s a s' Hs Hw.
    now apply (walk_records _ _ _ _ _ _ _ Hitem Hf Hp Hs Hw).
Qed.
End Unchanged.

(** C3: a file that the discovery of one cycle reads, and that the next
    cycle finds with the same content, has no line logged about it in that
    next cycle, and the fingerprint on record for it is the same before and
    after: the SHA-512 digest of its content. *)
Theorem unchanged_file_no_event
  (fs1 fs2 : filesystem) (uuid1 uuid2 : nat -> string)
  (targets1 targets2 : list string) (st0 st1 st2 : mstate)
  (o1 o2 : list output) (r2 : option exn) (p : string) (data : list Byte.byte) :
  keyed (file_info_dict st0) ->
  In p (visited_paths fs1 targets1) ->
  open_rb fs1 p = inr data ->
  cycle fs1 uuid1 targets1 st0 = (o1, st1, None) ->
  open_rb fs2 p = inr data ->
  cycle fs2 uuid2 targets2 st1 = (o2, st2, r2) ->
  Forall (silent_on p) o2
  /\ recorded p (sha512_hexdigest data) st1
  /\ recorded p (sha512_hexdigest data) st2.
Proof.
  intros Hk Hin Hopen1 E1 Hopen2 E2.
  assert (Hk1 : keyed (file_info_dict st1)) by now apply (cycle_keyed _ _ _ _ _ _ _ Hk E1).
  assert (Hr1 : recorded p (sha512_hexdigest data) st1)
    by now apply (cycle_records fs1 uuid1 p data Hopen1 targets1 st0 st1 o1).
  destruct (cycle_quiet fs2 uuid2 p data Hopen2 targets2 st1 st2 o2 r2
              (conj Hk1 Hr1) E2) as [[_ Hr2] Ho2].
  auto.
Qed.

Lemma unchanged_file_no_event_witness :
  let st0 := MState [] (Some EmptyString) 0 in
  let run1 := cycle fs_two_files uuid_sample ["/t"] st0 in
  let run2 := cycle fs_two_files uuid_sample ["/t"] (snd (fst run1)) in
  Forall (silent_on "/t/a.txt") (fst (fst run2))
  /\ recorded "/t/a.txt" (sha512_hexdigest (bytes_of "hello")) (snd (fst run1))
  /\ recorded "/t/a.txt" (sha512_hexdigest (bytes_of "hello")) (snd (fst run2)).
Proof.
  intros st0 run1 run2.
  apply (unchanged_file_no_event fs_two_files fs_two_files uuid_sample uuid_sample
           ["/t"] ["/t"] st0 (snd (fst run1)) (snd (fst run2))
           (fst (fst run1)) (fst (fst run2)) (snd run2)
           "/t/a.txt" (bytes_of "hello")).
  - intros k r [].
  - vm_compute. tauto.
  - reflexivity.
  - vm_compute. reflexivity.
  - reflexivity.
  - vm_compute. reflexivity.
Defined.

(** ** The ledger during a cycle *)

(** An invariant of the visits and of the deletion pass is an invariant of
    the cycle. *)
Lemma cycle_inv (fs : filesystem) (uuid4 : nat -> string)
  (targets : list string) (I : mstate -> Prop) (O : output -> Prop) :
  (forall q st o st' r,
     In q (visited_paths fs targets) -> I st ->
     visit_file fs uuid4 q st = (o, st', r) -> I st' /\ Forall O o) ->
  (forall st o st' r,
     I st -> deletion_pass fs st = (o, st', r) -> I st' /\ Forall O o) ->
  forall st o st' r,
    I st -> cycle fs uuid4 targets st = (o, st', r) -> I st' /\ Forall O o.
Proof.
  intros Hvisit Hdel st o st' r Hst E. unfold cycle in E.
  refine (for_each_inv
            (fun target_folder =>
               for_each (walk_step fs uuid4)
                        (os_walk excluded_dirs fs target_folder))
            I O targets _ st o st' r Hst E).
  intros target s a s' b Htarget Hs Ew.
  refine (for_each_inv (walk_step fs uuid4) I O
            (os_walk excluded_dirs fs target) _ s a s' b Hs Ew).
  intros [root files] s0 a0 s0' b0 Hitem Hs0. unfold walk_step.
  destruct (for_each (fun f => visit_file fs uuid4 (path_join root f)) files s0)
    as [[o1 s1] r1] eqn:E1.
  assert (H1 : I s1 /\ Forall O o1).
  { refine (for_each_inv (fun f => visit_file fs uuid4 (path_join root f))
              I O files _ s0 o1 s1 r1 Hs0 E1).
    intros f s2 a2 s2' b2 Hf. apply Hvisit.
    unfold visited_paths. apply in_flat_map.
    exists target. split; [exact Htarget|]. apply in_flat_map.
    exists (root, files). split; [exact Hitem|]. now apply in_map. }
  destruct H1 as [Hs1 Ho1]. destruct r1 as [e|].
  - intros H. now injection H as <- <- <-.
  - destruct (deletion_pass fs s1) as [[o2 s2] r2] eqn:E2.
    intros H. injection H as <- <- <-.
    destruct (Hdel s1 o2 s2 r2 Hs1 E2) as [Hs2 Ho2].
    split; [exact Hs2 | apply Forall_app; now split].
Qed.

Section Trace.
Variable fs_at : nat -> filesystem.
Variable uuid4 : nat -> string.
Variable targets : list string.
Variable i : nat.
Variable st0 : mstate.






End Trace.






(** C2 as stated fails: the deletion of [/t/gone.txt] is logged before the
    new file [/t/sub/n.txt] of the same cycle, and [/t/image files/x.png],
    on record and not visited, is not deleted. *)
Lemma cycle_deletes_between_directories :
  let run := cycle fs_walk uuid_sample ["/t"] st_walk in
  fst (fst run)
  = [LogInfo 101 None "/t/a.txt" "New file detected.";
     Print (String LF "/t/l.txt is in use, skipping...");
     deleted_msg "/t/gone.txt";
     LogInfo 101 None "/t/sub/n.txt" "New file detected."]
  /\ visited_paths fs_walk ["/t"] = ["/t/a.txt"; "/t/l.txt"; "/t/sub/n.txt"]
  /\ dict_keys (file_info_dict st_walk)
     = ["/t/gone.txt"; "/t/image files/x.png"]
  /\ dict_keys (file_info_dict (snd (fst run)))
     = ["/t/image files/x.png"; "/t/a.txt"; "/t/sub/n.txt"].
Proof. vm_compute. repeat split. Qed.

Lemma walk_step_deletion_witness :
  let run := walk_step fs_walk uuid_sample ("/t", ["a.txt"; "l.txt"]) st_walk in
  exists o1 st1,
    for_each (fun f => visit_file fs_walk uuid_sample (path_join "/t" f))
             ["a.txt"; "l.txt"] st_walk
    = (o1, st1, None)
    /\ Forall (fun x => out_code x <> Some 102) o1
    /\ fst (fst run)
       = o1 ++ map deleted_msg
                 (filter (fun k => negb (path_exists fs_walk k))
                         (dict_keys (file_info_dict st1)))
    /\ file_info_dict (snd (fst run))
       = filter (fun kv => path_exists fs_walk (fst kv)) (file_info_dict st1)
    /\ baseline_txt (snd (fst run)) = baseline_txt st1.
Proof.
  intros run.
  apply (walk_step_deletion fs_walk uuid_sample "/t" ["a.txt"; "l.txt"] st_walk
           (snd (fst run)) (fst (fst run))).
  vm_compute. reflexivity.
Defined.

(** A file that cannot be opened, for another reason than a lock, ends the
    visit with the exception, and with it the cycle and the loop. *)
Lemma visit_file_raises (fs : filesystem) (uuid4 : nat -> string) (p : string)
  (st : mstate) (e : exn) :
  open_rb fs p = inl e -> e <> PermissionError ->
  visit_file fs uuid4 p st = ([], st, Some e).
Proof.
  intros Hopen Hne. unfold visit_file. rewrite Hopen.
  destruct e; [contradiction | reflexivity..].
Qed.

Lemma monitor_loop_raises (fs_at : nat -> filesystem) (uuid4 : nat -> string)
  (targets : list string) (i n : nat) (st st' : mstate) (o : list output)
  (e : exn) :
  cycle (fs_at i) uuid4 targets st = (o, st', Some e) ->
  monitor_loop fs_at uuid4 targets i (S n) st = (o, st', Some e).
Proof. intros H. simpl. now rewrite H. Qed.

(** C9: the loop over a directory that lists a file that is gone.  The
    first file is recorded, opening the second raises [FileNotFoundError],
    which nothing in [monitor_files] catches: the exception leaves the
    loop in its first turn, the third file is never looked at and no later
    turn runs. *)
Theorem monitor_files_stops_on_missing_file :
  let run := monitor_files (fun _ => fs_dangling) uuid_sample ["/t"]
               (Some EmptyString) 3 in
  visited_paths fs_dangling ["/t"] = ["/t/a.txt"; "/t/gone.txt"; "/t/z.txt"]
  /\ snd run = Some FileNotFoundError
  /\ fst (fst run) = [LogInfo 101 None "/t/a.txt" "New file detected."]
  /\ dict_keys (file_info_dict (snd (fst run))) = ["/t/a.txt"].
Proof. vm_compute. repeat split. Qed.

(** * Further properties of the code *)

(** ** When a handler writes *)

Lemma open_rb_missing (fs : filesystem) (p : string) :
  path_exists fs p = false -> exists e, open_rb fs p = inl e.
Proof.
  unfold open_rb, path_exists.
  destruct (dict_get p (fs_files fs)) as [[| |]|]; try discriminate; eauto.
  intros ->. eauto.
Qed.

Lemma process_changes_keeps_ledger
  (fingerprint : filesystem -> string -> exn + string) (a1 a2 a3 : string)
  (fs : filesystem) (filename new_id : string) (ledger : option string) :
  ledger = None \/ (exists e, fingerprint fs filename = inl e) ->
  snd (process_changes fingerprint a1 a2 a3 fs filename new_id ledger) = ledger.
Proof.
  intros H. unfold process_changes. destruct ledger as [text|]; [|reflexivity].
  destruct H as [H|[e H]]; [discriminate|].
  destruct (load_eid text new_id) as [baseline_data eid]. now rewrite H.
Qed.

(** X1: a handler leaves [baseline.txt] exactly as it found it whenever the
    ledger is missing or the file cannot be read (it is locked, gone, or a
    directory): it never creates the ledger, and a Word document that is
    gone is logged as deleted without its record being taken out of the
    ledger. *)
Theorem handler_keeps_ledger_on_error
  (handler : filesystem -> string -> string -> option string
             -> list output * option string)
  (fs : filesystem) (filename new_id : string) (ledger : option string) :
  In handler all_handlers ->
  ledger = None \/ (exists e, open_rb fs filename = inl e) ->
  snd (handler fs filename new_id ledger) = ledger.
Proof.
  intros Hin Herr.
  assert (H512 : ledger = None
                 \/ exists e, calculate_file_hash fs filename = inl e).
  { destruct Herr as [H|[e H]]; [now left | right].
    exists e. unfold calculate_file_hash. now rewrite H. }
  assert (H256 : ledger = None
                 \/ exists e, calculate_file_checksum fs filename = inl e).
  { destruct Herr as [H|[e H]]; [now left | right].
    exists e. unfold calculate_file_checksum. now rewrite H. }
  simpl in Hin.
  destruct Hin as [<-|[<-|[<-|[<-|[<-|[<-|[]]]]]]];
    try (now apply process_changes_keeps_ledger).
  unfold process_word_changes.
  destruct (startswith filename "~$"); [reflexivity|].
  destruct ledger as [text|]; [|reflexivity].
  destruct (path_exists fs filename).
  - simpl. destruct H512 as [H|[e H]]; [discriminate | now rewrite H].
  - simpl. now destruct (dict_mem filename (load_text text)).
Qed.

Lemma handler_keeps_ledger_on_error_witness :
  snd (process_word_changes fs_dangling "/t/gone.txt" "e1"
         (Some ("/t/gone.txt|00|e0" ++ nl)%string))
  = Some ("/t/gone.txt|00|e0" ++ nl)%string.
Proof.
  apply (handler_keeps_ledger_on_error process_word_changes).
  - simpl. tauto.
  - right. exists FileNotFoundError. reflexivity.
Defined.

(** ** Text files *)

Lemma check_file_type_txt (filename : string) :
  endswith filename ".txt" = true -> check_file_type filename = None.
Proof.
  intros H. apply endswith_last_char in H; [|discriminate].
  apply check_file_type_none. unfold known_suffixes. cbn [forallb].
  repeat match goal with
  | |- context [endswith filename ?suf] =>
      let E := fresh "E" in
      destruct (endswith filename suf) eqn:E;
      [apply endswith_last_char in E; [|discriminate];
       rewrite H in E; discriminate E|]
  end.
  reflexivity.
Qed.

(** X2: [process_file] never hands a file to [process_text_changes]: for
    a path ending in [.txt] the classifier gives no category, so the file
    is only logged as changed (code 103) and the ledger is left alone. *)
Theorem process_file_text_file
  (fs : filesystem) (filename new_id : string) (ledger : option string) :
  endswith filename ".txt" = true ->
  process_file fs filename new_id ledger
  = ([LogInfo 103 None filename "File has been changed."], ledger).
Proof.
  intros H. unfold process_file. now rewrite (check_file_type_txt _ H).
Qed.

Lemma process_file_text_file_witness :
  process_file fs_two_files "/t/a.txt" "e1" (Some EmptyString)
  = ([LogInfo 103 None "/t/a.txt" "File has been changed."], Some EmptyString).
Proof. apply process_file_text_file. reflexivity. Defined.

(** ** More on pruning *)

Lemma entry_eq_dec (a b : entry) : {a = b} + {a <> b}.
Proof.
  decide equality; [apply Bool.bool_dec | apply Z.eq_dec | apply string_dec].
Defined.

Lemma glob_star_visible (listing : list entry) (e : entry) :
  In e (glob_star listing)
  <-> In e listing /\ startswith (e_name e) "." = false.
Proof.
  unfold glob_star. rewrite filter_In, negb_true_iff. reflexivity.
Qed.

(** One call on more than two archives, all of them directories: the
    oldest goes. *)
Lemma delete_old_backups_one (loc : string) (listing : list entry) :
  NoDup (map e_name listing) ->
  (forall e, In e listing -> e_is_dir e = true) ->
  2 < List.length (glob_star listing) ->
  exists oldest,
    In oldest (glob_star listing)
    /\ (forall e, In e (glob_star listing) -> (e_ctime oldest <= e_ctime e)%Z)
    /\ delete_old_backups loc listing
       = ([LogPlain ("Deleted old backup: " ++ path_join loc (e_name oldest))],
          remove_entry (e_name oldest) listing, None)
    /\ (forall e, In e (remove_entry (e_name oldest) listing)
                  <-> In e listing /\ e <> oldest)
    /\ List.length (remove_entry (e_name oldest) listing)
       = List.length listing - 1.
Proof.
  intros Hnd Hdirs Hlen. unfold delete_old_backups.
  pose proof (Permutation_length (sort_by_ctime_perm (glob_star listing))) as Hl.
  destruct (sort_by_ctime (glob_star listing)) as [|oldest rest] eqn:E;
    [simpl in Hl; lia|].
  destruct (sort_by_ctime_head _ _ _ E) as [Hin Hmin].
  assert (Hin' : In oldest listing) by (apply glob_star_visible in Hin; tauto).
  exists oldest. rewrite <- Hl.
  destruct (Nat.ltb_spec 2 (List.length (glob_star listing))); [|lia].
  rewrite (Hdirs _ Hin').
  split; [exact Hin|]. split; [exact Hmin|]. split; [reflexivity|].
  split; [intros e; now apply In_remove_entry | now apply length_remove_entry].
Qed.

(** X3: [delete_old_backups] never deletes an entry whose name starts with
    a dot, nor an entry that is not a directory, however old it is. *)
Theorem delete_old_backups_spares
  (loc : string) (listing : list entry) (e : entry) :
  NoDup (map e_name listing) ->
  In e listing ->
  startswith (e_name e) "." = true \/ e_is_dir e = false ->
  In e (snd (fst (delete_old_backups loc listing))).
Proof.
  intros Hnd Hin Hkind. unfold delete_old_backups.
  destruct (2 <? List.length (sort_by_ctime (glob_star listing)))%nat;
    [|exact Hin].
  destruct (sort_by_ctime (glob_star listing)) as [|oldest rest] eqn:E;
    [exact Hin|].
  destruct (e_is_dir oldest) eqn:Hdir; [|exact Hin].
  destruct (sort_by_ctime_head _ _ _ E) as [Hold _].
  apply glob_star_visible in Hold. destruct Hold as [Hold Hvis].
  simpl. apply In_remove_entry; [assumption..|].
  split; [exact Hin|]. intros ->. destruct Hkind; congruence.
Qed.

Lemma delete_old_backups_spares_witness :
  In (Entry "notes.txt" 0 false)
     (snd (fst (delete_old_backups "/b"
                  [Entry "notes.txt" 0 false; Entry "b1" 1 true;
                   Entry "b2" 2 true; Entry "b3" 3 true]))).
Proof.
  apply delete_old_backups_spares.
  - repeat constructor; simpl; intuition discriminate.
  - simpl. tauto.
  - right. reflexivity.
Defined.

(** X4: when the oldest of more than two entries is not a directory,
    [shutil.rmtree] raises [NotADirectoryError] and nothing is deleted; the
    same entry is the oldest at every later call, so no call ever deletes
    anything again. *)
Theorem delete_old_backups_stuck
  (loc : string) (listing : list entry) (oldest : entry) :
  2 < List.length (glob_star listing) ->
  In oldest (glob_star listing) ->
  (forall e, In e (glob_star listing) -> e <> oldest ->
             (e_ctime oldest < e_ctime e)%Z) ->
  e_is_dir oldest = false ->
  delete_old_backups loc listing = ([], listing, Some NotADirectoryError)
  /\ forall n, prune_times n loc listing = listing.
Proof.
  intros Hlen Hin Hmin Hdir.
  assert (H1 : delete_old_backups loc listing
               = ([], listing, Some NotADirectoryError)).
  { unfold delete_old_backups.
    pose proof (Permutation_length (sort_by_ctime_perm (glob_star listing))) as Hl.
    destruct (sort_by_ctime (glob_star listing)) as [|x rest] eqn:E;
      [simpl in Hl; lia|].
    rewrite <- Hl. destruct (Nat.ltb_spec 2 (List.length (glob_star listing)));
      [|lia].
    destruct (sort_by_ctime_head _ _ _ E) as [Hx Hxmin].
    assert (x = oldest).
    { destruct (entry_eq_dec x oldest) as [E'|Hne]; [exact E'|].
      exfalso. specialize (Hmin _ Hx Hne). specialize (Hxmin _ Hin). lia. }
    subst x. now rewrite Hdir. }
  split; [exact H1|].
  induction n as [|n IH]; [reflexivity|]. simpl. rewrite H1. exact IH.
Qed.

Lemma delete_old_backups_stuck_witness :
  delete_old_backups "/b"
    [Entry "b2" 2 true; Entry "old.zip" 1 false; Entry "b3" 3 true]
  = ([], [Entry "b2" 2 true; Entry "old.zip" 1 false; Entry "b3" 3 true],
     Some NotADirectoryError)
  /\ forall n,
       prune_times n "/b"
         [Entry "b2" 2 true; Entry "old.zip" 1 false; Entry "b3" 3 true]
       = [Entry "b2" 2 true; Entry "old.zip" 1 false; Entry "b3" 3 true].
Proof.
  apply (delete_old_backups_stuck "/b" _ (Entry "old.zip" 1 false)).
  - simpl. lia.
  - simpl. tauto.
  - simpl. intros e [<-|[<-|[<-|[]]]] Hne; try (simpl; lia). contradiction.
  - reflexivity.
Defined.

Lemma NoDup_names_remove (n : string) (l : list entry) :
  NoDup (map e_name l) -> NoDup (map e_name (remove_entry n l)).
Proof.
  induction l as [|x l IH]; simpl; intros Hnd; [constructor|].
  inversion Hnd as [|? ? Hnotin Hnd']; subst.
  destruct (negb (String.eqb (e_name x) n)); simpl; [|now apply IH].
  constructor; [|now apply IH].
  intros Hin. apply Hnotin. apply in_map_iff in Hin.
  destruct Hin as (y & Hy & Hin). apply filter_In in Hin.
  apply in_map_iff. exists y. tauto.
Qed.

Lemma glob_star_all (l : list entry) :
  (forall e, In e l -> startswith (e_name e) "." = false) -> glob_star l = l.
Proof.
  induction l as [|x l IH]; simpl; intros H; [reflexivity|].
  rewrite (H x (or_introl eq_refl)). simpl. rewrite IH; [reflexivity|].
  intros e He. apply H. now right.
Qed.

(** X5: called again and again on archives (directories with distinct,
    visible names), the pruning removes one archive per call until two are
    left, and never removes an archive newer than one it keeps: after
    [n] calls [max 2 (len - n)] of [len > 2] archives remain, the newest
    ones. *)
Theorem prune_times_keeps_newest (loc : string) (n : nat) (listing : list entry) :
  NoDup (map e_name listing) ->
  (forall e, In e listing ->
             e_is_dir e = true /\ startswith (e_name e) "." = false) ->
  List.length (prune_times n loc listing)
  = Nat.max (Nat.min 2 (List.length listing)) (List.length listing - n)
  /\ (forall e, In e (prune_times n loc listing) -> In e listing)
  /\ (forall e e', In e (prune_times n loc listing) -> In e' listing ->
                   ~ In e' (prune_times n loc listing) ->
                   (e_ctime e' <= e_ctime e)%Z).
Proof.
  revert listing. induction n as [|n IH]; intros listing Hnd Hall.
  - cbn [prune_times]. split; [lia|]. split; [auto|].
    intros e e' _ He' Hn. contradiction.
  - cbn [prune_times].
    assert (Hglob : glob_star listing = listing)
      by (apply glob_star_all; intros e He; now apply Hall).
    destruct (Nat.le_gt_cases (List.length listing) 2) as [Hfew|Hmany].
    + rewrite delete_old_backups_few by (rewrite Hglob; exact Hfew).
      cbn [fst snd]. destruct (IH listing Hnd Hall) as (Hl & Hsub & Hord).
      split; [rewrite Hl; lia|]. split; assumption.
    + destruct (delete_old_backups_one loc listing) as
        (oldest & Hin & Hmin & Hrun & Hmem & Hlen);
        [exact Hnd | intros e He; now apply Hall | rewrite Hglob; exact Hmany|].
      rewrite Hrun. cbn [fst snd].
      rewrite Hglob in Hin, Hmin.
      destruct (IH (remove_entry (e_name oldest) listing)) as (Hl & Hsub & Hord).
      * now apply NoDup_names_remove.
      * intros e He. apply Hmem in He. now apply Hall.
      * split; [rewrite Hl, Hlen; lia|]. split.
        -- intros e He. apply Hsub in He. now apply Hmem in He.
        -- intros e e' He He' Hn.
           destruct (entry_eq_dec e' oldest) as [->|Hne].
           ++ apply Hmin. apply Hsub in He. now apply Hmem in He.
           ++ apply (Hord e e' He); [|exact Hn]. apply Hmem. now split.
Qed.

Lemma prune_times_keeps_newest_witness :
  List.length (prune_times 2 "/b" five_archives)
  = Nat.max (Nat.min 2 (List.length five_archives)) (List.length five_archives - 2)
  /\ (forall e, In e (prune_times 2 "/b" five_archives) -> In e five_archives)
  /\ (forall e e', In e (prune_times 2 "/b" five_archives) ->
                   In e' five_archives ->
                   ~ In e' (prune_times 2 "/b" five_archives) ->
                   (e_ctime e' <= e_ctime e)%Z).
Proof.
  apply prune_times_keeps_newest.
  - repeat constructor; simpl; intuition discriminate.
  - simpl. intros e H.
    repeat destruct H as [<-|H]; try (split; reflexivity). contradiction.
Defined.

(** ** Invariants of whole runs *)

(** An invariant of every cycle is an invariant of the loop. *)
Lemma monitor_loop_inv (fs_at : nat -> filesystem) (uuid4 : nat -> string)
  (targets : list string) (I : mstate -> Prop) (O : output -> Prop) :
  (forall i st o st' r,
     I st -> cycle (fs_at i) uuid4 targets st = (o, st', r) ->
     I st' /\ Forall O o) ->
  forall n i st o st' r,
    I st -> monitor_loop fs_at uuid4 targets i n st = (o, st', r) ->
    I st' /\ Forall O o.
Proof.
  intros Hcycle. induction n as [|n IH]; intros i st o st' r Hst E.
  - simpl in E. injection E as <- <- <-. split; [exact Hst | constructor].
  - simpl in E.
    destruct (cycle (fs_at i) uuid4 targets st) as [[o1 st1] r1] eqn:E1.
    destruct (Hcycle i st o1 st1 r1 Hst E1) as [Hst1 Ho1].
    destruct r1 as [e|].
    + now injection E as <- <- <-.
    + destruct (monitor_loop fs_at uuid4 targets (S i) n st1)
        as [[o2 st2] r2] eqn:E2.
      injection E as <- <- <-.
      destruct (IH (S i) st1 o2 st2 r2 Hst1 E2) as [Hst2 Ho2].
      split; [exact Hst2 | apply Forall_app; now split].
Qed.

Lemma dict_keys_set {V : Type} (k : string) (v : V) (d : dict V) :
  dict_keys (dict_set k v d)
  = if dict_mem k d then dict_keys d else dict_keys d ++ [k].
Proof.
  unfold dict_mem. induction d as [|[k0 v0] d IH]; simpl; [reflexivity|].
  destruct (String.eqb_spec k k0) as [->|Hne]; simpl; [reflexivity|].
  rewrite IH. now destruct (dict_get k d).
Qed.

Lemma NoDup_keys_set {V : Type} (k : string) (v : V) (d : dict V) :
  NoDup (dict_keys d) -> NoDup (dict_keys (dict_set k v d)).
Proof.
  intros Hnd. rewrite dict_keys_set. unfold dict_mem.
  destruct (dict_get k d) eqn:E; [exact Hnd|].
  apply dict_get_None in E.
  apply NoDup_app; [exact Hnd | repeat constructor; intros [] |].
  intros x Hx [<-|[]]. contradiction.
Qed.

Lemma NoDup_keys_filter {V : Type} (f : string * V -> bool) (d : dict V) :
  NoDup (dict_keys d) -> NoDup (dict_keys (filter f d)).
Proof.
  induction d as [|[k v] d IH]; simpl; intros Hnd; [constructor|].
  inversion Hnd as [|? ? Hnotin Hnd']; subst.
  destruct (f (k, v)); simpl; [|now apply IH].
  constructor; [|now apply IH].
  intros Hin. apply Hnotin. unfold dict_keys in *. apply in_map_iff in Hin.
  destruct Hin as (y & Hy & Hin). apply filter_In in Hin.
  apply in_map_iff. exists y. tauto.
Qed.

Lemma visit_file_valid (fs : filesystem) (uuid4 : nat -> string) (q : string)
  (st st' : mstate) (o : list output) (r : option exn) :
  valid_dict (file_info_dict st) -> visit_file fs uuid4 q st = (o, st', r) ->
  valid_dict (file_info_dict st').
Proof.
  intros [Hnd Hk] Hv.
  split; [|now apply (visit_file_keyed _ _ _ _ _ _ _ Hk Hv)].
  apply visit_file_spec in Hv; [|exact Hk].
  destruct Hv as [(e & _ & -> & _)
                 |(data & _ & _ & [(_ & _ & ->)
                                  |[(rec & _ & _ & _ & ->)|(rec & _ & _ & _ & ->)]])];
    try exact Hnd; simpl; now apply NoDup_keys_set.
Qed.

Lemma deletion_pass_valid (fs : filesystem) (st st' : mstate)
  (o : list output) (r : option exn) :
  valid_dict (file_info_dict st) -> deletion_pass fs st = (o, st', r) ->
  valid_dict (file_info_dict st').
Proof.
  intros [Hnd Hk]. rewrite deletion_pass_spec. intros H.
  injection H as <- <- <-. simpl.
  split; [now apply NoDup_keys_filter | now apply keyed_filter].
Qed.

Lemma monitor_load_valid (ledger : option string) :
  valid_dict (snd (monitor_load ledger)).
Proof.
  split; [|apply monitor_load_keyed].
  destruct ledger as [text|]; simpl; [|constructor].
  assert (H : forall ls d, NoDup (dict_keys d) ->
                           NoDup (dict_keys (fold_left mload_step ls d))).
  { induction ls as [|l ls IH]; intros d Hd; [exact Hd|].
    simpl. apply IH. unfold mload_step.
    destruct (parse_line l) as [[path r]|]; [now apply NoDup_keys_set | exact Hd]. }
  apply H. constructor.
Qed.

(** X6: however long [monitor_files] runs, over whatever ledger and
    directories, and also when an exception ends it, its dictionary holds
    at most one record per path and every record holds its own key as its
    path. *)
Theorem monitor_files_dict_valid
  (fs_at : nat -> filesystem) (uuid4 : nat -> string) (targets : list string)
  (ledger : option string) (n : nat) :
  valid_dict (file_info_dict
                (snd (fst (monitor_files fs_at uuid4 targets ledger n)))).
Proof.
  unfold monitor_files.
  pose proof (monitor_load_valid ledger) as Hload.
  destruct (monitor_load ledger) as [o d]. simpl in Hload.
  destruct (monitor_loop fs_at uuid4 targets 0 n (MState d ledger 0))
    as [[o2 st] r] eqn:E. simpl.
  refine (proj1 (monitor_loop_inv fs_at uuid4 targets
                   (fun s => valid_dict (file_info_dict s)) (fun _ => True)
                   _ n 0 (MState d ledger 0) o2 st r Hload E)).
  intros i s a s' b Hs Ec.
  refine (cycle_inv (fs_at i) uuid4 targets
            (fun s => valid_dict (file_info_dict s)) (fun _ => True)
            _ _ s a s' b Hs Ec).
  - intros q s0 a0 s0' b0 _ Hs0 Hv.
    split; [now apply (visit_file_valid _ _ _ _ _ _ _ Hs0 Hv)|].
    apply Forall_forall. auto.
  - intros s0 a0 s0' b0 Hs0 Hd.
    split; [now apply (deletion_pass_valid _ _ _ _ _ Hs0 Hd)|].
    apply Forall_forall. auto.
Qed.

(** ** The rename branch *)

Lemma process_changes_lines
  (fingerprint : filesystem -> string -> exn + string) (a1 a2 a3 : string)
  (fs : filesystem) (filename new_id : string) (ledger : option string) :
  Forall handler_line
    (fst (process_changes fingerprint a1 a2 a3 fs filename new_id ledger)).
Proof.
  unfold process_changes, handler_line. destruct ledger as [text|].
  - destruct (load_eid text new_id) as [baseline_data eid].
    destruct (fingerprint fs filename) as [e|current]; simpl.
    + repeat constructor.
    + unfold compare_log.
      destruct (dict_get filename baseline_data) as [r|];
        [destruct (negb (String.eqb current (hash r)))|];
        repeat constructor; simpl; tauto.
  - repeat constructor.
Qed.

Lemma process_file_lines
  (fs : filesystem) (filename new_id : string) (ledger : option string) :
  path_exists fs filename = true ->
  Forall handler_line (fst (process_file fs filename new_id ledger)).
Proof.
  intros Hex. unfold process_file.
  assert (Hother : Forall handler_line
                     [LogInfo 103 None filename "File has been changed."])
    by (repeat constructor; unfold handler_line; simpl; tauto).
  destruct (check_file_type filename) as [file_type|]; [|exact Hother].
  destruct (String.eqb file_type "excel"); [apply process_changes_lines|].
  destruct (String.eqb file_type "image"); [apply process_changes_lines|].
  destruct (String.eqb file_type "word").
  - unfold process_word_changes, handler_line.
    destruct (startswith filename "~$"); [constructor|].
    destruct ledger as [text|]; [|repeat constructor].
    rewrite Hex. simpl.
    destruct (calculate_file_hash fs filename) as [e|current]; simpl;
      [repeat constructor|].
    destruct (dict_get filename (load_text text)) as [r|];
      [destruct (negb (String.eqb current (hash r)))|];
      repeat constructor; simpl; tauto.
  - destruct (String.eqb file_type "pdf"); [apply process_changes_lines|].
    destruct (String.eqb file_type "txt"); [apply process_changes_lines|].
    exact Hother.
Qed.

(** X7: [monitor_files] never logs a rename.  Every record is stored under
    its own path, so the test [full_path != file_info_dict[full_path]
    ["path"]] never holds: in no run, over no ledger and no directories,
    does a line with code 104 appear. *)
Theorem monitor_files_never_renames
  (fs_at : nat -> filesystem) (uuid4 : nat -> string) (targets : list string)
  (ledger : option string) (n : nat) :
  Forall (fun o => out_code o <> Some 104)
         (fst (fst (monitor_files fs_at uuid4 targets ledger n))).
Proof.
  unfold monitor_files.
  pose proof (monitor_load_keyed ledger) as Hload.
  assert (Hout : Forall (fun o => out_code o <> Some 104)
                        (fst (monitor_load ledger)))
    by (destruct ledger; repeat constructor; discriminate).
  destruct (monitor_load ledger) as [o d]. simpl in Hload, Hout.
  destruct (monitor_loop fs_at uuid4 targets 0 n (MState d ledger 0))
    as [[o2 st] r] eqn:E. simpl.
  apply Forall_app. split; [exact Hout|].
  refine (proj2 (monitor_loop_inv fs_at uuid4 targets
                   (fun s => keyed (file_info_dict s))
                   (fun o => out_code o <> Some 104)
                   _ n 0 (MState d ledger 0) o2 st r Hload E)).
  intros i s a s' b Hs Ec.
  refine (cycle_inv (fs_at i) uuid4 targets
            (fun s => keyed (file_info_dict s))
            (fun o => out_code o <> Some 104) _ _ s a s' b Hs Ec).
  - intros q s0 a0 s0' b0 _ Hs0 Hv.
    split; [now apply (visit_file_keyed _ _ _ _ _ _ _ Hs0 Hv)|].
    apply visit_file_spec in Hv; [|exact Hs0].
    destruct Hv as [(e & _ & _ & Hnone)
                   |(data & Hopen & _ & [(_ & -> & _)
                                        |[(rec & _ & _ & -> & _)
                                         |(rec & _ & _ & -> & _)]])].
    + eapply Forall_impl; [|exact Hnone].
      intros x Hx. destruct x; simpl in *; congruence.
    + repeat constructor. discriminate.
    + eapply Forall_impl;
        [|apply process_file_lines, (open_rb_exists _ _ _ Hopen)].
      intros x [H|[H|[H|H]]]; rewrite H; discriminate.
    + constructor.
  - intros s0 a0 s0' b0 Hs0. rewrite deletion_pass_spec.
    intros H. injection H as <- <- <-. split; [now apply keyed_filter|].
    apply Forall_forall. intros x Hx. apply in_map_iff in Hx.
    destruct Hx as (k & <- & _). discriminate.
Qed.

(** ** What a completed cycle leaves on record *)

(** X8: after a cycle that runs to its end, every file that the discovery
    visited and could read is on record with the SHA-512 digest of its
    content, whether it was new, changed or the same as before. *)
Theorem cycle_records_visited_files
  (fs : filesystem) (uuid4 : nat -> string) (targets : list string)
  (st st' : mstate) (o : list output) (p : string) (data : list Byte.byte) :
  keyed (file_info_dict st) ->
  cycle fs uuid4 targets st = (o, st', None) ->
  In p (visited_paths fs targets) ->
  open_rb fs p = inr data ->
  recorded p (sha512_hexdigest data) st'.
Proof.
  intros Hk E Hin Hopen.
  now apply (cycle_records fs uuid4 p data Hopen targets st st' o).
Qed.

Lemma cycle_records_visited_files_witness :
  recorded "/t/sub/n.txt" (sha512_hexdigest (bytes_of "x"))
           (snd (fst (cycle fs_walk uuid_sample ["/t"] st_walk))).
Proof.
  apply (cycle_records_visited_files fs_walk uuid_sample ["/t"] st_walk
           (snd (fst (cycle fs_walk uuid_sample ["/t"] st_walk)))
           (fst (fst (cycle fs_walk uuid_sample ["/t"] st_walk)))).
  - intros k r H. simpl in H.
    destruct H as [H|[H|[]]]; injection H as <- <-; reflexivity.
  - vm_compute. reflexivity.
  - vm_compute. tauto.
  - reflexivity.
Defined.

(** X9: when none of the target folders is a directory any more,
    [os.walk] yields nothing and the cycle does nothing at all: no file is
    visited and, the deletion pass sitting inside the walk, no record is
    dropped and no deletion logged, although every tracked file is gone. *)
Theorem cycle_absent_targets
  (fs : filesystem) (uuid4 : nat -> string) (targets : list string)
  (st : mstate) :
  (forall t, In t targets -> find_top fs t = None) ->
  cycle fs uuid4 targets st = ([], st, None).
Proof.
  unfold cycle. induction targets as [|t targets IH]; intros H; [reflexivity|].
  cbn [for_each]. unfold os_walk at 1. rewrite (H t (or_introl eq_refl)).
  cbn [for_each]. rewrite IH; [reflexivity|].
  intros t' Ht'. apply H. now right.
Qed.

Lemma cycle_absent_targets_witness :
  cycle [] uuid_sample ["/t"] st_walk = ([], st_walk, None).
Proof. apply cycle_absent_targets. intros t _. reflexivity. Defined.

Lemma walk_step_keys_exist (fs : filesystem) (uuid4 : nat -> string)
  (item : string * list string) (st st' : mstate) (o : list output) :
  walk_step fs uuid4 item st = (o, st', None) -> keys_exist fs st'.
Proof.
  unfold walk_step. destruct item as [root files].
  destruct (for_each (fun f => visit_file fs uuid4 (path_join root f)) files st)
    as [[o1 st1] [e|]]; [discriminate|].
  rewrite deletion_pass_spec. intros H. injection H as <- <-.
  intros k Hk. simpl in Hk. unfold dict_keys in Hk. apply in_map_iff in Hk.
  destruct Hk as ([k' v] & <- & Hin). apply filter_In in Hin. tauto.
Qed.

Lemma walk_keys_exist (fs : filesystem) (uuid4 : nat -> string)
  (items : list (string * list string)) (st st' : mstate) (o : list output) :
  for_each (walk_step fs uuid4) items st = (o, st', None) ->
  items <> [] \/ keys_exist fs st -> keys_exist fs st'.
Proof.
  revert st o. induction items as [|item items IH]; intros st o E H.
  - simpl in E. injection E as <- <-. destruct H; [contradiction | assumption].
  - apply for_each_cons in E.
    destruct E as [(e & _ & Habs)|(o1 & st1 & o2 & E1 & E2 & ->)];
      [discriminate|].
    apply (IH st1 o2 E2). right. now apply (walk_step_keys_exist _ _ _ _ _ _ E1).
Qed.

Lemma os_walk_nonempty (fs : filesystem) (t : string) :
  find_top fs t <> None -> os_walk excluded_dirs fs t <> [].
Proof.
  unfold os_walk. destruct (find_top fs t) as [[n files subdirs]|];
    [discriminate | contradiction].
Qed.

(** Where a cycle that runs to its end leaves the dictionary, if it walked
    a directory at all. *)
Lemma cycle_ends_on_existing_keys
  (fs : filesystem) (uuid4 : nat -> string) (targets : list string)
  (st st' : mstate) (o : list output) :
  (exists t, In t targets /\ find_top fs t <> None) ->
  cycle fs uuid4 targets st = (o, st', None) ->
  keys_exist fs st'.
Proof.
  intros (t & Ht & Htop) E. unfold cycle in E.
  apply (for_each_establish
           (fun target_folder =>
              for_each (walk_step fs uuid4)
                       (os_walk excluded_dirs fs target_folder))
           (fun _ => True) (keys_exist fs) targets t)
    with (st := st) (o := o); auto.
  - intros y s a s' _ _ Hs Ew. apply (walk_keys_exist _ _ _ _ _ _ Ew). now right.
  - intros s a s' _ Ew. apply (walk_keys_exist _ _ _ _ _ _ Ew). left.
    now apply os_walk_nonempty.
Qed.

(** X10: after a cycle that runs to its end and in which at least one
    target folder is still a directory, no path that is gone from the disk
    has a record, whether it had one before the cycle or not; the records
    that are left are all of paths that exist. *)
Theorem cycle_drops_missing_paths
  (fs : filesystem) (uuid4 : nat -> string) (targets : list string)
  (st st' : mstate) (o : list output) (p : string) :
  (exists t, In t targets /\ find_top fs t <> None) ->
  cycle fs uuid4 targets st = (o, st', None) ->
  path_exists fs p = false ->
  dict_get p (file_info_dict st') = None.
Proof.
  intros Htop E Hgone.
  pose proof (cycle_ends_on_existing_keys fs uuid4 targets st st' o Htop E) as Hex.
  destruct (dict_get p (file_info_dict st')) as [rec|] eqn:Eg; [|reflexivity].
  apply dict_get_In in Eg. apply (in_map fst) in Eg.
  apply Hex in Eg. simpl in Eg. congruence.
Qed.

Lemma cycle_drops_missing_paths_witness :
  dict_get "/t/gone.txt"
    (file_info_dict (snd (fst (cycle fs_walk uuid_sample ["/t"] st_walk))))
  = None.
Proof.
  apply (cycle_drops_missing_paths fs_walk uuid_sample ["/t"] st_walk
           (snd (fst (cycle fs_walk uuid_sample ["/t"] st_walk)))
           (fst (fst (cycle fs_walk uuid_sample ["/t"] st_walk)))).
  - exists "/t". split; [now left | discriminate].
  - vm_compute. reflexivity.
  - reflexivity.
Defined.

(** ** What a cycle leaves alone *)

(** X11: a cycle does not touch the record of a path that exists and that
    it does not read: the record of a locked file, of a directory, or of a
    file outside the visited directories (in an excluded directory, say)
    is the same after the cycle as before, whatever the file now holds. *)
Theorem cycle_frame
  (fs : filesystem) (uuid4 : nat -> string) (targets : list string)
  (st st' : mstate) (o : list output) (r : option exn) (p : string) :
  keyed (file_info_dict st) ->
  path_exists fs p = true ->
  (forall data, open_rb fs p = inr data -> ~ In p (visited_paths fs targets)) ->
  cycle fs uuid4 targets st = (o, st', r) ->
  dict_get p (file_info_dict st') = dict_get p (file_info_dict st).
Proof.
  intros Hk Hex Hunread E.
  refine (proj2 (proj1 (cycle_inv fs uuid4 targets
                   (fun s => keyed (file_info_dict s)
                             /\ dict_get p (file_info_dict s)
                                = dict_get p (file_info_dict st))
                   (fun _ => True) _ _ st o st' r (conj Hk eq_refl) E))).
  - intros q s a s' b Hq [Hs Hget] Hv.
    split; [|apply Forall_forall; auto].
    split; [now apply (visit_file_keyed _ _ _ _ _ _ _ Hs Hv)|].
    apply visit_file_spec in Hv; [|exact Hs].
    destruct Hv as [(e & _ & -> & _)
                   |(data & Hopen & _ & [(_ & _ & ->)
                                        |[(rec & _ & _ & _ & ->)
                                         |(rec & _ & _ & _ & ->)]])];
      try exact Hget; simpl; rewrite dict_get_set_ne; try exact Hget;
      intros ->; now apply (Hunread data Hopen).
  - intros s a s' b [Hs Hget]. rewrite deletion_pass_spec.
    intros H. injection H as <- <- <-.
    split; [|apply Forall_forall; auto]. simpl.
    split; [now apply keyed_filter|]. now rewrite dict_get_filter, Hex.
Qed.

Lemma cycle_frame_witness :
  dict_get "/t/image files/x.png"
    (file_info_dict (snd (fst (cycle fs_walk uuid_sample ["/t"] st_walk))))
  = dict_get "/t/image files/x.png" (file_info_dict st_walk).
Proof.
  apply (cycle_frame fs_walk uuid_sample ["/t"] st_walk
           (snd (fst (cycle fs_walk uuid_sample ["/t"] st_walk)))
           (fst (fst (cycle fs_walk uuid_sample ["/t"] st_walk)))
           (snd (cycle fs_walk uuid_sample ["/t"] st_walk))).
  - intros k r H. simpl in H.
    destruct H as [H|[H|[]]]; injection H as <- <-; reflexivity.
  - reflexivity.
  - intros data _ Hin. vm_compute in Hin.
    destruct Hin as [H|[H|[H|[]]]]; discriminate H.
  - vm_compute. reflexivity.
Defined.

(** ** The loaders *)

Lemma to_info_set (k h e : string) (d : dict minfo) :
  map to_info (dict_set k (MInfo h e k) d) = dict_set k (Info h e) (map to_info d).
Proof.
  induction d as [|[k0 v0] d IH]; simpl; [reflexivity|].
  destruct (String.eqb k k0); simpl; [reflexivity | now rewrite IH].
Qed.

(** X12: the loop and the handlers read the same records from a ledger:
    the dictionary [monitor_files] starts from holds, path by path and in
    the same order, the hash and the event id that the handlers' loader
    finds, with the key repeated as the record's path. *)
Theorem loaders_agree (text new_id : string) :
  map to_info (snd (monitor_load (Some text))) = load_text text
  /\ fst (load_eid text new_id) = load_text text
  /\ keyed (snd (monitor_load (Some text))).
Proof.
  split; [|split; [apply load_eid_fst | apply monitor_load_keyed]].
  simpl. unfold load_text, load_lines.
  change (@nil (string * info)) with (map to_info []).
  generalize (@nil (string * minfo)) as d.
  induction (iter_lines text) as [|l ls IH]; intros d; [reflexivity|].
  simpl. rewrite IH. f_equal. unfold mload_step, load_step.
  destruct (parse_line l) as [[path [h e]]|]; [|reflexivity].
  now rewrite to_info_set.
Qed.

(** ** A file that is gone *)

Lemma deletions_of_app (p : string) (a b : list output) :
  deletions_of p (a ++ b) = deletions_of p a + deletions_of p b.
Proof. unfold deletions_of. now rewrite filter_app, length_app. Qed.

(** A quantity that each turn moves from the state to the log is moved by
    the loop. *)
Lemma for_each_count {A S : Type} (body : A -> S -> result S)
  (I : S -> Prop) (p : string) (phi : S -> nat) (l : list A) :
  (forall x st o st',
     In x l -> I st -> body x st = (o, st', None) ->
     I st' /\ deletions_of p o + phi st' = phi st) ->
  forall st o st',
    I st -> for_each body l st = (o, st', None) ->
    I st' /\ deletions_of p o + phi st' = phi st.
Proof.
  induction l as [|x l IH]; intros Hbody st o st' Hst E.
  - simpl in E. injection E as <- <-. now split.
  - apply for_each_cons in E.
    destruct E as [(e & _ & Habs)|(o1 & st1 & o2 & E1 & E2 & ->)];
      [discriminate|].
    destruct (Hbody x st o1 st1 (or_introl eq_refl) Hst E1) as [Hst1 H1].
    destruct (IH (fun y s a b Hy => Hbody y s a b (or_intror Hy))
                 st1 o2 st' Hst1 E2) as [Hst2 H2].
    split; [exact Hst2|]. rewrite deletions_of_app. lia.
Qed.

Lemma visit_file_no_deletion (fs : filesystem) (uuid4 : nat -> string)
  (p q : string) (st st' : mstate) (o : list output) (r : option exn) :
  visit_file fs uuid4 q st = (o, st', r) -> deletions_of p o = 0.
Proof.
  intros Hv. apply visit_file_no_102 in Hv. unfold deletions_of.
  induction Hv as [|x o Hx _ IH]; [reflexivity|].
  simpl. destruct x; simpl in *; try exact IH.
  destruct (Nat.eqb_spec code 102) as [->|_]; [congruence | exact IH].
Qed.

Lemma visit_file_tracked (fs : filesystem) (uuid4 : nat -> string)
  (p q : string) (st st' : mstate) (o : list output) (r : option exn) :
  keyed (file_info_dict st) -> path_exists fs p = false ->
  visit_file fs uuid4 q st = (o, st', r) -> tracked p st' = tracked p st.
Proof.
  intros Hk Hgone Hv. apply visit_file_spec in Hv; [|exact Hk].
  destruct Hv as [(e & _ & -> & _)
                 |(data & Hopen & _ & [(_ & _ & ->)
                                      |[(rec & _ & _ & _ & ->)
                                       |(rec & _ & _ & _ & ->)]])];
    try reflexivity;
    unfold tracked; simpl; rewrite dict_mem_set;
    (destruct (String.eqb_spec p q) as [->|_]; [|reflexivity]);
    apply open_rb_exists in Hopen; congruence.
Qed.

Lemma count_key (p : string) (d : dict minfo) :
  NoDup (dict_keys d) ->
  List.length (filter (fun k => String.eqb k p) (dict_keys d))
  = if dict_mem p d then 1 else 0.
Proof.
  unfold dict_mem. induction d as [|[k v] d IH]; simpl; intros Hnd;
    [reflexivity|].
  inversion Hnd as [|? ? Hnotin Hnd']; subst.
  rewrite (String.eqb_sym k p).
  destruct (String.eqb_spec p k) as [->|Hne]; simpl.
  - rewrite (IH Hnd'). apply dict_get_None in Hnotin. now rewrite Hnotin.
  - now apply IH.
Qed.

Lemma deletions_of_pass (p : string) (g : string -> bool) (ks : list string) :
  g p = true ->
  deletions_of p (map deleted_msg (filter g ks))
  = List.length (filter (fun k => String.eqb k p) ks).
Proof.
  intros Hg. unfold deletions_of.
  induction ks as [|k ks IH]; simpl; [reflexivity|].
  destruct (g k) eqn:Egk; simpl.
  - destruct (String.eqb k p); simpl; now rewrite IH.
  - destruct (String.eqb_spec k p) as [->|_]; [congruence | exact IH].
Qed.

Lemma deletion_pass_count (fs : filesystem) (p : string) (st st' : mstate)
  (o : list output) (r : option exn) :
  NoDup (dict_keys (file_info_dict st)) -> path_exists fs p = false ->
  deletion_pass fs st = (o, st', r) ->
  deletions_of p o + tracked p st' = tracked p st.
Proof.
  intros Hnd Hgone. rewrite deletion_pass_spec. intros H.
  injection H as <- <- <-.
  rewrite deletions_of_pass by now rewrite Hgone.
  rewrite (count_key _ _ Hnd). unfold tracked, dict_mem. simpl.
  rewrite dict_get_filter, Hgone. lia.
Qed.

(** X13: a tracked file that is gone is reported deleted exactly once by a
    cycle that runs to its end (and in which some target folder is still a
    directory), and its record is dropped: later deletion passes of the
    same cycle do not report it again. *)
Theorem cycle_deleted_once
  (fs : filesystem) (uuid4 : nat -> string) (targets : list string)
  (st st' : mstate) (o : list output) (p : string) :
  valid_dict (file_info_dict st) ->
  dict_mem p (file_info_dict st) = true ->
  path_exists fs p = false ->
  (exists t, In t targets /\ find_top fs t <> None) ->
  cycle fs uuid4 targets st = (o, st', None) ->
  deletions_of p o = 1 /\ dict_mem p (file_info_dict st') = false.
Proof.
  intros Hvalid Hmem Hgone Htop E.
  assert (Hend : dict_mem p (file_info_dict st') = false).
  { pose proof (cycle_ends_on_existing_keys fs uuid4 targets st st' o Htop E)
      as Hex.
    unfold dict_mem. destruct (dict_get p (file_info_dict st')) eqn:Eg;
      [|reflexivity].
    apply dict_get_In in Eg. apply (in_map fst) in Eg.
    apply Hex in Eg. simpl in Eg. congruence. }
  split; [|exact Hend].
  assert (Hsum : deletions_of p o + tracked p st' = tracked p st).
  { unfold cycle in E.
    refine (proj2 (for_each_count
              (fun target_folder =>
                 for_each (walk_step fs uuid4)
                          (os_walk excluded_dirs fs target_folder))
              (fun s => valid_dict (file_info_dict s)) p (tracked p)
              targets _ st o st' Hvalid E)).
    intros target s a s' _ Hs Ew.
    refine (for_each_count (walk_step fs uuid4)
              (fun s => valid_dict (file_info_dict s)) p (tracked p)
              (os_walk excluded_dirs fs target) _ s a s' Hs Ew).
    intros [root files] s0 a0 s0' _ Hs0. unfold walk_step.
    destruct (for_each (fun f => visit_file fs uuid4 (path_join root f))
                       files s0) as [[o1 s1] [e|]] eqn:E1; [discriminate|].
    destruct (deletion_pass fs s1) as [[o2 s2] r2] eqn:E2.
    intros H. injection H as <- <- ->.
    assert (H1 : valid_dict (file_info_dict s1)
                 /\ deletions_of p o1 + tracked p s1 = tracked p s0).
    { refine (for_each_count
                (fun f => visit_file fs uuid4 (path_join root f))
                (fun s => valid_dict (file_info_dict s)) p (tracked p)
                files _ s0 o1 s1 Hs0 E1).
      intros f s2' a2 s3 _ Hs2 Hv.
      split; [now apply (visit_file_valid _ _ _ _ _ _ _ Hs2 Hv)|].
      rewrite (visit_file_no_deletion _ _ _ _ _ _ _ _ Hv).
      rewrite (visit_file_tracked _ _ p _ _ _ _ _ (proj2 Hs2) Hgone Hv).
      reflexivity. }
    destruct H1 as [Hs1 Hc1].
    split; [now apply (deletion_pass_valid _ _ _ _ _ Hs1 E2)|].
    rewrite deletions_of_app.
    pose proof (deletion_pass_count fs p s1 s2 o2 None (proj1 Hs1) Hgone E2).
    lia. }
  unfold tracked in Hsum. rewrite Hmem, Hend in Hsum. lia.
Qed.

Lemma cycle_deleted_once_witness :
  deletions_of "/t/gone.txt"
    (fst (fst (cycle fs_walk uuid_sample ["/t"] st_walk))) = 1
  /\ dict_mem "/t/gone.txt"
       (file_info_dict (snd (fst (cycle fs_walk uuid_sample ["/t"] st_walk))))
     = false.
Proof.
  apply (cycle_deleted_once fs_walk uuid_sample ["/t"] st_walk).
  - split.
    + repeat constructor; simpl; intuition discriminate.
    + intros k r H. simpl in H.
      destruct H as [H|[H|[]]]; injection H as <- <-; reflexivity.
  - reflexivity.
  - reflexivity.
  - exists "/t". split; [now left | discriminate].
  - vm_compute. reflexivity.
Defined.

(** ** Digests as ledger fields *)

Lemma hex_digit_clean (c : ascii) (x : Z) :
  (0 <= x < 16)%Z ->
  In c [PIPE; LF; CR] -> Ascii.eqb (hex_digit x) c = false.
Proof.
  intros Hx Hc.
  assert (H : In x [0; 1; 2; 3; 4; 5; 6; 7; 8; 9; 10; 11; 12; 13; 14; 15]%Z)
    by (simpl; lia).
  simpl in Hc, H.
  repeat (destruct Hc as [<-|Hc]);
    try contradiction;
    repeat (destruct H as [<-|H]); try reflexivity; contradiction.
Qed.

Lemma has_char_hex_fixed (c : ascii) (n : nat) (x : Z) :
  In c [PIPE; LF; CR] -> has_char c (hex_fixed n x) = false.
Proof.
  intros Hc. revert x. induction n as [|n IH]; intros x; [reflexivity|].
  simpl. rewrite has_char_append, IH. simpl.
  rewrite hex_digit_clean; [reflexivity | | exact Hc].
  apply Z.mod_pos_bound. lia.
Qed.

Lemma field_ok_append (a b : string) :
  field_ok (a ++ b) = field_ok a && field_ok b.
Proof.
  unfold field_ok. rewrite !has_char_append.
  destruct (has_char PIPE a), (has_char LF a), (has_char CR a),
    (has_char PIPE b), (has_char LF b), (has_char CR b); reflexivity.
Qed.

Lemma field_ok_hex_fixed (n : nat) (x : Z) : field_ok (hex_fixed n x) = true.
Proof.
  unfold field_ok.
  rewrite !has_char_hex_fixed by (simpl; tauto). reflexivity.
Qed.

(** A hex digest holds no separator and no line break. *)
Lemma field_ok_hexdigest (P : sha2_params) (data : list Byte.byte) :
  field_ok (hexdigest P data) = true.
Proof.
  unfold hexdigest. rewrite !field_ok_append, !field_ok_hex_fixed. reflexivity.
Qed.

(** ** A handler run twice *)

Lemma last_eid_twice (R : dict info) (e : string) :
  last_eid R (last_eid R e) = last_eid R e.
Proof.
  destruct R as [|kv R]; [reflexivity|]. reflexivity.
Qed.

Lemma last_eid_set (k h : string) (R : dict info) (e e' : string) :
  last_eid (dict_set k (Info h (last_eid R e)) R) e' = last_eid R e.
Proof.
  revert e e'. induction R as [|[k0 v0] R IH]; intros e e'; [reflexivity|].
  cbn [dict_set]. destruct (String.eqb k k0).
  - unfold last_eid. cbn [fold_left snd event_id]. apply last_eid_twice.
  - unfold last_eid at 1 3. cbn [fold_left snd].
    apply (IH (event_id v0) (event_id v0)).
Qed.

Lemma eid_ok_last (R : dict info) (e : string) :
  ledger_ok R = true -> eid_ok e = true -> eid_ok (last_eid R e) = true.
Proof.
  revert e. induction R as [|[k v] R IH]; intros e HR He; [exact He|].
  simpl in HR. apply andb_true_iff in HR. destruct HR as [Hkv HR].
  unfold last_eid. cbn [fold_left snd]. apply (IH _ HR).
  apply record_ok_inv in Hkv. destruct Hkv as (_ & _ & Hf & _ & Hr).
  unfold eid_ok. now rewrite Hf, Hr, String.eqb_refl.
Qed.

Lemma ledger_ok_set (k : string) (v : info) (R : dict info) :
  record_ok (k, v) = true -> ledger_ok R = true ->
  ledger_ok (dict_set k v R) = true.
Proof.
  intros Hkv. unfold ledger_ok. induction R as [|[k0 v0] R IH]; intros HR.
  - cbn [dict_set forallb]. now rewrite Hkv.
  - cbn [forallb] in HR. apply andb_true_iff in HR. destruct HR as [H0 HR].
    cbn [dict_set]. destruct (String.eqb_spec k k0) as [->|_]; cbn [forallb].
    + now rewrite Hkv, HR.
    + now rewrite H0, IH.
Qed.

Lemma dict_set_twice {V : Type} (k : string) (v : V) (d : dict V) :
  dict_set k v (dict_set k v d) = dict_set k v d.
Proof.
  induction d as [|[k0 v0] d IH]; simpl.
  - now rewrite String.eqb_refl.
  - destruct (String.eqb_spec k k0) as [->|Hne]; simpl.
    + now rewrite String.eqb_refl.
    + destruct (String.eqb_spec k k0); [contradiction | now rewrite IH].
Qed.

(** What the loading loop of the shared body makes of a saved ledger. *)
Lemma load_eid_saved (R acc : dict info) (e : string) :
  NoDup (dict_keys acc ++ dict_keys R) -> ledger_ok R = true ->
  fold_left load_step_eid (iter_lines (save_text R)) (acc, e)
  = (acc ++ R, last_eid R e).
Proof.
  revert acc e. induction R as [|[p r] R IH]; intros acc e Hnd Hok.
  - simpl. now rewrite app_nil_r.
  - simpl in Hok. apply andb_true_iff in Hok. destruct Hok as [Hr Hok].
    rewrite (iter_lines_save_cons _ _ _ Hr). cbn [fold_left].
    unfold load_step_eid at 2. rewrite (parse_ledger_line _ _ Hr).
    assert (Hfresh : ~ In p (dict_keys acc)).
    { simpl in Hnd. apply NoDup_remove_2 in Hnd.
      intros Hin. apply Hnd. apply in_or_app. now left. }
    cbn [fst]. rewrite (dict_set_fresh _ _ _ Hfresh), IH.
    + now rewrite <- app_assoc.
    + unfold dict_keys in *. rewrite map_app, <- app_assoc. exact Hnd.
    + exact Hok.
Qed.

Lemma process_changes_twice
  (fingerprint : filesystem -> string -> exn + string) (a1 a2 a3 : string)
  (fs : filesystem) (filename e1 e2 current : string) (R : dict info) :
  NoDup (dict_keys R) -> ledger_ok R = true ->
  path_ok filename = true -> eid_ok e1 = true -> field_ok current = true ->
  fingerprint fs filename = inr current ->
  process_changes fingerprint a1 a2 a3 fs filename e2
    (snd (process_changes fingerprint a1 a2 a3 fs filename e1
            (Some (save_text R))))
  = ([LogInfo 100 None filename a3],
     snd (process_changes fingerprint a1 a2 a3 fs filename e1
            (Some (save_text R)))).
Proof.
  intros Hnd Hok Hp He1 Hc Hf.
  assert (Hrun : forall D e,
             NoDup (dict_keys D) -> ledger_ok D = true ->
             process_changes fingerprint a1 a2 a3 fs filename e
               (Some (save_text D))
             = ([compare_log filename current D a1 a2 a3],
                Some (save_text (dict_set filename
                                   (Info current (last_eid D e)) D)))).
  { intros D e HD HokD. unfold process_changes, load_eid.
    destruct (fold_left load_step_eid (iter_lines (save_text D)) ([], e))
      as [baseline_data eid] eqn:E.
    assert (HE : (baseline_data, eid) = (D, last_eid D e))
      by (rewrite <- E; now apply (load_eid_saved D [] e)).
    injection HE as -> ->. now rewrite Hf. }
  rewrite (Hrun R e1 Hnd Hok). cbn [snd].
  assert (HE1 : eid_ok (last_eid R e1) = true) by now apply eid_ok_last.
  assert (Hrec : record_ok (filename, Info current (last_eid R e1)) = true).
  { unfold path_ok, eid_ok in *. apply andb_true_iff in Hp, HE1.
    destruct Hp as [Hp1 Hp2], HE1 as [He1' He2']. simpl.
    now rewrite Hp1, Hc, He1', Hp2, He2'. }
  rewrite Hrun; [|now apply NoDup_keys_set | now apply ledger_ok_set].
  rewrite last_eid_set, dict_set_twice. f_equal. f_equal.
  unfold compare_log. rewrite dict_get_set_eq. simpl.
  now rewrite String.eqb_refl.
Qed.

(** X14: a handler of the shared body run a second time on a file that has
    not changed reports "no change" (code 100) and writes back the very
    ledger the first run wrote, event id included, whatever event id the
    second run is given.  (For a ledger as the program saves it and a path
    and first event id that survive the ledger format.) *)
Theorem handler_second_run
  (handler : filesystem -> string -> string -> option string
             -> list output * option string)
  (fs : filesystem) (filename e1 e2 : string) (R : dict info)
  (data : list Byte.byte) :
  In handler shared_body_handlers ->
  NoDup (dict_keys R) -> ledger_ok R = true ->
  path_ok filename = true -> eid_ok e1 = true ->
  open_rb fs filename = inr data ->
  exists action,
    handler fs filename e2 (snd (handler fs filename e1 (Some (save_text R))))
    = ([LogInfo 100 None filename action],
       snd (handler fs filename e1 (Some (save_text R)))).
Proof.
  intros Hin Hnd Hok Hp He1 Hopen.
  assert (H512 : calculate_file_hash fs filename = inr (sha512_hexdigest data))
    by now apply calculate_file_hash_readable.
  assert (H256 : calculate_file_checksum fs filename = inr (sha256_hexdigest data))
    by (unfold calculate_file_checksum; now rewrite Hopen).
  simpl in Hin.
  destruct Hin as [<-|[<-|[<-|[<-|[<-|[]]]]]]; eexists.
  - apply process_changes_twice with (current := sha512_hexdigest data);
      try assumption; apply field_ok_hexdigest.
  - apply process_changes_twice with (current := sha512_hexdigest data);
      try assumption; apply field_ok_hexdigest.
  - apply process_changes_twice with (current := sha256_hexdigest data);
      try assumption; apply field_ok_hexdigest.
  - apply process_changes_twice with (current := sha512_hexdigest data);
      try assumption; apply field_ok_hexdigest.
  - apply process_changes_twice with (current := sha512_hexdigest data);
      try assumption; apply field_ok_hexdigest.
Qed.

Lemma handler_second_run_witness :
  exists action,
    process_image_changes fs_two_files "/t/b.png" "e2"
      (snd (process_image_changes fs_two_files "/t/b.png" "e1"
              (Some (save_text [("/t/a.txt", Info "00" "e0")]))))
    = ([LogInfo 100 None "/t/b.png" action],
       snd (process_image_changes fs_two_files "/t/b.png" "e1"
              (Some (save_text [("/t/a.txt", Info "00" "e0")])))).
Proof.
  apply (handler_second_run process_image_changes fs_two_files "/t/b.png"
           "e1" "e2" [("/t/a.txt", Info "00" "e0")] (bytes_of "world")).
  - simpl. tauto.
  - repeat constructor; simpl; intuition discriminate.
  - reflexivity.
  - reflexivity.
  - reflexivity.
  - reflexivity.
Defined.

(** ** Collecting a baseline *)

Lemma save_text_app (a b : dict info) :
  save_text (a ++ b) = (save_text a ++ save_text b)%string.
Proof.
  induction a as [|[p r] a IH]; simpl; [reflexivity|].
  now rewrite IH, append_assoc.
Qed.

(** Reading a saved ledger, the paths not being distinct. *)
Lemma load_saved_any (R acc : dict info) :
  ledger_ok R = true ->
  fold_left load_step (iter_lines (save_text R)) acc = set_all R acc.
Proof.
  revert acc. induction R as [|[p r] R IH]; intros acc Hok; [reflexivity|].
  unfold ledger_ok in Hok. cbn [forallb] in Hok.
  apply andb_true_iff in Hok. destruct Hok as [Hr Hok].
  rewrite (iter_lines_save_cons _ _ _ Hr). cbn [fold_left].
  unfold load_step at 2. rewrite (parse_ledger_line _ _ Hr).
  unfold set_all. cbn [fold_left fst snd]. now apply IH.
Qed.

Lemma set_all_other (p : string) (R acc : dict info) :
  ~ In p (dict_keys R) -> dict_get p (set_all R acc) = dict_get p acc.
Proof.
  revert acc. induction R as [|[k v] R IH]; intros acc Hnot; [reflexivity|].
  unfold set_all. cbn [fold_left fst snd]. simpl in Hnot.
  fold (set_all R (dict_set k v acc)). rewrite IH by tauto.
  apply dict_get_set_ne. intros ->. tauto.
Qed.

(** The record read for a path is one written for it. *)
Lemma set_all_get (p : string) (R acc : dict info) :
  In p (dict_keys R) ->
  exists r, dict_get p (set_all R acc) = Some r /\ In (p, r) R.
Proof.
  revert acc. induction R as [|[k v] R IH]; intros acc Hin; [contradiction|].
  unfold set_all. cbn [fold_left fst snd]. fold (set_all R (dict_set k v acc)).
  destruct (in_dec string_dec p (dict_keys R)) as [Hlater|Hnot].
  - destruct (IH (dict_set k v acc) Hlater) as (r & Hget & Hr).
    exists r. split; [exact Hget | now right].
  - simpl in Hin. destruct Hin as [->|Hin]; [|contradiction].
    exists v. rewrite set_all_other by exact Hnot.
    split; [apply dict_get_set_eq | now left].
Qed.

Lemma collect_file_spec (fs : filesystem) (uuid4 : nat -> string)
  (root f : string) (d d' : dict info) (n n' : nat) (o : list output)
  (r : option exn) :
  collect_file fs uuid4 root f (d, n) = (o, (d', n'), r) ->
  o = []
  /\ ((skipped_name f = true /\ d' = d /\ n' = n /\ r = None)
      \/ (skipped_name f = false
          /\ exists e, open_rb fs (path_join root f) = inl e
                       /\ d' = d /\ n' = n /\ r = Some e)
      \/ (skipped_name f = false
          /\ exists data,
               open_rb fs (path_join root f) = inr data
               /\ d' = dict_set (path_join root f)
                         (Info (sha512_hexdigest data) (uuid4 n)) d
               /\ n' = S n /\ r = None)).
Proof.
  unfold collect_file, calculate_file_hash.
  destruct (skipped_name f).
  - intros H. injection H as <- <- <- <-. split; [reflexivity|]. now left.
  - destruct (open_rb fs (path_join root f)) as [e|data];
      intros H; injection H as <- <- <- <-; (split; [reflexivity|]).
    + right. left. split; [reflexivity|]. now exists e.
    + right. right. split; [reflexivity|]. now exists data.
Qed.

Section Collect.
Variable fs : filesystem.
Variable uuid4 : nat -> string.
Variable targets : list string.
Hypothesis Hpaths : forall q, In q (baseline_paths fs targets) -> path_ok q = true.
Hypothesis Huuid : forall i, eid_ok (uuid4 i) = true.

Let good (R : dict info) : Prop := ledger_ok R = true /\ fingerprints_of fs R.

Lemma good_set (k : string) (data : list Byte.byte) (i : nat) (R : dict info) :
  path_ok k = true -> open_rb fs k = inr data -> good R ->
  good (dict_set k (Info (sha512_hexdigest data) (uuid4 i)) R).
Proof.
  intros Hk Hopen [Hok Hfp]. split.
  - apply ledger_ok_set; [|exact Hok].
    specialize (Huuid i). unfold path_ok, eid_ok in *.
    apply andb_true_iff in Hk, Huuid.
    destruct Hk as [Hk1 Hk2], Huuid as [Hu1 Hu2]. simpl.
    unfold sha512_hexdigest. now rewrite Hk1, field_ok_hexdigest, Hu1, Hk2, Hu2.
  - intros k' r' Hin. apply In_dict_set in Hin.
    destruct Hin as [[-> ->]|Hin]; [now exists data | now apply Hfp].
Qed.

Lemma good_app (a b : dict info) : good a -> good b -> good (a ++ b).
Proof.
  intros [Ha1 Ha2] [Hb1 Hb2]. split.
  - unfold ledger_ok in *. now rewrite forallb_app, Ha1, Hb1.
  - intros k r Hin. apply in_app_or in Hin. destruct Hin; auto.
Qed.

(** The dictionary of one target folder. *)
Lemma collect_items (target : string) (d d' : dict info) (n n' : nat)
  (o : list output) (r : option exn) :
  In target targets -> good d ->
  for_each (fun item : string * list string =>
              for_each (collect_file fs uuid4 (fst item)) (snd item))
           (os_walk [] fs target) (d, n)
  = (o, (d', n'), r) ->
  good d' /\ Forall (fun _ => False) o.
Proof.
  intros Ht Hd E.
  refine (for_each_inv
            (fun item : string * list string =>
               for_each (collect_file fs uuid4 (fst item)) (snd item))
            (fun s => good (fst s)) (fun _ => False)
            (os_walk [] fs target) _ (d, n) o (d', n') r Hd E).
  intros [root files] s a s' b Hitem Hs Ei. cbn [fst snd] in Ei.
  refine (for_each_inv (collect_file fs uuid4 root)
            (fun s => good (fst s)) (fun _ => False) files _ s a s' b Hs Ei).
  intros f [d0 n0] a0 [d1 n1] b0 Hf Hd0 Ef.
  apply collect_file_spec in Ef.
  destruct Ef as [-> [(_ & -> & _)|[(_ & e & _ & -> & _)
                                  |(Hskip & data & Hopen & -> & _)]]];
    (split; [|constructor]); try exact Hd0.
  cbn [fst] in *. apply good_set; [|exact Hopen|exact Hd0].
  apply Hpaths. unfold baseline_paths. apply in_flat_map.
  exists target. split; [exact Ht|]. apply in_flat_map.
  exists (root, files). split; [exact Hitem|]. cbn [fst snd].
  apply in_map, filter_In. split; [exact Hf | now rewrite Hskip].
Qed.

Let written (st : option string * nat) : Prop :=
  exists R, ledger_text (fst st) = save_text R /\ good R.

Lemma collect_target_written (target : string) (st st' : option string * nat)
  (o : list output) (r : option exn) :
  In target targets -> written st ->
  collect_target fs uuid4 target st = (o, st', r) ->
  written st' /\ Forall (fun _ => False) o.
Proof.
  intros Ht (R & HR & Hgood). unfold collect_target.
  destruct (for_each (fun item : string * list string =>
                        for_each (collect_file fs uuid4 (fst item)) (snd item))
                     (os_walk [] fs target) ([], snd st))
    as [[o1 [d1 n1]] r1] eqn:E.
  apply collect_items in E; [|exact Ht|].
  - destruct E as [Hd1 Ho1]. destruct r1 as [e|]; intros H;
      injection H as <- <- <-; (split; [|exact Ho1]).
    + now exists R.
    + exists (R ++ d1). simpl. rewrite HR, save_text_app.
      split; [reflexivity | now apply good_app].
  - split; [reflexivity | intros k r0 []].
Qed.

Variable p : string.
Variable data : list Byte.byte.
Hypothesis Hopen : open_rb fs p = inr data.

Lemma collect_file_keeps (root f : string) (st st' : dict info * nat)
  (o : list output) (r : option exn) :
  In p (dict_keys (fst st)) ->
  collect_file fs uuid4 root f st = (o, st', r) ->
  In p (dict_keys (fst st')).
Proof.
  destruct st as [d n], st' as [d' n']. intros Hin Ef.
  apply collect_file_spec in Ef.
  destruct Ef as [_ [(_ & -> & _)|[(_ & e & _ & -> & _)
                                 |(_ & data' & _ & -> & _)]]];
    try exact Hin.
  cbn [fst] in *. rewrite dict_keys_set.
  destruct (dict_mem _ d); [exact Hin | apply in_or_app; now left].
Qed.

Lemma collect_items_records (target : string) (d d' : dict info) (n n' : nat)
  (o : list output) :
  In p (baseline_paths fs [target]) ->
  for_each (fun item : string * list string =>
              for_each (collect_file fs uuid4 (fst item)) (snd item))
           (os_walk [] fs target) (d, n)
  = (o, (d', n'), None) ->
  In p (dict_keys d').
Proof.
  intros Hin E. unfold baseline_paths in Hin. simpl in Hin.
  rewrite app_nil_r in Hin. apply in_flat_map in Hin.
  destruct Hin as ([root files] & Hitem & Hin). cbn [fst snd] in Hin.
  apply in_map_iff in Hin. destruct Hin as (f & Hp & Hf).
  apply filter_In in Hf. destruct Hf as [Hf Hskip].
  apply negb_true_iff in Hskip.
  refine (for_each_establish
            (fun item : string * list string =>
               for_each (collect_file fs uuid4 (fst item)) (snd item))
            (fun _ => True) (fun s => In p (dict_keys (fst s)))
            (os_walk [] fs target) (root, files) _ _ _ Hitem
            (d, n) o (d', n') I E); auto.
  - intros [root' files'] s a s' _ _ Hs Ei. cbn [fst snd] in Ei.
    refine (proj1 (for_each_inv (collect_file fs uuid4 root')
                     (fun s => In p (dict_keys (fst s))) (fun _ => True)
                     files' _ s a s' None Hs Ei)).
    intros f' s0 a0 s0' b0 _ Hs0 Ef.
    split; [now apply (collect_file_keeps _ _ _ _ _ _ Hs0 Ef)|].
    apply Forall_forall. auto.
  - intros s a s' _ Ei. cbn [fst snd] in Ei.
    refine (for_each_establish (collect_file fs uuid4 root)
              (fun _ => True) (fun s => In p (dict_keys (fst s)))
              files f _ _ _ Hf s a s' I Ei); auto.
    + intros f' s0 a0 s0' _ _ Hs0 Ef.
      now apply (collect_file_keeps _ _ _ _ _ _ Hs0 Ef).
    + intros [d0 n0] a0 [d1 n1] _ Ef. apply collect_file_spec in Ef.
      destruct Ef as [_ [(Habs & _)|[(_ & e & _ & _ & _ & Habs)
                                    |(_ & data' & _ & -> & _)]]];
        [congruence | discriminate |].
      cbn [fst]. rewrite Hp, dict_keys_set.
      unfold dict_mem. destruct (dict_get p d0) eqn:Eg.
      * apply dict_get_In in Eg. now apply (in_map fst) in Eg.
      * apply in_or_app. right. now left.
Qed.

Let written_p (st : option string * nat) : Prop :=
  exists R, fst st = Some (save_text R) /\ good R /\ In p (dict_keys R).

(** The ledger [collect_baseline] leaves when it runs to its end. *)
Lemma collect_baseline_written (old : option string)
  (ledger : option string) (n : nat) (o : list output) :
  In p (baseline_paths fs targets) ->
  collect_baseline fs uuid4 targets old = (o, (ledger, n), None) ->
  exists R, ledger = Some (save_text R) /\ ledger_ok R = true
            /\ fingerprints_of fs R /\ In p (dict_keys R).
Proof.
  intros Hin E. unfold collect_baseline in E.
  assert (Hin' := Hin). unfold baseline_paths in Hin'.
  apply in_flat_map in Hin'. destruct Hin' as (target & Ht & Hin').
  assert (Hpt : In p (baseline_paths fs [target])).
  { unfold baseline_paths. simpl. now rewrite app_nil_r. }
  assert (H : written_p (ledger, n)).
  { refine (for_each_establish (collect_target fs uuid4) written written_p
              targets target _ _ _ Ht (None, 0) o (ledger, n) _ E).
    - intros y s a s' Hy Hs Ec.
      now apply (collect_target_written y s s' a None Hy Hs Ec).
    - intros y s a s' Hy _ (R & HR & Hgood & HpR). unfold collect_target.
      destruct (for_each (fun item : string * list string =>
                            for_each (collect_file fs uuid4 (fst item)) (snd item))
                         (os_walk [] fs y) ([], snd s))
        as [[o1 [d1 n1]] [e|]] eqn:Ei; [discriminate|].
      intros H. injection H as <- <-.
      apply collect_items in Ei; [|exact Hy|split; [reflexivity|intros k r0 []]].
      exists (R ++ d1). rewrite HR. simpl. rewrite save_text_app.
      split; [reflexivity|]. split; [now apply good_app|].
      unfold dict_keys. rewrite map_app. apply in_or_app. now left.
    - intros s a s' (R & HR & Hgood). unfold collect_target.
      destruct (for_each (fun item : string * list string =>
                            for_each (collect_file fs uuid4 (fst item)) (snd item))
                         (os_walk [] fs target) ([], snd s))
        as [[o1 [d1 n1]] [e|]] eqn:Ei; [discriminate|].
      intros H. injection H as <- <-.
      pose proof (collect_items_records target [] d1 (snd s) n1 o1 Hpt Ei) as Hd1.
      apply collect_items in Ei; [|exact Ht|split; [reflexivity|intros k r0 []]].
      exists (R ++ d1). simpl. rewrite HR, save_text_app.
      split; [reflexivity|]. split; [now apply good_app|].
      unfold dict_keys. rewrite map_app. apply in_or_app. now right.
    - exists []. split; [reflexivity|]. split; [reflexivity | intros k r0 []]. }
  destruct H as (R & HR & [Hok Hfp] & HpR). simpl in HR. now exists R.
Qed.

(** What is read back from it for the file [p]. *)
Lemma collect_baseline_loaded (old : option string)
  (ledger : option string) (n : nat) (o : list output) :
  In p (baseline_paths fs targets) ->
  collect_baseline fs uuid4 targets old = (o, (ledger, n), None) ->
  exists text r,
    ledger = Some text
    /\ dict_get p (load_text text) = Some r
    /\ hash r = sha512_hexdigest data.
Proof.
  intros Hin E.
  destruct (collect_baseline_written old ledger n o Hin E)
    as (R & -> & Hok & Hfp & HpR).
  destruct (set_all_get p R [] HpR) as (r & Hget & Hr).
  exists (save_text R), r. split; [reflexivity|]. split.
  - unfold load_text, load_lines. now rewrite load_saved_any.
  - destruct (Hfp p r Hr) as (data' & Hopen' & ->). congruence.
Qed.
End Collect.

(** ** A baseline and the files it was collected from *)

Lemma plain_cons (c : ascii) (s : string) :
  plain (String c s) = true ->
  is_space c = false /\ Ascii.eqb c PIPE = false /\ Ascii.eqb c LF = false
  /\ Ascii.eqb c CR = false /\ plain s = true.
Proof.
  cbn [plain]. rewrite !andb_true_iff, !negb_true_iff. tauto.
Qed.

Lemma plain_has_char (c : ascii) (s : string) :
  In c [PIPE; LF; CR] -> plain s = true -> has_char c s = false.
Proof.
  intros Hc. induction s as [|x s IH]; intros H; [reflexivity|].
  apply plain_cons in H. destruct H as (_ & H1 & H2 & H3 & Hs).
  cbn [has_char]. rewrite (IH Hs).
  simpl in Hc. destruct Hc as [<-|[<-|[<-|[]]]];
    rewrite ?H1, ?H2, ?H3; reflexivity.
Qed.

Lemma plain_ok (s : string) :
  plain s = true -> path_ok s = true /\ eid_ok s = true.
Proof.
  intros H.
  assert (Hf : field_ok s = true).
  { unfold field_ok.
    rewrite !plain_has_char by (try exact H; simpl; tauto). reflexivity. }
  assert (Hl : lstrip s = s).
  { destruct s as [|c s]; [reflexivity|]. apply plain_cons in H.
    destruct H as (H & _). simpl. now rewrite H. }
  assert (Hr : rstrip s = s).
  { clear Hf Hl. induction s as [|c s IH]; [reflexivity|].
    apply plain_cons in H. destruct H as (H & _ & _ & _ & Hs).
    rewrite rstrip_cons_nonspace by exact H. f_equal. now apply IH. }
  unfold path_ok, eid_ok. now rewrite Hf, Hl, Hr, String.eqb_refl.
Qed.

Lemma plain_append (a b : string) :
  plain (a ++ b) = plain a && plain b.
Proof.
  induction a as [|c a IH]; simpl; [reflexivity|].
  now rewrite IH, !andb_assoc.
Qed.

Lemma plain_digits (u : Decimal.uint) : plain (NilEmpty.string_of_uint u) = true.
Proof. induction u; simpl; try reflexivity; exact IHu. Qed.

Lemma eid_ok_uuid_sample (i : nat) : eid_ok (uuid_sample i) = true.
Proof.
  apply plain_ok. unfold uuid_sample. rewrite plain_append, plain_digits.
  reflexivity.
Qed.

(** X15: a baseline collected without error is read back file by file:
    for every file of the target folders whose name does not start with
    [$] or [~$], the ledger has a record and the record read for it holds
    the SHA-512 digest of the file's content.  (For paths and event ids
    that survive the ledger format.) *)
Theorem collect_baseline_round_trip
  (fs : filesystem) (uuid4 : nat -> string) (targets : list string)
  (old ledger : option string) (n : nat) (o : list output)
  (p : string) (data : list Byte.byte) :
  (forall q, In q (baseline_paths fs targets) -> path_ok q = true) ->
  (forall i, eid_ok (uuid4 i) = true) ->
  In p (baseline_paths fs targets) ->
  open_rb fs p = inr data ->
  collect_baseline fs uuid4 targets old = (o, (ledger, n), None) ->
  exists text r,
    ledger = Some text
    /\ dict_get p (load_text text) = Some r
    /\ hash r = sha512_hexdigest data.
Proof.
  intros Hpaths Huuid Hin Hopen E.
  now apply (collect_baseline_loaded fs uuid4 targets Hpaths Huuid p data Hopen
               old ledger n o).
Qed.

Lemma fs_office_paths (q : string) :
  In q (baseline_paths fs_office ["/t"]) -> path_ok q = true.
Proof.
  intros H. vm_compute in H. destruct H as [<-|[<-|[]]]; reflexivity.
Qed.

Lemma collect_baseline_round_trip_witness :
  exists text r,
    fst (snd (fst (collect_baseline fs_office uuid_sample ["/t"] None)))
    = Some text
    /\ dict_get "/t/image files/x.png" (load_text text) = Some r
    /\ hash r = sha512_hexdigest (bytes_of "p").
Proof.
  apply (collect_baseline_round_trip fs_office uuid_sample ["/t"] None
           (fst (snd (fst (collect_baseline fs_office uuid_sample ["/t"] None))))
           (snd (snd (fst (collect_baseline fs_office uuid_sample ["/t"] None))))
           (fst (fst (collect_baseline fs_office uuid_sample ["/t"] None)))).
  - apply fs_office_paths.
  - apply eid_ok_uuid_sample.
  - vm_compute. tauto.
  - reflexivity.
  - vm_compute. reflexivity.
Defined.

Lemma monitor_load_to_info (text : string) :
  map to_info (snd (monitor_load (Some text))) = load_text text.
Proof.
  simpl. unfold load_text, load_lines.
  change (@nil (string * info)) with (map to_info []).
  generalize (@nil (string * minfo)) as d.
  induction (iter_lines text) as [|l ls IH]; intros d; [reflexivity|].
  simpl. rewrite IH. f_equal. unfold mload_step, load_step.
  destruct (parse_line l) as [[path [h e]]|]; [|reflexivity].
  now rewrite to_info_set.
Qed.

Lemma dict_get_to_info (p : string) (d : dict minfo) (r : info) :
  dict_get p (map to_info d) = Some r ->
  exists rec, dict_get p d = Some rec /\ m_hash rec = hash r.
Proof.
  induction d as [|[k v] d IH]; simpl; [discriminate|].
  destruct (String.eqb p k); [|exact IH].
  intros H. injection H as <-. now exists v.
Qed.

(** X16: a baseline and the loop that starts from it.  When
    [collect_baseline] has run without error and [monitor_files] then
    loads that ledger, a cycle over the same files logs nothing about any
    file that was baselined and is unchanged, and keeps its fingerprint. *)
Theorem baseline_then_monitor
  (fs : filesystem) (uuid4 uuid4' : nat -> string)
  (targets targets' : list string)
  (old ledger : option string) (n : nat) (o o' : list output)
  (st' : mstate) (r' : option exn) (p : string) (data : list Byte.byte) :
  (forall q, In q (baseline_paths fs targets) -> path_ok q = true) ->
  (forall i, eid_ok (uuid4 i) = true) ->
  In p (baseline_paths fs targets) ->
  open_rb fs p = inr data ->
  collect_baseline fs uuid4 targets old = (o, (ledger, n), None) ->
  cycle fs uuid4' targets' (MState (snd (monitor_load ledger)) ledger 0)
  = (o', st', r') ->
  Forall (silent_on p) o' /\ recorded p (sha512_hexdigest data) st'.
Proof.
  intros Hpaths Huuid Hin Hopen E Ec.
  destruct (collect_baseline_loaded fs uuid4 targets Hpaths Huuid p data Hopen
              old ledger n o Hin E) as (text & r & -> & Hget & Hhash).
  rewrite <- monitor_load_to_info in Hget.
  apply dict_get_to_info in Hget. destruct Hget as (rec & Hget & Hrec).
  assert (Hinv : keyed (file_info_dict
                          (MState (snd (monitor_load (Some text))) (Some text) 0))
                 /\ recorded p (sha512_hexdigest data)
                      (MState (snd (monitor_load (Some text))) (Some text) 0)).
  { split; [apply monitor_load_keyed|]. exists rec. split; [exact Hget|].
    congruence. }
  destruct (cycle_quiet fs uuid4' p data Hopen targets' _ st' o' r' Hinv Ec)
    as [[_ Hr] Ho].
  now split.
Qed.

Lemma baseline_then_monitor_witness :
  let ledger := fst (snd (fst (collect_baseline fs_office uuid_sample ["/t"] None))) in
  let run := cycle fs_office uuid_sample ["/t"]
               (MState (snd (monitor_load ledger)) ledger 0) in
  Forall (silent_on "/t/a.txt") (fst (fst run))
  /\ recorded "/t/a.txt" (sha512_hexdigest (bytes_of "hello")) (snd (fst run)).
Proof.
  intros ledger run.
  apply (baseline_then_monitor fs_office uuid_sample uuid_sample ["/t"] ["/t"]
           None ledger
           (snd (snd (fst (collect_baseline fs_office uuid_sample ["/t"] None))))
           (fst (fst (collect_baseline fs_office uuid_sample ["/t"] None)))
           (fst (fst run)) (snd (fst run)) (snd run)).
  - apply fs_office_paths.
  - apply eid_ok_uuid_sample.
  - vm_compute. tauto.
  - reflexivity.
  - vm_compute. reflexivity.
  - vm_compute. reflexivity.
Defined.

(** ** A baseline that cannot be collected *)

Lemma for_each_raises {A S : Type} (body : A -> S -> result S)
  (l : list A) (x : A) :
  In x l ->
  (forall st, exists o st' e, body x st = (o, st', Some e)) ->
  forall st, exists o st' e, for_each body l st = (o, st', Some e).
Proof.
  intros Hin Hx. induction l as [|y l IH]; intros st; [contradiction|].
  simpl. destruct (body y st) as [[o1 st1] [e|]] eqn:E1.
  - now exists o1, st1, e.
  - destruct Hin as [->|Hin].
    + destruct (Hx st) as (o & st' & e & Habs). congruence.
    + destruct (IH Hin st1) as (o2 & st2 & e & E2). rewrite E2.
      now exists (o1 ++ o2), st2, e.
Qed.

Lemma collect_target_silent (fs : filesystem) (uuid4 : nat -> string)
  (target : string) (st st' : option string * nat) (o : list output)
  (r : option exn) :
  collect_target fs uuid4 target st = (o, st', r) ->
  o = [] /\ (r <> None -> fst st' = fst st).
Proof.
  unfold collect_target.
  destruct (for_each (fun item : string * list string =>
                        for_each (collect_file fs uuid4 (fst item)) (snd item))
                     (os_walk [] fs target) ([], snd st))
    as [[o1 [d1 n1]] r1] eqn:E.
  assert (Ho : Forall (fun _ => False) o1).
  { refine (proj2 (for_each_inv
                     (fun item : string * list string =>
                        for_each (collect_file fs uuid4 (fst item)) (snd item))
                     (fun _ => True) (fun _ => False)
                     (os_walk [] fs target) _ _ o1 (d1, n1) r1 I E)).
    intros [root files] s a s' b _ _ Ei. cbn [fst snd] in Ei. split; [exact I|].
    refine (proj2 (for_each_inv (collect_file fs uuid4 root)
                     (fun _ => True) (fun _ => False) files _ s a s' b I Ei)).
    intros f [d0 n0] a0 [d2 n2] b0 _ _ Ef. apply collect_file_spec in Ef.
    destruct Ef as [-> _]. split; [exact I | constructor]. }
  assert (o1 = []) by (destruct Ho as [|x l []]; reflexivity). subst o1.
  destruct r1 as [e|]; intros H; injection H as <- <- <-.
  - split; [reflexivity | reflexivity].
  - split; [reflexivity | congruence].
Qed.

(** X17: when a file of the first target folder that is to be baselined
    cannot be read (it is locked, say), [collect_baseline] ends with the
    exception, and the old ledger, erased at the start, is replaced by
    nothing: no [baseline.txt] is left. *)
Theorem collect_baseline_unreadable
  (fs : filesystem) (uuid4 : nat -> string) (target : string)
  (rest : list string) (old : option string) (p : string) (e : exn) :
  In p (baseline_paths fs [target]) ->
  open_rb fs p = inl e ->
  exists e' n,
    collect_baseline fs uuid4 (target :: rest) old = ([], (None, n), Some e').
Proof.
  intros Hin Hopen. unfold baseline_paths in Hin. simpl in Hin.
  rewrite app_nil_r in Hin. apply in_flat_map in Hin.
  destruct Hin as ([root files] & Hitem & Hin). cbn [fst snd] in Hin.
  apply in_map_iff in Hin. destruct Hin as (f & Hp & Hf).
  apply filter_In in Hf. destruct Hf as [Hf Hskip].
  apply negb_true_iff in Hskip.
  assert (Hwalk : exists o1 st1 e1,
             for_each (fun item : string * list string =>
                         for_each (collect_file fs uuid4 (fst item)) (snd item))
                      (os_walk [] fs target) ([], 0)
             = (o1, st1, Some e1)).
  { apply (for_each_raises _ _ (root, files) Hitem). intros s. cbn [fst snd].
    apply (for_each_raises _ _ f Hf). intros s0.
    unfold collect_file, calculate_file_hash. rewrite Hskip, Hp, Hopen.
    now exists [], s0, e. }
  destruct Hwalk as (o1 & [d1 n1] & e1 & Hwalk).
  assert (Ht : collect_target fs uuid4 target (None, 0)
               = (o1, (None, n1), Some e1)).
  { unfold collect_target. cbn [fst snd]. now rewrite Hwalk. }
  destruct (collect_target_silent _ _ _ _ _ _ _ Ht) as [-> _].
  exists e1, n1. unfold collect_baseline. cbn [for_each]. now rewrite Ht.
Qed.

Lemma collect_baseline_unreadable_witness :
  exists e' n,
    collect_baseline fs_walk uuid_sample ["/t"]
      (Some ("/t/a.txt|00|e0" ++ nl)%string)
    = ([], (None, n), Some e').
Proof.
  apply (collect_baseline_unreadable fs_walk uuid_sample "/t" [] _
           "/t/l.txt" PermissionError).
  - vm_compute. tauto.
  - reflexivity.
Defined.

(** ** Copying a directory *)

(** Induction on a directory tree. *)
Fixpoint tree_induction (P : tree -> Prop)
  (H : forall name files subdirs,
         Forall P subdirs -> P (Dir name files subdirs))
  (t : tree) : P t :=
  match t with
  | Dir name files subdirs =>
      H name files subdirs
        ((fix all (l : list tree) : Forall P l :=
            match l with
            | [] => Forall_nil P
            | x :: l' => Forall_cons x (tree_induction P H x) (all l')
            end) subdirs)
  end.

Lemma filter_all {A : Type} (f : A -> bool) (l : list A) :
  forallb f l = true -> filter f l = l.
Proof.
  induction l as [|x l IH]; simpl; [reflexivity|].
  intros H. apply andb_true_iff in H. destruct H as [Hx Hl].
  now rewrite Hx, IH.
Qed.

Lemma renamed_self (t : tree) : renamed (dir_name t) t = t.
Proof. now destruct t. Qed.

(** The copy succeeds exactly when every file can be read, and is then
    the directory as it is, under its new name. *)
Lemma copy_tree_spec (t : tree) (name : string) :
  snd (copy_tree name t) = all_readable t
  /\ (all_readable t = true -> fst (copy_tree name t) = renamed name t).
Proof.
  revert name. induction t as [n files subdirs IH] using tree_induction.
  intros name. cbn [copy_tree all_readable fst snd renamed].
  assert (Hflag : forallb snd (map (fun sub => copy_tree (dir_name sub) sub) subdirs)
                  = forallb all_readable subdirs).
  { induction IH as [|sub subdirs Hsub _ IHl]; [reflexivity|].
    cbn [map forallb]. now rewrite (proj1 (Hsub (dir_name sub))), IHl. }
  split; [now rewrite Hflag|].
  intros H. apply andb_true_iff in H. destruct H as [Hfiles Hsubs].
  rewrite (filter_all _ _ Hfiles). f_equal.
  induction IH as [|sub subdirs Hsub _ IHl]; [reflexivity|].
  cbn [forallb] in Hsubs. apply andb_true_iff in Hsubs.
  destruct Hsubs as [Hs Hrest]. cbn [map].
  rewrite (proj2 (Hsub (dir_name sub)) Hs), renamed_self.
  f_equal. apply IHl; [|exact Hrest].
  cbn [map forallb] in Hflag. rewrite (proj1 (Hsub (dir_name sub))), Hs in Hflag.
  exact Hflag.
Qed.

Lemma copy_tree_name (t : tree) (name : string) :
  dir_name (fst (copy_tree name t)) = name.
Proof. now destruct t. Qed.

(** ** The copying loop *)

Lemma dst_exists_false (folder_name : string) (copied : list tree) :
  dst_exists folder_name copied = false
  <-> proper_name folder_name = true
      /\ ~ In folder_name (map dir_name copied).
Proof.
  unfold dst_exists, proper_name.
  destruct (String.eqb folder_name "" || String.eqb folder_name "."
            || String.eqb folder_name ".."); simpl.
  - split; [discriminate | intros [H _]; discriminate H].
  - split.
    + intros H. split; [reflexivity|]. intros Hin.
      apply in_map_iff in Hin. destruct Hin as (t & Ht & Hin).
      assert (Hex : existsb (fun t0 => String.eqb (dir_name t0) folder_name) copied
                    = true).
      { apply existsb_exists. exists t. split; [exact Hin|].
        now rewrite Ht, String.eqb_refl. }
      congruence.
    + intros [_ Hnot].
      destruct (existsb (fun t0 => String.eqb (dir_name t0) folder_name) copied)
        eqn:E; [|reflexivity].
      apply existsb_exists in E. destruct E as (t & Hin & Ht).
      apply String.eqb_eq in Ht. exfalso. apply Hnot. rewrite <- Ht.
      now apply in_map.
Qed.

(** Copies that all succeed are filed under the base names of the target
    folders, which are then distinct. *)
Lemma copy_targets_names (fs : filesystem) (targets : list string)
  (copied copied' : list tree) :
  copy_targets fs targets copied = (copied', None) ->
  map dir_name copied' = map dir_name copied ++ map basename targets
  /\ (NoDup (map dir_name copied) -> NoDup (map dir_name copied')).
Proof.
  revert copied. induction targets as [|folder rest IH]; intros copied.
  - simpl. intros H. injection H as <-. now rewrite app_nil_r.
  - cbn [copy_targets]. destruct (find_top fs folder) as [t|]; [|discriminate].
    destruct (dst_exists (basename folder) copied) eqn:Edst; [discriminate|].
    destruct (copy_tree (basename folder) t) as [t' ok] eqn:Ec.
    destruct ok; [|discriminate]. intros H.
    destruct (IH _ H) as [Hnames Hnd].
    assert (Ht' : dir_name t' = basename folder).
    { change t' with (fst (t', true)). rewrite <- Ec. apply copy_tree_name. }
    rewrite map_app in Hnames, Hnd. simpl in Hnames, Hnd. rewrite Ht' in *.
    split; [now rewrite Hnames, <- app_assoc|].
    intros Hc. apply Hnd. apply dst_exists_false in Edst.
    apply NoDup_app; [exact Hc | repeat constructor; intros [] |].
    intros x Hx [<-|[]]. tauto.
Qed.

Lemma copy_targets_good (fs : filesystem) (targets : list string)
  (copied copied' : list tree) (e : backup_exn) :
  (forall t, In t targets -> good_target fs t) ->
  copy_targets fs targets copied = (copied', Some e) ->
  e = FileExistsError.
Proof.
  revert copied. induction targets as [|folder rest IH]; intros copied Hgood;
    [discriminate|].
  cbn [copy_targets].
  destruct (Hgood folder (or_introl eq_refl)) as (t & -> & Hread).
  destruct (dst_exists (basename folder) copied);
    [intros H; now injection H as _ <-|].
  pose proof (copy_tree_spec t (basename folder)) as [Hflag _].
  destruct (copy_tree (basename folder) t) as [t' ok]. simpl in Hflag.
  rewrite Hflag, Hread. apply IH. intros t0 Ht0. apply Hgood. now right.
Qed.

(** The copies of target folders that can be read in full, under proper,
    distinct base names. *)
Lemma copy_targets_full (fs : filesystem) (targets : list string)
  (copied : list tree) :
  (forall t, In t targets -> good_target fs t) ->
  (forall t, In t targets -> proper_name (basename t) = true) ->
  NoDup (map dir_name copied ++ map basename targets) ->
  copy_targets fs targets copied
  = (copied ++ map (copy_of fs) targets, None).
Proof.
  revert copied. induction targets as [|folder rest IH];
    intros copied Hgood Hproper Hnd.
  - simpl. now rewrite app_nil_r.
  - cbn [copy_targets map]. unfold copy_of at 1.
    destruct (Hgood folder (or_introl eq_refl)) as (t & -> & Hread).
    assert (Hdst : dst_exists (basename folder) copied = false).
    { apply dst_exists_false. split; [apply Hproper; now left|].
      intros Hin. simpl in Hnd. apply NoDup_remove_2 in Hnd.
      apply Hnd. apply in_or_app. now left. }
    rewrite Hdst.
    pose proof (copy_tree_spec t (basename folder)) as [Hflag Hcopy].
    destruct (copy_tree (basename folder) t) as [t' ok]. simpl in Hflag, Hcopy.
    rewrite Hflag, Hread. rewrite (Hcopy Hread).
    rewrite IH.
    + now rewrite <- app_assoc.
    + intros t0 Ht0. apply Hgood. now right.
    + intros t0 Ht0. apply Hproper. now right.
    + rewrite map_app. simpl. destruct t. simpl.
      rewrite <- app_assoc. exact Hnd.
Qed.

(** A target folder that is no directory, or holds a file that cannot be
    read, ends the copying with an exception. *)
Lemma copy_targets_fails (fs : filesystem) (targets : list string)
  (bad : string) (copied : list tree) :
  In bad targets ->
  find_top fs bad = None
  \/ (exists t, find_top fs bad = Some t /\ all_readable t = false) ->
  exists copied' e, copy_targets fs targets copied = (copied', Some e).
Proof.
  intros Hin Hbad. revert copied.
  induction targets as [|folder rest IH]; intros copied; [contradiction|].
  cbn [copy_targets]. destruct (find_top fs folder) as [t|] eqn:Etop; [|eauto].
  destruct (dst_exists (basename folder) copied); [eauto|].
  pose proof (copy_tree_spec t (basename folder)) as [Hflag _].
  destruct (copy_tree (basename folder) t) as [t' ok]. simpl in Hflag.
  destruct ok; [|eauto].
  destruct Hin as [->|Hin]; [|now apply IH].
  destruct Hbad as [Hnone|(t0 & Hsome & Hunread)]; congruence.
Qed.

(** ** Pruning the archives *)

Lemma store_ok_listing (s : list archive) :
  store_ok s ->
  glob_star (store_listing s) = store_listing s
  /\ forall e, In e (store_listing s) -> e_is_dir e = true.
Proof.
  intros [_ Hall]. split.
  - apply glob_star_all. intros e He. apply in_map_iff in He.
    destruct He as (a & <- & Ha). now apply Hall.
  - intros e He. apply in_map_iff in He.
    destruct He as (a & <- & Ha). now apply Hall.
Qed.

Lemma filter_store_listing (n : string) (s : list archive) :
  store_listing
    (filter (fun a => negb (String.eqb (e_name (a_entry a)) n)) s)
  = remove_entry n (store_listing s).
Proof.
  induction s as [|a s IH]; simpl; [reflexivity|].
  destruct (negb (String.eqb (e_name (a_entry a)) n)); simpl; now rewrite IH.
Qed.

Lemma names_after_removal (n : string) (listing : list entry) (e : entry) :
  In e listing ->
  existsb (String.eqb (e_name e)) (map e_name (remove_entry n listing))
  = negb (String.eqb (e_name e) n).
Proof.
  intros He. destruct (String.eqb_spec (e_name e) n) as [E|Hne]; simpl.
  - destruct (existsb _ _) eqn:Ex; [|reflexivity].
    apply existsb_exists in Ex. destruct Ex as (m & Hm & Heq).
    apply String.eqb_eq in Heq. apply in_map_iff in Hm.
    destruct Hm as (e' & He' & Hin'). apply filter_In in Hin'.
    destruct Hin' as [_ Hn]. apply negb_true_iff, String.eqb_neq in Hn.
    congruence.
  - apply existsb_exists. exists (e_name e).
    split; [|apply String.eqb_refl].
    apply in_map, filter_In. split; [exact He|].
    now apply negb_true_iff, String.eqb_neq.
Qed.

(** Pruning archives as the program makes them: nothing with two or
    fewer; else the oldest goes. *)
Lemma prune_store_spec (loc : string) (s : list archive) :
  store_ok s ->
  (List.length s <= 2 -> prune_store loc s = ([], s))
  /\ (2 < List.length s ->
      exists oldest,
        In oldest s
        /\ (forall a, In a s ->
                      (e_ctime (a_entry oldest) <= e_ctime (a_entry a))%Z)
        /\ prune_store loc s
           = ([Plain (LogPlain ("Deleted old backup: "
                                ++ path_join loc (e_name (a_entry oldest))))],
              filter (fun a => negb (String.eqb (e_name (a_entry a))
                                       (e_name (a_entry oldest)))) s)
        /\ List.length
             (filter (fun a => negb (String.eqb (e_name (a_entry a))
                                      (e_name (a_entry oldest)))) s)
           = List.length s - 1).
Proof.
  intros Hok. destruct (store_ok_listing s Hok) as [Hglob Hdirs].
  assert (Hlen : List.length (store_listing s) = List.length s)
    by apply length_map.
  split; intros Hn; unfold prune_store.
  - rewrite delete_old_backups_few by (rewrite Hglob, Hlen; exact Hn).
    simpl. f_equal. apply filter_all. apply forallb_forall. intros a Ha.
    apply existsb_exists. exists (e_name (a_entry a)).
    split; [|apply String.eqb_refl]. apply in_map. now apply in_map.
  - destruct (delete_old_backups_one loc (store_listing s)) as
      (oldest & Hin & Hmin & Hrun & _ & Hless);
      [exact (proj1 Hok) | exact Hdirs | rewrite Hglob, Hlen; exact Hn|].
    rewrite Hglob in Hin, Hmin. apply in_map_iff in Hin.
    destruct Hin as (a0 & <- & Ha0). exists a0.
    split; [exact Ha0|]. split; [intros a Ha; apply Hmin; now apply in_map|].
    rewrite Hrun. simpl.
    assert (Hfilter :
      filter (fun a => existsb (String.eqb (e_name (a_entry a)))
                         (map e_name (remove_entry (e_name (a_entry a0))
                                        (store_listing s)))) s
      = filter (fun a => negb (String.eqb (e_name (a_entry a))
                                 (e_name (a_entry a0)))) s).
    { apply filter_ext_in. intros a Ha. apply names_after_removal.
      now apply in_map. }
    rewrite Hfilter. split; [reflexivity|].
    rewrite <- (length_map a_entry).
    change (map a_entry ?x) with (store_listing x).
    rewrite filter_store_listing, Hless. now rewrite Hlen.
Qed.

Lemma store_ok_filter (f : archive -> bool) (s : list archive) :
  store_ok s -> store_ok (filter f s).
Proof.
  intros [Hnd Hall]. split.
  - clear Hall. unfold store_listing in *.
    induction s as [|a s IH]; simpl; [constructor|].
    inversion Hnd as [|? ? Hnotin Hnd']; subst.
    destruct (f a); simpl; [|now apply IH].
    constructor; [|now apply IH].
    intros Hin. apply Hnotin. rewrite map_map in *.
    apply in_map_iff in Hin. destruct Hin as (b & Hb & Hin).
    apply filter_In in Hin. apply in_map_iff. exists b. tauto.
  - intros a Ha. apply filter_In in Ha. now apply Hall.
Qed.

Lemma store_ok_add (s : list archive) (timestamp : string) (now : Z)
  (copied : list tree) :
  store_ok s -> startswith timestamp "." = false ->
  existsb (fun a => String.eqb (e_name (a_entry a)) timestamp) s = false ->
  store_ok (s ++ [new_archive timestamp now copied]).
Proof.
  intros [Hnd Hall] Hvis Hfresh. split.
  - unfold store_listing in *. rewrite !map_app. simpl.
    apply NoDup_app; [exact Hnd | repeat constructor; intros [] |].
    intros x Hx [<-|[]]. rewrite map_map in Hx. apply in_map_iff in Hx.
    destruct Hx as (a & Ha & Hin).
    assert (Hex : existsb (fun a => String.eqb (e_name (a_entry a)) timestamp) s
                  = true).
    { apply existsb_exists. exists a. split; [exact Hin|].
      now apply String.eqb_eq. }
    congruence.
  - intros a Ha. apply in_app_or in Ha.
    destruct Ha as [Ha|[<-|[]]]; [now apply Hall | now split].
Qed.

(** ** A backup that succeeds *)

(** X18: retention.  When the backup location holds at most two archives
    and the copies of a run all succeed, the run leaves at most two
    archives again, and the archive it made is among them if it is newer
    than the others: a successful run never lets the archives pile up. *)
Theorem backup_keeps_two
  (fs : filesystem) (timestamp : string) (now : Z) (targets : list string)
  (loc : string) (s : list archive) (copied : list tree) :
  store_ok s -> List.length s <= 2 ->
  startswith timestamp "." = false ->
  existsb (fun a => String.eqb (e_name (a_entry a)) timestamp) s = false ->
  copy_targets fs targets [] = (copied, None) ->
  store_ok (snd (backup_and_manage fs timestamp now targets loc s))
  /\ List.length (snd (backup_and_manage fs timestamp now targets loc s)) <= 2
  /\ ((forall a, In a s -> (e_ctime (a_entry a) < now)%Z) ->
      In (new_archive timestamp now copied)
         (snd (backup_and_manage fs timestamp now targets loc s))).
Proof.
  intros Hok Hlen Hvis Hfresh Hcopy. unfold backup_and_manage.
  rewrite Hfresh, Hcopy. fold (new_archive timestamp now copied).
  pose proof (store_ok_add s timestamp now copied Hok Hvis Hfresh) as Hok1.
  destruct (prune_store_spec loc _ Hok1) as [Hfew Hmany].
  assert (Hlen1 : List.length (s ++ [new_archive timestamp now copied])
                  = S (List.length s))
    by (rewrite length_app; simpl; lia).
  destruct (Nat.le_gt_cases (List.length (s ++ [new_archive timestamp now copied])) 2)
    as [Hle|Hgt].
  - rewrite (Hfew Hle). simpl. split; [exact Hok1|]. split; [exact Hle|].
    intros _. apply in_or_app. right. now left.
  - destruct (Hmany Hgt) as (oldest & Hin & Hmin & -> & Hless). simpl.
    split; [now apply store_ok_filter|]. split; [lia|].
    intros Hnew. apply filter_In. split; [apply in_or_app; right; now left|].
    apply negb_true_iff, String.eqb_neq. simpl. intros Hname.
    apply in_app_or in Hin. destruct Hin as [Hin|[<-|[]]].
    + assert (Hex : existsb (fun a => String.eqb (e_name (a_entry a)) timestamp) s
                    = true).
      { apply existsb_exists. exists oldest. split; [exact Hin|].
        now apply String.eqb_eq. }
      congruence.
    + destruct s as [|a s]; [simpl in Hgt; lia|].
      specialize (Hnew a (or_introl eq_refl)).
      specialize (Hmin a (or_introl eq_refl)). simpl in Hmin. lia.
Qed.

Lemma backup_keeps_two_witness :
  let s := [Archive (Entry "t1" 1 true) []; Archive (Entry "t2" 2 true) []] in
  let copied := fst (copy_targets fs_two_files ["/t"] []) in
  store_ok (snd (backup_and_manage fs_two_files "t3" 3 ["/t"] "/b" s))
  /\ List.length (snd (backup_and_manage fs_two_files "t3" 3 ["/t"] "/b" s)) <= 2
  /\ ((forall a, In a s -> (e_ctime (a_entry a) < 3)%Z) ->
      In (new_archive "t3" 3 copied)
         (snd (backup_and_manage fs_two_files "t3" 3 ["/t"] "/b" s))).
Proof.
  intros s copied. apply backup_keeps_two.
  - split.
    + repeat constructor; simpl; intuition discriminate.
    + intros a [<-|[<-|[]]]; split; reflexivity.
  - simpl. lia.
  - reflexivity.
  - reflexivity.
  - reflexivity.
Defined.

(** X19: a full copy.  When every target folder is a directory all of
    whose files can be read and the base names of the target folders are
    proper and distinct, the run reports completion and the archive it
    makes holds each target folder as it is, subdirectories and files,
    under its base name; the pruning then runs on the archives with the
    new one among them. *)
Theorem backup_full_copy
  (fs : filesystem) (timestamp : string) (now : Z) (targets : list string)
  (loc : string) (s : list archive) :
  existsb (fun a => String.eqb (e_name (a_entry a)) timestamp) s = false ->
  (forall t, In t targets -> good_target fs t) ->
  (forall t, In t targets -> proper_name (basename t) = true) ->
  NoDup (map basename targets) ->
  backup_and_manage fs timestamp now targets loc s
  = ([Plain (Print "Backup completed successfully.");
      Plain (LogPlain ("Backup created at: " ++ path_join loc timestamp))]
     ++ fst (prune_store loc
               (s ++ [new_archive timestamp now (map (copy_of fs) targets)])),
     snd (prune_store loc
            (s ++ [new_archive timestamp now (map (copy_of fs) targets)]))).
Proof.
  intros Hfresh Hgood Hproper Hnd. unfold backup_and_manage.
  rewrite Hfresh, (copy_targets_full fs targets [] Hgood Hproper Hnd).
  simpl. fold (new_archive timestamp now (map (copy_of fs) targets)).
  now destruct (prune_store loc _).
Qed.

Lemma backup_full_copy_witness :
  backup_and_manage fs_two_files "t1" 1 ["/t"] "/b" []
  = ([Plain (Print "Backup completed successfully.");
      Plain (LogPlain ("Backup created at: " ++ path_join "/b" "t1"))]
     ++ fst (prune_store "/b"
               ([] ++ [new_archive "t1" 1 (map (copy_of fs_two_files) ["/t"])])),
     snd (prune_store "/b"
            ([] ++ [new_archive "t1" 1 (map (copy_of fs_two_files) ["/t"])]))).
Proof.
  apply backup_full_copy.
  - reflexivity.
  - intros t [<-|[]]. eexists. split; reflexivity.
  - intros t [<-|[]]. reflexivity.
  - repeat constructor; simpl; intuition discriminate.
Defined.

(** ** A backup that is abandoned *)

Lemma copy_targets_proper (fs : filesystem) (targets : list string)
  (copied copied' : list tree) :
  copy_targets fs targets copied = (copied', None) ->
  forall t, In t targets -> proper_name (basename t) = false -> False.
Proof.
  revert copied. induction targets as [|folder rest IH]; intros copied E t Ht Hp;
    [contradiction|].
  cbn [copy_targets] in E. destruct (find_top fs folder) as [tr|]; [|discriminate].
  destruct (dst_exists (basename folder) copied) eqn:Edst; [discriminate|].
  destruct (copy_tree (basename folder) tr) as [t' ok].
  destruct ok; [|discriminate].
  destruct Ht as [->|Ht]; [|now apply (IH _ E t)].
  apply dst_exists_false in Edst. destruct Edst as [Hproper _]. congruence.
Qed.

(** X20: when a target folder is no directory, or holds a file that
    cannot be read, the run is abandoned: completion is not reported, at
    most the exception is logged, the archive stays with what was copied
    into it, and nothing is pruned, so that the backup location has one
    entry more than before. *)
Theorem backup_abandoned
  (fs : filesystem) (timestamp : string) (now : Z) (targets : list string)
  (loc : string) (s : list archive) (bad : string) :
  existsb (fun a => String.eqb (e_name (a_entry a)) timestamp) s = false ->
  In bad targets ->
  find_top fs bad = None
  \/ (exists t, find_top fs bad = Some t /\ all_readable t = false) ->
  exists copied o,
    backup_and_manage fs timestamp now targets loc s
    = (o, s ++ [new_archive timestamp now copied])
    /\ (o = [] \/ exists e, o = [LogException e]).
Proof.
  intros Hfresh Hin Hbad. unfold backup_and_manage. rewrite Hfresh.
  destruct (copy_targets_fails fs targets bad [] Hin Hbad) as (copied & e & ->).
  exists copied. destruct e; eexists; (split; [reflexivity|]); eauto.
Qed.

Lemma backup_abandoned_witness :
  exists copied o,
    backup_and_manage fs_walk "t1" 1 ["/t"] "/b" []
    = (o, [] ++ [new_archive "t1" 1 copied])
    /\ (o = [] \/ exists e, o = [LogException e]).
Proof.
  apply (backup_abandoned fs_walk "t1" 1 ["/t"] "/b" [] "/t").
  - reflexivity.
  - now left.
  - right. eexists. split; reflexivity.
Defined.

(** X21: when two target folders have the same base name (or one has none,
    its path ending in a separator) and all of them can be read, no run
    ever completes, and it fails without a word: the second copy finds its
    destination taken, [FileExistsError] is passed over, nothing is logged
    and nothing is pruned. *)
Theorem backup_same_base_name
  (fs : filesystem) (timestamp : string) (now : Z) (targets : list string)
  (loc : string) (s : list archive) :
  existsb (fun a => String.eqb (e_name (a_entry a)) timestamp) s = false ->
  (forall t, In t targets -> good_target fs t) ->
  ~ NoDup (map basename targets)
  \/ (exists t, In t targets /\ proper_name (basename t) = false) ->
  exists copied,
    backup_and_manage fs timestamp now targets loc s
    = ([], s ++ [new_archive timestamp now copied]).
Proof.
  intros Hfresh Hgood Hbad. unfold backup_and_manage. rewrite Hfresh.
  destruct (copy_targets fs targets []) as [copied [e|]] eqn:E.
  - rewrite (copy_targets_good fs targets [] copied e Hgood E).
    now exists copied.
  - exfalso. destruct Hbad as [Hdup|(t & Ht & Himproper)].
    + apply Hdup. destruct (copy_targets_names fs targets [] copied E)
        as [Hnames Hnd].
      simpl in Hnames. rewrite <- Hnames. apply Hnd. constructor.
    + apply (copy_targets_proper fs targets [] copied E t Ht). exact Himproper.
Qed.

Lemma backup_same_base_name_witness :
  exists copied,
    backup_and_manage fs_two_files "t1" 1 ["/t"; "/t"] "/b" []
    = ([], [] ++ [new_archive "t1" 1 copied]).
Proof.
  apply backup_same_base_name.
  - reflexivity.
  - intros t [<-|[<-|[]]]; eexists; split; reflexivity.
  - left. intros H. inversion H as [|? ? Hnotin _]; subst.
    apply Hnotin. now left.
Defined.
